(** * Dr. Nudge: prescription extraction and safety pipeline

    A shallow embedding of the backend of the medication companion
    (services/drugService.js, utils/readability.js, utils/safetyChecker.js,
    services/nudgeService.js, the extraction of services/llmService.js and
    services/ocrService.js, and the pipeline routes of server.js),
    followed by the properties of the pipeline that are established on it.

    Conventions of the embedding
    - JavaScript strings are [string]s of ASCII characters; [toLowerCase],
      [trim] and the regular expressions of the source are written out on
      them.
    - A value that may be [undefined], [null] or missing is an [option].
    - JavaScript numbers that are integers by construction (tiers, lengths,
      edit distances, clock readings in milliseconds) are [Z] or [nat];
      the others (a match confidence, a grade level) are what they are in
      JavaScript, binary64 floating-point numbers, with the operations of
      IEEE 754 ([float]).
    - An object literal used as a lookup table is an association list in
      source order, read through [js_get], which also sees the properties
      every plain object inherits from [Object.prototype].
    - Code that can throw returns a [Result]; remote services, the
      extraction backends, the language model and the clock are oracles
      passed in as records, and the JSON they return has the shape the
      code expects.
    - The durable tier of the cache is a table that is always reachable.
    - A handler is a function from the request, the oracles and the state
      of the two cache tiers to the response, the new state and the trace
      of cache and backend operations. *)

From Stdlib Require Import String Ascii List ZArith Bool Lia.
From Stdlib Require Uint63.
From Stdlib Require Import Floats.

(** A decimal literal denotes the nearest binary64 number, as it does in
    JavaScript. *)
Set Warnings "-inexact-float".
From stdpp Require Import gmap strings pretty.
Import ListNotations.

Open Scope string_scope.
Open Scope list_scope.

(* ===================================================================== *)
(** * JavaScript values and helpers *)
(* ===================================================================== *)

Module JS.

(** Exceptions are not inspected by the code beyond their message, so a
    coarse classification is enough. *)
Inductive Exn : Type :=
| TypeError      (* calling or spreading something that is not callable / iterable *)
| NetworkError   (* a rejected HTTP request *)
| BackendError.  (* a failing extraction or generation backend *)

Inductive Result (A : Type) : Type :=
| Ok (a : A)
| Throw (e : Exn).
Arguments Ok {A} a.
Arguments Throw {A} e.

(** Sequencing: the first exception aborts the rest. Written
    [x ← r; k] below. *)
Global Instance result_bind : MBind Result :=
  fun A B (k : A -> Result B) (r : Result A) =>
    match r with
    | Ok a => k a
    | Throw e => Throw e
    end.

(** [try { r } catch { h }] *)
Definition try_catch {A} (r : Result A) (h : Exn -> Result A) : Result A :=
  match r with
  | Ok a => Ok a
  | Throw e => h e
  end.

(** ** Truthiness of strings: [undefined], [null] and [''] are falsy. *)
Definition truthy (o : option string) : bool :=
  match o with
  | Some s => negb (String.eqb s "")
  | None => false
  end.

(** [o || d] for a string-valued [o]. *)
Definition or_else (o : option string) (d : string) : string :=
  match o with
  | Some s => if String.eqb s "" then d else s
  | None => d
  end.

(** ** Numbers *)

(** A length or a count as a JavaScript number; exact below 2^53. *)
Definition number (n : nat) : float :=
  PrimFloat.of_uint63 (Uint63.of_Z (Z.of_nat n)).

(** ** Characters *)
Definition code (c : ascii) : N := N_of_ascii c.

Definition is_upper (c : ascii) : bool := (65 <=? code c)%N && (code c <=? 90)%N.
Definition is_lower (c : ascii) : bool := (97 <=? code c)%N && (code c <=? 122)%N.
Definition is_digit (c : ascii) : bool := (48 <=? code c)%N && (code c <=? 57)%N.

(** The ASCII members of the class [\s]: tab, line feed, vertical tab,
    form feed, carriage return and space. *)
Definition is_space (c : ascii) : bool :=
  ((9 <=? code c)%N && (code c <=? 13)%N) || (code c =? 32)%N.

Definition lower_char (c : ascii) : ascii :=
  if is_upper c then ascii_of_N (code c + 32) else c.

(** [s.toLowerCase()] *)
Fixpoint toLowerCase (s : string) : string :=
  match s with
  | EmptyString => EmptyString
  | String c t => String (lower_char c) (toLowerCase t)
  end.

(** ** Substrings *)

(** [s.startsWith(p)] *)
Fixpoint startsWith (s p : string) : bool :=
  match p, s with
  | EmptyString, _ => true
  | String a p', String b s' => Ascii.eqb a b && startsWith s' p'
  | String _ _, EmptyString => false
  end.

(** [s.includes(sub)] *)
Fixpoint includes (s sub : string) : bool :=
  startsWith s sub ||
  match s with
  | EmptyString => false
  | String _ t => includes t sub
  end.

(** [s.endsWith(p)] for a one-character [p]. *)
Fixpoint endsWithChar (s : string) (c : ascii) : bool :=
  match s with
  | EmptyString => false
  | String a EmptyString => Ascii.eqb a c
  | String _ t => endsWithChar t c
  end.

Fixpoint dropWhile (p : ascii -> bool) (s : string) : string :=
  match s with
  | EmptyString => EmptyString
  | String c t => if p c then dropWhile p t else s
  end.

Fixpoint takeWhile (p : ascii -> bool) (s : string) : string :=
  match s with
  | EmptyString => EmptyString
  | String c t => if p c then String c (takeWhile p t) else EmptyString
  end.

Fixpoint rev_onto (s acc : string) : string :=
  match s with
  | EmptyString => acc
  | String c t => rev_onto t (String c acc)
  end.

Definition reverse (s : string) : string := rev_onto s EmptyString.

(** [s.trim()] *)
Definition trim (s : string) : string :=
  reverse (dropWhile is_space (reverse (dropWhile is_space s))).

(** [parts.join(sep)] *)
Fixpoint join (sep : string) (parts : list string) : string :=
  match parts with
  | [] => ""
  | [p] => p
  | p :: rest => p +:+ sep +:+ join sep rest
  end.

(** ** Object literals used as tables *)

(** The properties a plain object inherits from [Object.prototype]. *)
Definition object_prototype_keys : list string :=
  [ "constructor"; "__proto__"; "__defineGetter__"; "__defineSetter__";
    "__lookupGetter__"; "__lookupSetter__"; "hasOwnProperty";
    "isPrototypeOf"; "propertyIsEnumerable"; "toLocaleString";
    "toString"; "valueOf" ].

(** What [table[key]] evaluates to. An inherited property is a function
    or an object: truthy, but neither an array nor iterable. *)
Inductive Lookup (A : Type) : Type :=
| Own (a : A)
| Inherited
| Undefined.
Arguments Own {A} a.
Arguments Inherited {A}.
Arguments Undefined {A}.

Fixpoint own {A} (table : list (string * A)) (key : string) : option A :=
  match table with
  | [] => None
  | (k, v) :: rest => if String.eqb k key then Some v else own rest key
  end.

Definition js_get {A} (table : list (string * A)) (key : string) : Lookup A :=
  match own table key with
  | Some v => Own v
  | None =>
      if existsb (String.eqb key) object_prototype_keys then Inherited
      else Undefined
  end.

End JS.

Import JS.

(* ===================================================================== *)
(** * utils/safetyChecker.js: food, age and dosage rule tables *)
(* ===================================================================== *)

Module SafetyChecker.

Record FoodRule : Type := mkFoodRule {
  rule_avoid : list string;
  rule_reason : option string;
  rule_timing : option string;
  rule_note : option string
}.

Definition FOOD_INTERACTIONS : list (string * FoodRule) :=
  [ ("warfarin", mkFoodRule ["vitamin K-rich foods (spinach, kale)"; "alcohol"; "cranberry juice"] (Some "Can interfere with blood thinning") None None);
    ("lisinopril", mkFoodRule ["potassium supplements"; "bananas"; "salt substitutes"] (Some "Can cause high potassium levels") None None);
    ("amlodipine", mkFoodRule ["grapefruit juice"] (Some "Increases drug levels and side effects") None None);
    ("atorvastatin", mkFoodRule ["grapefruit juice"; "large amounts of alcohol"] (Some "Can increase side effects and liver damage") None None);
    ("simvastatin", mkFoodRule ["grapefruit juice"] (Some "Increases drug levels and muscle problems") None None);
    ("ciprofloxacin", mkFoodRule ["dairy products"; "calcium supplements"] (Some "Reduces medication absorption") (Some "Take 2 hours before or after dairy") None);
    ("azithromycin", mkFoodRule ["aluminum/magnesium antacids"] (Some "Reduces absorption") None None);
    ("metronidazole", mkFoodRule ["alcohol"] (Some "Causes severe nausea and vomiting") None None);
    ("metformin", mkFoodRule ["excessive alcohol"] (Some "Increases risk of low blood sugar and lactic acidosis") None None);
    ("ibuprofen", mkFoodRule ["alcohol"] (Some "Increases stomach bleeding risk") None None);
    ("aspirin", mkFoodRule ["alcohol"; "other NSAIDs"] (Some "Increases bleeding risk") None None);
    ("omeprazole", mkFoodRule ["none"] None None (Some "Take before meals for best effect"));
    ("levothyroxine", mkFoodRule ["coffee"; "soy"; "calcium"; "iron"] (Some "Reduces absorption") (Some "Take on empty stomach, 30 min before eating") None) ].

Record AgeRule : Type := mkAgeRule {
  rule_warning : string;
  rule_alternatives : option string;
  rule_age_note : option string
}.

Definition AGE_WARNINGS_elderly : list (string * AgeRule) :=
  [ ("benzodiazepines", mkAgeRule "Increased fall risk and confusion in elderly" (Some "Discuss non-drug options with doctor") None);
    ("diphenhydramine", mkAgeRule "Can cause confusion and dizziness in seniors" (Some "Consider non-drowsy alternatives") None);
    ("aspirin", mkAgeRule "Higher bleeding risk in elderly" None (Some "Monitor for bruising or bleeding"));
    ("nsaids", mkAgeRule "Increased stomach and kidney problems" None (Some "Use lowest effective dose"));
    ("anticholinergics", mkAgeRule "Can cause memory problems and confusion" None (Some "Regular monitoring recommended")) ].

Definition AGE_WARNINGS_pediatric : list (string * AgeRule) :=
  [ ("aspirin", mkAgeRule "Risk of Reye syndrome in children" (Some "Use acetaminophen or ibuprofen instead") None);
    ("tetracycline", mkAgeRule "Can cause permanent tooth discoloration" None (Some "Avoid in children under 8"));
    ("fluoroquinolones", mkAgeRule "May affect bone and cartilage development" None (Some "Use only when no alternatives")) ].

Record DoseRule : Type := mkDoseRule {
  minDose : option Z;
  maxDaily : option Z;
  rule_alert : string;
  rule_dose_note : string
}.

Definition DOSAGE_ALERTS : list (string * list DoseRule) :=
  [ ("aspirin", [mkDoseRule (Some 325%Z) None "High dose aspirin increases bleeding risk" "Monitor for bruising, black stools"]);
    ("acetaminophen", [mkDoseRule None (Some 4000%Z) "DO NOT exceed 4000mg per day" "Can cause liver damage"]);
    ("ibuprofen", [mkDoseRule None (Some 2400%Z) "DO NOT exceed 2400mg per day" "Higher doses increase stomach and heart risks"]) ].

(** The report of [checkFoodInteractions]: [hasFoodInteraction] followed
    by the spread of the table entry. *)
Record FoodReport : Type := mkFoodReport {
  hasFoodInteraction : bool;
  avoid : option (list string);
  reason : option string;
  timing : option string;
  food_note : option string
}.

Definition food_hit (r : FoodRule) : FoodReport :=
  {| hasFoodInteraction := true;
     avoid := Some (rule_avoid r);
     reason := rule_reason r;
     timing := rule_timing r;
     food_note := rule_note r |}.

(** [{ hasFoodInteraction: true, ...v }] for an inherited [v], which has
    no enumerable property of its own to copy. *)
Definition food_hit_bare : FoodReport :=
  {| hasFoodInteraction := true; avoid := None; reason := None;
     timing := None; food_note := None |}.

Definition food_miss : FoodReport :=
  {| hasFoodInteraction := false; avoid := None; reason := None;
     timing := None; food_note := None |}.

(** The [for ... of Object.entries(FOOD_INTERACTIONS)] loop: the first
    key contained in the name. *)
Fixpoint first_contained (normalizedName : string)
    (entries : list (string * FoodRule)) : option FoodRule :=
  match entries with
  | [] => None
  | (key, value) :: rest =>
      if includes normalizedName key then Some value
      else first_contained normalizedName rest
  end.

Definition checkFoodInteractions (drugName : string) : FoodReport :=
  let normalizedName := trim (toLowerCase drugName) in
  match js_get FOOD_INTERACTIONS normalizedName with
  | Own v => food_hit v
  | Inherited => food_hit_bare
  | Undefined =>
      match first_contained normalizedName FOOD_INTERACTIONS with
      | Some value => food_hit value
      | None => food_miss
      end
  end.

Record AgeWarning : Type := mkAgeWarning {
  category : string;
  age_severity : string;
  warning : string;
  alternatives : option string;
  age_note : option string
}.

(** One [for ... of Object.entries(table)] loop of [checkAgeWarnings]. *)
Definition age_hits (cat sev : string) (normalizedName : string)
    (table : list (string * AgeRule)) : list AgeWarning :=
  flat_map
    (fun '(drug, w) =>
       if includes normalizedName drug then
         [ {| category := cat; age_severity := sev;
              warning := rule_warning w;
              alternatives := rule_alternatives w;
              age_note := rule_age_note w |} ]
       else [])
    table.

Definition checkAgeWarnings (drugName : string) (patientAge : Z) : list AgeWarning :=
  let normalizedName := trim (toLowerCase drugName) in
  (if (65 <=? patientAge)%Z
   then age_hits "elderly" "moderate" normalizedName AGE_WARNINGS_elderly
   else []) ++
  (if (patientAge <? 18)%Z
   then age_hits "pediatric" "high" normalizedName AGE_WARNINGS_pediatric
   else []).

(** [dosageString.match(/(\d+)\s*mg/i)], returning the captured digits.
    At a given start the match succeeds exactly when the whole run of
    digits, then the whole run of white space, is followed by "mg";
    giving back digits or spaces cannot help. *)
Fixpoint match_mg (s : string) : option string :=
  match s with
  | EmptyString => None
  | String c t =>
      if is_digit c &&
         startsWith (toLowerCase (dropWhile is_space (dropWhile is_digit s))) "mg"
      then Some (takeWhile is_digit s)
      else match_mg t
  end.

(** [parseInt] on a string of decimal digits. *)
Definition parseInt (digits : string) : Z :=
  let fix go (s : string) (acc : Z) : Z :=
    match s with
    | EmptyString => acc
    | String c t => go t (10 * acc + (Z.of_N (code c) - 48))%Z
    end
  in go digits 0%Z.

Record DoseAlert : Type := mkDoseAlert {
  dose_severity : string;
  alert : string;
  dose_note : string
}.

(** [rule.minDose && dose >= rule.minDose]: a missing or zero bound is
    falsy. *)
Definition bound_reached (bound : option Z) (test : Z -> bool) : bool :=
  match bound with
  | Some b => negb (b =? 0)%Z && test b
  | None => false
  end.

Definition rule_alerts (dose : Z) (rule : DoseRule) : list DoseAlert :=
  (if bound_reached (minDose rule) (fun b => (b <=? dose)%Z)
   then [ {| dose_severity := "high"; alert := rule_alert rule;
             dose_note := rule_dose_note rule |} ]
   else []) ++
  (if bound_reached (maxDaily rule) (fun b => (b <? dose)%Z)
   then [ {| dose_severity := "critical"; alert := rule_alert rule;
             dose_note := rule_dose_note rule |} ]
   else []).

Definition checkDosageAlerts (drugName dosageString : string) : Result (list DoseAlert) :=
  let normalizedName := trim (toLowerCase drugName) in
  match match_mg dosageString with
  | None => Ok []
  | Some digits =>
      let dose := parseInt digits in
      match js_get DOSAGE_ALERTS normalizedName with
      | Own rules => Ok (flat_map (rule_alerts dose) rules)
      | Inherited => Throw TypeError      (* [.forEach] is not a function *)
      | Undefined => Ok []
      end
  end.

Record SafetyReport : Type := mkSafetyReport {
  report_drugName : string;
  foodInteractions : FoodReport;
  ageWarnings : list AgeWarning;
  dosageAlerts : list DoseAlert;
  overallSeverity : string
}.

(** [comprehensiveSafetyCheck(drugName, dosage, patientAge, currentMeds)].
    A missing or zero age and a missing or empty dosage are falsy. *)
Definition comprehensiveSafetyCheck (drugName : string) (dosage : option string)
    (patientAge : option Z) (currentMeds : list string) : Result SafetyReport :=
  let food := checkFoodInteractions drugName in
  let ages :=
    match patientAge with
    | Some a => if (a =? 0)%Z then [] else checkAgeWarnings drugName a
    | None => []
    end in
  doses ← (if truthy dosage
           then checkDosageAlerts drugName (or_else dosage "")
           else Ok []);
  let hasHighSeverity :=
    existsb (fun w => String.eqb (age_severity w) "high") ages ||
    existsb (fun a => String.eqb (dose_severity a) "high" ||
                      String.eqb (dose_severity a) "critical") doses in
  Ok {| report_drugName := drugName;
        foodInteractions := food;
        ageWarnings := ages;
        dosageAlerts := doses;
        overallSeverity :=
          if hasHighSeverity then "high"
          else if hasFoodInteraction food || negb (Nat.eqb (length ages) 0)
               then "moderate"
               else "low" |}.

End SafetyChecker.

(* ===================================================================== *)
(** * services/drugService.js: name validation, interactions, safety flag *)
(* ===================================================================== *)

Module DrugService.

(** ** Edit distance *)

(** [matrix[0]] once the two initialising loops have run: [0 .. len2]. *)
Definition first_row (len2 : nat) : list nat := seq 0 (S len2).

(** Cells [j ..] of row [i], given cells [j-1 ..] of row [i-1] in [prev]
    and cell [j-1] of row [i] in [left]; [c1] is [str1[i-1]] and [str2]
    holds the characters from [str2[j-1]] on. *)
Fixpoint fill_row (c1 : ascii) (str2 : string) (prev : list nat) (left : nat) : list nat :=
  match str2, prev with
  | String c2 rest, diag :: ((up :: _) as prev') =>
      let cost := if Ascii.eqb c1 c2 then 0 else 1 in
      let cell := Nat.min (Nat.min (up + 1) (left + 1)) (diag + cost) in
      cell :: fill_row c1 rest prev' cell
  | _, _ => []
  end.

(** Row [i], which starts with [matrix[i] = [i]]. *)
Definition next_row (c1 : ascii) (str2 : string) (prev : list nat) (i : nat) : list nat :=
  i :: fill_row c1 str2 prev i.

(** The outer loop, from row [i] (held in [prev]) to the last row. *)
Fixpoint last_row (str1 str2 : string) (prev : list nat) (i : nat) : list nat :=
  match str1 with
  | EmptyString => prev
  | String c1 rest => last_row rest str2 (next_row c1 str2 prev (S i)) (S i)
  end.

(** [levenshteinDistance(str1, str2)], that is [matrix[len1][len2]]. *)
Definition levenshteinDistance (str1 str2 : string) : nat :=
  List.last (last_row str1 str2 (first_row (String.length str2)) 0) 0.

(** ** The terminology and interaction services (RxNorm)

    Each field is one HTTP endpoint: the request either rejects or
    yields the part of the reply that the code reads. *)

Record Concept : Type := mkConcept {
  concept_rxcui : option string;
  concept_name : option string;
  concept_synonym : option string;
  concept_tty : option string
}.

(** An element of [approximateGroup.candidate]: a bare string, or an
    object whose [name] and [rxcui] may be missing. *)
Inductive Candidate : Type :=
| CandString (s : string)
| CandObject (name : option string) (rxcui : option string).

Record InteractionPair : Type := mkPair {
  (** [interactionConcept], each entry reduced to [minConceptItem?.name] *)
  interactionConcept : option (list (option string));
  pair_severity : option string;
  pair_description : option string
}.

Record Terminology : Type := mkTerminology {
  (** [/drugs.json]: [drugGroup.conceptGroup], each group reduced to its
      [conceptProperties] *)
  drugs_json : string -> Result (option (list (option (list Concept))));
  (** [/approximateTerm.json]: [approximateGroup.candidate] *)
  approximateTerm_json : string -> Result (option (list Candidate));
  (** [/rxcui.json]: [idGroup.rxnormId] *)
  rxcui_json : string -> Result (option (list string));
  (** [/interaction/interaction.json]: [interactionTypeGroup], each group
      reduced to its [interactionType], each type to its
      [interactionPair] *)
  interaction_json :
    string -> Result (option (list (option (list (option (list InteractionPair))))));
  (** [/interaction/list.json]: [fullInteractionTypeGroup], likewise *)
  interaction_list_json :
    list string -> Result (option (list (option (list (option (list InteractionPair))))))
}.

(** ** Name validation *)

Definition CLARIFICATION_NEEDED : string := "CLARIFICATION_NEEDED".

Record LookupResult : Type := mkLookup {
  found : bool;
  concepts : option (list Concept)
}.

(** [lookupDrug(drugName)]; its own [catch] turns a failed request into
    "not found". *)
Definition lookupDrug (svc : Terminology) (drugName : string) : LookupResult :=
  match drugs_json svc drugName with
  | Throw _ => {| found := false; concepts := None |}
  | Ok None => {| found := false; concepts := None |}
  | Ok (Some conceptGroup) =>
      {| found := true;
         concepts :=
           Some (flat_map (fun cg => match cg with Some props => props | None => [] end)
                          conceptGroup) |}
  end.

Record NameValidation : Type := mkValidation {
  valid : bool;
  originalName : option string;
  correctedName : option string;
  confidence : float;
  validation_rxcui : option string;
  wasCorrected : bool;
  suggestions : option (list string)
}.

(** The two returns that carry no suggestions: the guard on entry and the
    [catch]. *)
Definition rejected (drugName : option string) : NameValidation :=
  {| valid := false; originalName := drugName; correctedName := None;
     confidence := 0; validation_rxcui := None; wasCorrected := false;
     suggestions := None |}.

Record BestMatch : Type := mkBest {
  best_name : string;
  best_rxcui : option string;
  best_confidence : float
}.

(** [candidate.name || candidate], kept only when it is a non-empty
    string. *)
Definition candidateName (candidate : Candidate) : option string :=
  match candidate with
  | CandString s => if String.eqb s "" then None else Some s
  | CandObject name _ => if truthy name then name else None
  end.

(** [candidate.rxcui || null] *)
Definition candidateRxcui (candidate : Candidate) : option string :=
  match candidate with
  | CandString _ => None
  | CandObject _ rxcui => if truthy rxcui then rxcui else None
  end.

Definition distance (drugName name : string) : nat :=
  levenshteinDistance (toLowerCase drugName) (toLowerCase name).

Definition similarity (drugName name : string) : float :=
  (1 - number (distance drugName name) /
       number (Nat.max (String.length drugName) (String.length name)))%float.

(** [distance < bestScore], where [bestScore] starts at [Infinity]. *)
Definition below (d : nat) (bestScore : option nat) : bool :=
  match bestScore with
  | None => true
  | Some b => Nat.ltb d b
  end.

(** One iteration of [for (const candidate of candidates)], on the pair
    [(bestMatch, bestScore)]. *)
Definition scan_step (drugName : string)
    (st : option BestMatch * option nat) (candidate : Candidate)
    : option BestMatch * option nat :=
  match candidateName candidate with
  | None => st
  | Some name =>
      let d := distance drugName name in
      let sim := similarity drugName name in
      if below d (snd st) && (0.6 <? sim)%float then
        (Some {| best_name := name;
                 best_rxcui := candidateRxcui candidate;
                 best_confidence := sim |},
         Some d)
      else st
  end.

Definition scan (drugName : string) (candidates : list Candidate) : option BestMatch :=
  fst (fold_left (scan_step drugName) candidates (None, None)).

(** [candidates.slice(0, 3).map(c => typeof c === 'string' ? c : c.name).filter(Boolean)] *)
Definition suggestions_of (candidates : list Candidate) : list string :=
  flat_map
    (fun c =>
       match c with
       | CandString s => if String.eqb s "" then [] else [s]
       | CandObject name _ => if truthy name then [or_else name ""] else []
       end)
    (firstn 3 candidates).

Definition validateAndNormalizeDrugName (svc : Terminology)
    (drugName : option string) : NameValidation :=
  match drugName with
  | None => rejected drugName
  | Some name =>
      if String.eqb name "" || String.eqb name CLARIFICATION_NEEDED then
        rejected drugName
      else
        let exactMatch := lookupDrug svc name in
        match found exactMatch, concepts exactMatch with
        | true, Some (first :: _) =>
            {| valid := true; originalName := drugName;
               correctedName := concept_name first;
               confidence := 1;
               validation_rxcui := concept_rxcui first;
               wasCorrected := false; suggestions := None |}
        | _, _ =>
            match approximateTerm_json svc name with
            | Throw _ => rejected drugName
            | Ok candidates =>
                let bestMatch :=
                  match candidates with
                  | Some cs => scan name cs
                  | None => None
                  end in
                match bestMatch with
                | Some best =>
                    {| valid := true; originalName := drugName;
                       correctedName := Some (best_name best);
                       confidence := best_confidence best;
                       validation_rxcui := best_rxcui best;
                       wasCorrected := true; suggestions := None |}
                | None =>
                    {| valid := false; originalName := drugName;
                       correctedName := None; confidence := 0;
                       validation_rxcui := None; wasCorrected := false;
                       suggestions :=
                         Some (match candidates with
                               | Some cs => suggestions_of cs
                               | None => []
                               end) |}
                end
            end
        end
  end.

(** ** Interactions *)

(** An interaction finding, as pushed onto [interactions]. *)
Record Finding : Type := mkFinding {
  tier : Z;
  drug : string;
  description : string;
  severity : option string;
  recommendation : string
}.

Inductive Flag : Type := RED | YELLOW | GREEN.

Record SafetyVerdict : Type := mkVerdict {
  flag : Flag;
  reasoning : string
}.

(** [interactions.some(i => i.tier === n)] *)
Definition some_tier (n : Z) (interactions : list Finding) : bool :=
  existsb (fun i => (tier i =? n)%Z) interactions.

(** [determineSafetyFlag(interactions)]. The argument is an array at every
    call site; the [!interactions] guard shares the branch of the empty
    array. *)
Definition determineSafetyFlag (interactions : list Finding) : SafetyVerdict :=
  match interactions with
  | [] =>
      {| flag := GREEN;
         reasoning := "No drug interactions detected. Safe to proceed with prescribed dosage." |}
  | _ :: _ =>
      let hasCritical := some_tier 1 interactions in
      let hasModerate := some_tier 2 interactions in
      if hasCritical then
        {| flag := RED;
           reasoning := "Critical drug interaction detected. Immediate physician consultation required before starting this medication." |}
      else if hasModerate then
        {| flag := YELLOW;
           reasoning := "Moderate interactions found. Monitor closely and follow up with your doctor within 7 days." |}
      else
        {| flag := GREEN;
           reasoning := "Only minor dietary interactions found. Safe to proceed with normal precautions." |}
  end.

(** Severity order of the flags, for comparing verdicts. *)
Definition flag_rank (f : Flag) : nat :=
  match f with GREEN => 0 | YELLOW => 1 | RED => 2 end.

Definition getRecommendation (tier : Z) : string :=
  if (tier =? 1)%Z then "STOP — Contact your physician immediately before taking this medication."
  else if (tier =? 2)%Z then "Schedule a follow-up with your doctor within 7 days. Monitor for side effects."
  else "Be aware of this interaction. Adjust diet as recommended.".

Definition dietaryMap : list (string * list Finding) :=
  [ ("amlodipine", [mkFinding 3 "Grapefruit" "Grapefruit may increase blood levels of amlodipine, increasing the risk of side effects." None "Avoid grapefruit juice while on this medication."]);
    ("atorvastatin", [mkFinding 3 "Grapefruit" "Grapefruit can increase statin levels in the blood." None "Limit grapefruit consumption to small amounts."]);
    ("warfarin", [mkFinding 2 "Vitamin K foods" "Foods high in Vitamin K (spinach, kale) can reduce warfarin effectiveness." None "Keep vitamin K intake consistent day to day."]);
    ("metformin", [mkFinding 3 "Alcohol" "Alcohol increases the risk of lactic acidosis with metformin." None "Limit alcohol consumption."]);
    ("lisinopril", [mkFinding 3 "Potassium-rich foods" "Lisinopril can increase potassium. Avoid excess bananas, oranges, salt substitutes." None "Do not take potassium supplements without doctor advice."]);
    ("ciprofloxacin", [mkFinding 3 "Dairy products" "Calcium in dairy can reduce ciprofloxacin absorption." None "Take 2 hours before or 6 hours after dairy products."]) ].

(** [getDietaryInteractions(drugName)], that is [dietaryMap[key] || []]:
    an inherited property is truthy and is returned as it is. *)
Definition getDietaryInteractions (drugName : string) : Lookup (list Finding) :=
  let key := toLowerCase drugName in
  match js_get dietaryMap key with
  | Own l => Own l
  | Inherited => Inherited
  | Undefined => Own []
  end.

(** [...x] inside [interactions.push(...)]: only an array can be spread. *)
Definition spread {A} (x : Lookup (list A)) : Result (list A) :=
  match x with
  | Own l => Ok l
  | Inherited => Throw TypeError
  | Undefined => Throw TypeError
  end.

Definition knownInteractions : list (string * list string) :=
  [ ("warfarin", ["aspirin"; "ibuprofen"; "naproxen"]);
    ("metformin", ["alcohol"; "contrast dye"]);
    ("lisinopril", ["potassium supplements"; "spironolactone"]);
    ("sertraline", ["tramadol"; "sumatriptan"; "maoi"]) ].

(** [list.includes(x)] on an array of strings *)
Definition array_includes (l : list string) (x : string) : bool :=
  existsb (String.eqb x) l.

Definition known_finding (drugName med : string) : Finding :=
  {| tier := 1;
     drug := med;
     description := "Known interaction between " +:+ drugName +:+ " and " +:+ med +:+
                    ". This combination may be dangerous.";
     severity := None;
     recommendation := "Contact your physician immediately before taking both medications." |}.

(** [getFallbackInteractions(drugName, currentMeds)]. With an inherited
    [knownInteractions[key]] the [if] is entered and the first iteration
    calls [.includes] on something that has no such method. *)
Definition getFallbackInteractions (drugName : string) (currentMeds : list string)
    : Result (list Finding) :=
  let key := toLowerCase drugName in
  known ← match js_get knownInteractions key with
          | Own partners =>
              Ok (flat_map
                    (fun med =>
                       if array_includes partners (toLowerCase med)
                       then [known_finding drugName med] else [])
                    currentMeds)
          | Inherited =>
              match currentMeds with
              | [] => Ok []
              | _ :: _ => Throw TypeError
              end
          | Undefined => Ok []
          end;
  dietary ← spread (getDietaryInteractions drugName);
  Ok (known ++ dietary).

(** [getRxCUI(drugName)]; its own [catch] returns [null]. *)
Definition getRxCUI (svc : Terminology) (drugName : string) : option string :=
  match rxcui_json svc drugName with
  | Ok (Some (id :: _)) => Some id
  | _ => None
  end.

(** [pair.interactionConcept?.map(c => c.minConceptItem?.name).join(' + ')];
    [join] prints a missing name as the empty string. *)
Definition interacting (pair : InteractionPair) : option string :=
  match interactionConcept pair with
  | Some names => Some (join " + " (map (fun n => match n with Some s => s | None => "" end) names))
  | None => None
  end.

Definition pair_tier (pair : InteractionPair) : Z :=
  let sev := or_else (pair_severity pair) "N/A" in
  if String.eqb sev "high" ||
     match pair_description pair with
     | Some d => includes (toLowerCase d) "life-threatening"
     | None => false
     end
  then 1
  else if String.eqb sev "moderate" || String.eqb sev "medium" then 2
  else 3.

Definition pair_finding (drugName : string) (pair : InteractionPair) : Finding :=
  let sev := or_else (pair_severity pair) "N/A" in
  let t := pair_tier pair in
  {| tier := t;
     drug := or_else (interacting pair) drugName;
     description := or_else (pair_description pair) "Interaction detected";
     severity := Some sev;
     recommendation := getRecommendation t |}.

Definition list_finding (pair : InteractionPair) : Finding :=
  {| tier := 2;
     drug := or_else (interacting pair) "Unknown";
     description := or_else (pair_description pair) "Interaction with current medication";
     severity := None;
     recommendation := "Consult your physician about this combination." |}.

(** The three nested [for ... of] loops over groups, types ([x || []])
    and pairs ([x || []]). *)
Definition all_pairs (groups : option (list (option (list (option (list InteractionPair))))))
    : list InteractionPair :=
  match groups with
  | None => []
  | Some gs =>
      flat_map
        (fun group =>
           flat_map (fun type => match type with Some ps => ps | None => [] end)
                    (match group with Some ts => ts | None => [] end))
        gs
  end.

(** The identifiers of the current medications that have one. *)
Definition med_rxcuis (svc : Terminology) (currentMeds : list string) : list string :=
  flat_map
    (fun med =>
       let medRxcui := getRxCUI svc med in
       if truthy medRxcui then [or_else medRxcui ""] else [])
    currentMeds.

(** The body of the [try] block of [checkInteractions]. *)
Definition checkInteractions_try (svc : Terminology) (drugName : string)
    (currentMeds : list string) : Result (list Finding) :=
  let rxcui := getRxCUI svc drugName in
  if negb (truthy rxcui) then getFallbackInteractions drugName currentMeds
  else
    let id := or_else rxcui "" in
    groups ← interaction_json svc id;
    let direct := map (pair_finding drugName) (all_pairs groups) in
    withMeds ←
      match currentMeds with
      | [] => Ok []
      | _ :: _ =>
          let allRxcuis := id :: med_rxcuis svc currentMeds in
          if Nat.ltb 1 (length allRxcuis) then
            fullInteractions ← interaction_list_json svc allRxcuis;
            Ok (map list_finding (all_pairs fullInteractions))
          else Ok []
      end;
    dietary ← spread (getDietaryInteractions drugName);
    Ok (direct ++ withMeds ++ dietary).

(** [checkInteractions(drugName, currentMeds)]: whatever the [try] block
    throws is answered from the fallback table. *)
Definition checkInteractions (svc : Terminology) (drugName : string)
    (currentMeds : list string) : Result (list Finding) :=
  try_catch (checkInteractions_try svc drugName currentMeds)
            (fun _ => getFallbackInteractions drugName currentMeds).

(** ** Enhanced safety *)

Definition getEnhancedSafetyInfo (drugName : string) (dosage : option string)
    (patientAge : option Z) (currentMeds : list string)
    : Result SafetyChecker.SafetyReport :=
  SafetyChecker.comprehensiveSafetyCheck drugName dosage patientAge currentMeds.

(** A template literal prints a missing value as "undefined". *)
Definition interpolate (o : option string) : string :=
  match o with Some s => s | None => "undefined" end.

Definition food_lines (fi : SafetyChecker.FoodReport) : Result (list string) :=
  if SafetyChecker.hasFoodInteraction fi then
    match SafetyChecker.avoid fi with
    | None => Throw TypeError      (* [fi.avoid.join] on undefined *)
    | Some av =>
        Ok (("⚠️ FOOD WARNING: Avoid " +:+ join ", " av +:+ ". " +:+
             interpolate (SafetyChecker.reason fi) +:+ ".") ::
            (if truthy (SafetyChecker.timing fi)
             then ["⏰ TIMING: " +:+ or_else (SafetyChecker.timing fi) ""]
             else []))
    end
  else Ok [].

Definition age_lines (w : SafetyChecker.AgeWarning) : list string :=
  ("👵 AGE WARNING: " +:+ SafetyChecker.warning w) ::
  (if truthy (SafetyChecker.age_note w)
   then ["   Note: " +:+ or_else (SafetyChecker.age_note w) ""] else []) ++
  (if truthy (SafetyChecker.alternatives w)
   then ["   " +:+ or_else (SafetyChecker.alternatives w) ""] else []).

Definition dose_lines (a : SafetyChecker.DoseAlert) : list string :=
  ("💊 DOSAGE ALERT: " +:+ SafetyChecker.alert a) ::
  (if String.eqb (SafetyChecker.dose_note a) "" then []
   else ["   " +:+ SafetyChecker.dose_note a]).

Definition newline : string := String (ascii_of_N 10) EmptyString.

Definition generateSafetyWarningText (safetyReport : SafetyChecker.SafetyReport)
    : Result string :=
  food ← food_lines (SafetyChecker.foodInteractions safetyReport);
  Ok (join newline
        (food ++
         flat_map age_lines (SafetyChecker.ageWarnings safetyReport) ++
         flat_map dose_lines (SafetyChecker.dosageAlerts safetyReport))).

End DrugService.

(* ===================================================================== *)
(** * utils/readability.js: grade level, jargon, simplification *)
(* ===================================================================== *)

Module Readability.

(** [s.split(/X+/)] for a character class [X]: the pieces between the
    maximal runs of separators, empty pieces at the ends included.
    [in_run] tells that the previous character was a separator. *)
Fixpoint split_runs (sep : ascii -> bool) (in_run : bool) (s : string) : list string :=
  match s with
  | EmptyString => [EmptyString]
  | String c t =>
      if sep c then
        if in_run then split_runs sep true t
        else EmptyString :: split_runs sep true t
      else
        match split_runs sep false t with
        | piece :: rest => String c piece :: rest
        | [] => [String c EmptyString]
        end
  end.

(** [s.replace(/\s+/g, ' ')] *)
Fixpoint collapse_spaces (in_run : bool) (s : string) : string :=
  match s with
  | EmptyString => EmptyString
  | String c t =>
      if is_space c then
        if in_run then collapse_spaces true t
        else String " "%char (collapse_spaces true t)
      else String c (collapse_spaces false t)
  end.

(** [s.replace(/[^a-z]/g, '')] *)
Fixpoint keep_lower (s : string) : string :=
  match s with
  | EmptyString => EmptyString
  | String c t => if is_lower c then String c (keep_lower t) else keep_lower t
  end.

Definition is_vowel (c : ascii) : bool :=
  existsb (Ascii.eqb c) ["a"; "e"; "i"; "o"; "u"; "y"]%char.

(** The number of matches of [/[aeiouy]+/g]: maximal runs of vowels. *)
Fixpoint vowel_groups (in_run : bool) (s : string) : nat :=
  match s with
  | EmptyString => 0
  | String c t =>
      if is_vowel c then (if in_run then 0 else 1) + vowel_groups true t
      else vowel_groups false t
  end.

Definition countSyllables (word : string) : nat :=
  let word := keep_lower (toLowerCase word) in
  if Nat.leb (String.length word) 3 then 1
  else
    let groups := vowel_groups false word in
    (** [vowels ? vowels.length : 1]: [match] yields [null] without a
        match *)
    let count := if Nat.eqb groups 0 then 1 else groups in
    (** [count--] may reach zero; [Math.max(1, count)] restores one *)
    let count := if endsWithChar word "e" then Nat.pred count else count in
    Nat.max 1 count.

Definition is_terminator (c : ascii) : bool :=
  existsb (Ascii.eqb c) ["."; "!"; "?"]%char.

Definition nonblank (s : string) : bool :=
  negb (Nat.eqb (String.length (trim s)) 0).

(** [n || 1] *)
Definition at_least_one (n : nat) : nat := if Nat.eqb n 0 then 1 else n.

(** [calculateFleschKincaid(text)] *)
Definition calculateFleschKincaid (text : string) : float :=
  if Nat.eqb (String.length (trim text)) 0 then 0
  else
    let cleanText := collapse_spaces false (trim text) in
    let sentences := List.filter nonblank (split_runs is_terminator false cleanText) in
    let sentenceCount := at_least_one (length sentences) in
    let words :=
      List.filter (fun w => negb (Nat.eqb (String.length w) 0))
                  (split_runs is_space false cleanText) in
    let wordCount := at_least_one (length words) in
    let syllableCount := fold_left (fun acc w => acc + countSyllables w) words 0 in
    let gradeLevel :=
      (0.39 * (number wordCount / number sentenceCount) +
       11.8 * (number syllableCount / number wordCount) - 15.59)%float in
    (** [Math.max(0, gradeLevel)] *)
    if (0 <=? gradeLevel)%float then gradeLevel else 0.

Definition jargonWords : list string :=
  [ "contraindicated"; "comorbidity"; "efficacy"; "pharmacological";
    "therapeutic"; "administered"; "cardiovascular"; "hypertension";
    "hypotension"; "metabolize"; "bioavailability"; "prophylactic";
    "systemic"; "topical"; "subcutaneous"; "intravenous"; "titration";
    "renal"; "hepatic"; "gastrointestinal"; "prognosis"; "diagnosis";
    "adverse"; "reaction"; "contraindication"; "indication";
    "ventricular"; "remodeling"; "afterload"; "preload" ].

Definition detectMedicalJargon (text : string) : list string :=
  let lowerText := toLowerCase text in
  List.filter (fun word => includes lowerText word) jargonWords.

(** The part of [validatePlainLanguage(text)] that callers branch on.
    The rounded grade and the advice strings only reach the log. *)
Record PlainLanguage : Type := mkPlain {
  isPlain : bool;
  jargon : list string
}.

Definition validatePlainLanguage (text : string) : PlainLanguage :=
  let gradeLevel := calculateFleschKincaid text in
  let jargon := detectMedicalJargon text in
  {| isPlain := (gradeLevel <=? 8)%float && Nat.eqb (length jargon) 0;
     jargon := jargon |}.

Definition MEDICAL_TO_PLAIN : list (string * string) :=
  [ ("contraindicated", "should not be used");
    ("administered", "given");
    ("cardiovascular", "heart and blood vessels");
    ("hypertension", "high blood pressure");
    ("hypotension", "low blood pressure");
    ("gastrointestinal", "stomach and intestines");
    ("adverse reaction", "bad side effect");
    ("prophylactic", "preventive");
    ("subcutaneous", "under the skin");
    ("intravenous", "into a vein");
    ("therapeutic", "treatment");
    ("efficacy", "how well it works");
    ("comorbidity", "other health condition") ].

(** [s.replace(new RegExp(medical, 'gi'), plain)] for a term made of
    lower-case letters and spaces: every occurrence, found from left to
    right without overlap and whatever its case. [skip] counts the
    characters of the current occurrence still to pass over. *)
Fixpoint replace_gi (medical plain : string) (skip : nat) (s : string) : string :=
  match s with
  | EmptyString => EmptyString
  | String c t =>
      match skip with
      | S k => replace_gi medical plain k t
      | O =>
          if startsWith (toLowerCase s) medical
          then plain +:+ replace_gi medical plain (Nat.pred (String.length medical)) t
          else String c (replace_gi medical plain 0 t)
      end
  end.

(** [simplifyText(text)]: the terms of the table, one after the other. *)
Definition simplifyText (text : string) : string :=
  fold_left (fun simplified '(medical, plain) => replace_gi medical plain 0 simplified)
            MEDICAL_TO_PLAIN text.

End Readability.

(* ===================================================================== *)
(** * services/nudgeService.js: the patient-facing card *)
(* ===================================================================== *)

Module NudgeService.

(** One extracted medication, as the extraction backends return it and
    as the pipeline annotates it. *)
Record ExtractedData : Type := mkExtracted {
  drug_name : option string;
  dosage : option string;
  frequency : option string;
  dose_timing : option string;
  dosing_source : option string;
  duration : option string;
  route : option string;
  instructions : option string;
  name_confidence : option float
}.

Record PatientContext : Type := mkContext {
  patient_name : option string;
  age : option Z;
  language : option string;
  lifestyle : option string;
  concerns : option string
}.

(** The JSON object parsed from the completion. *)
Record CardJson : Type := mkCardJson {
  json_headline : option string;
  json_plain_instruction : option string;
  json_the_why : option string;
  json_habit_hook : option string;
  json_warning_label : option string
}.

Record Card : Type := mkCard {
  headline : string;
  plain_instruction : string;
  the_why : string;
  habit_hook : string;
  warning_label : string
}.

(** The generation backend: whether a key is configured, and what the
    completion for a prescription parses to; a rejected request and
    unparsable JSON both throw. *)
Record LanguageModel : Type := mkLLM {
  api_key_configured : bool;
  complete : ExtractedData -> PatientContext -> Result CardJson
}.

Definition interaction_label {A} (interactions : list A) : string :=
  match interactions with
  | [] => ""
  | _ :: _ => "May interact with other medications"
  end.

(** The minimal card: nothing but the extracted instructions. *)
Definition minimal_card {A} (extractedData : ExtractedData) (interactions : list A) : Card :=
  {| headline := or_else (instructions extractedData) "";
     plain_instruction := or_else (instructions extractedData) "";
     the_why := "";
     habit_hook := "";
     warning_label := interaction_label interactions |}.

(** [[a, b, c, d].filter(Boolean)] *)
Definition truthy_strings (l : list (option string)) : list string :=
  flat_map (fun o => if truthy o then [or_else o ""] else []) l.

(** The text the readability check is run on. *)
Definition fullText (json : CardJson) : string :=
  join " " (truthy_strings [ json_plain_instruction json; json_the_why json;
                             json_habit_hook json; json_headline json ]).

Definition generated_card {A} (json : CardJson) (interactions : list A) : Card :=
  {| headline := or_else (json_headline json) "";
     plain_instruction := or_else (json_plain_instruction json) "";
     the_why := or_else (json_the_why json) "";
     habit_hook := or_else (json_habit_hook json) "";
     warning_label := or_else (json_warning_label json) (interaction_label interactions) |}.

Definition placeholderHeadline : string :=
  "Simple instruction based on ACTUAL prescription".

(** The headline built from the verified fields. *)
Definition template_headline (extractedData : ExtractedData) : string :=
  let parts :=
    (if truthy (drug_name extractedData)
     then ["Taking " +:+ or_else (drug_name extractedData) ""] else []) ++
    (if truthy (dosage extractedData)
     then [or_else (dosage extractedData) ""] else []) ++
    (if truthy (frequency extractedData)
     then ["as " +:+ or_else (frequency extractedData) ""] else []) in
  match parts with
  | [] => "Follow this prescription as your doctor directed"
  | _ :: _ => join " " parts
  end.

(** The guard against an empty or echoed headline. *)
Definition guard_headline (extractedData : ExtractedData) (card : Card) : Card :=
  if String.eqb (headline card) "" ||
     String.eqb (trim (headline card)) placeholderHeadline
  then {| headline := template_headline extractedData;
          plain_instruction := plain_instruction card;
          the_why := the_why card;
          habit_hook := habit_hook card;
          warning_label := warning_label card |}
  else card.

(** The card rebuilt from the parsed fields, each one simplified. *)
Definition simplified_card {A} (json : CardJson) (interactions : list A) : Card :=
  {| headline := Readability.simplifyText (or_else (json_headline json) "");
     plain_instruction := Readability.simplifyText (or_else (json_plain_instruction json) "");
     the_why := Readability.simplifyText (or_else (json_the_why json) "");
     habit_hook := Readability.simplifyText (or_else (json_habit_hook json) "");
     warning_label :=
       Readability.simplifyText
         (or_else (json_warning_label json) (interaction_label interactions)) |}.

Definition generateCard {A} (llm : LanguageModel) (extractedData : ExtractedData)
    (patientContext : PatientContext) (interactions : list A) : Result Card :=
  if negb (truthy (drug_name extractedData)) ||
     String.eqb (or_else (drug_name extractedData) "") DrugService.CLARIFICATION_NEEDED
  then Throw BackendError
  else if negb (api_key_configured llm) then Ok (minimal_card extractedData interactions)
  else
    try_catch
      (json ← complete llm extractedData patientContext;
       let readability := Readability.validatePlainLanguage (fullText json) in
       let finalCard := guard_headline extractedData (generated_card json interactions) in
       if negb (Readability.isPlain readability)
       then Ok (simplified_card json interactions)
       else Ok finalCard)
      (fun _ => Ok (minimal_card extractedData interactions)).

End NudgeService.

(* ===================================================================== *)
(** * server.js: the extraction route and the nudge route *)
(* ===================================================================== *)

Module Server.
Import DrugService NudgeService.

(** 30 minutes, in milliseconds *)
Definition CACHE_TTL : Z := 30 * 60 * 1000.

Record FailedExtraction : Type := mkFailed {
  failure_reason : string;
  failure_originalName : option string;
  failure_suggestions : option (list string);
  failure_message : string;
  failure_extractedData : ExtractedData
}.

Record ProcessedMedication : Type := mkProcessed {
  extracted_data : ExtractedData;
  patient_facing_card : option Card;
  safety_flag : Flag;
  safety_reasoning : string;
  interactions : list Finding;
  enhanced_safety : SafetyChecker.SafetyReport
}.

(** [finalResult] *)
Record PipelineResult : Type := mkResult {
  medications : list ProcessedMedication;
  total_medications : nat;
  failedExtractions : option (list FailedExtraction);
  warnings : option string
}.

(** What an extraction backend returns. *)
Record VisionResult : Type := mkVision {
  vision_medications : option (list ExtractedData);
  vision_error : option string;
  vision_note : option string
}.

(** An entry of the in-memory [visionCache]. *)
Record CacheEntry : Type := mkEntry {
  data : PipelineResult;
  expiresAt : Z
}.

(** A row of the durable table [scan_sessions]. *)
Record ScanSession : Type := mkSession {
  image_hash : string;
  raw_vision_json : VisionResult;
  normalized_result : PipelineResult;
  expires_at : Z
}.

(** The two tiers. The durable tier is taken to be reachable: a select
    sees every row inserted before it. *)
Record State : Type := mkState {
  visionCache : gmap string CacheEntry;
  scan_sessions : list ScanSession
}.

(** What a request does to the caches and the extraction backends, in
    order. *)
Inductive Event : Type :=
| MemoryRead (imageHash : string)
| DurableRead (imageHash : string)
| MemoryWrite (imageHash : string)
| DurableWrite (imageHash : string)
| VisionCall
| OcrCall.

Definition event_eqb (a b : Event) : bool :=
  match a, b with
  | MemoryRead x, MemoryRead y => String.eqb x y
  | DurableRead x, DurableRead y => String.eqb x y
  | MemoryWrite x, MemoryWrite y => String.eqb x y
  | DurableWrite x, DurableWrite y => String.eqb x y
  | VisionCall, VisionCall => true
  | OcrCall, OcrCall => true
  | _, _ => false
  end.

(** The outcome of [llmService.extractFromImage]: a result, or an
    exception followed by the OCR route, which yields one medication or
    throws in turn. *)
Inductive VisionOutcome : Type :=
| VisionReturns (visionResult : VisionResult)
| VisionThrows (ocrRoute : Result ExtractedData).

(** The successive readings of [Date.now()] within one request. *)
Record Clock : Type := mkClock {
  at_memory_check : Z;
  at_durable_query : Z;
  at_memory_refill : Z;
  at_memory_store : Z;
  at_durable_store : Z
}.

Record Env : Type := mkEnv {
  terminology : Terminology;
  extraction : VisionOutcome;
  llm : LanguageModel;
  clock : Clock
}.

Record ProcessRequest : Type := mkRequest {
  (** the content of the uploaded image, when there is one *)
  file : option string;
  patientContext : PatientContext;
  currentMeds : list string;
  forceRefresh_field : option string
}.

Inductive Response : Type :=
| Success (finalResult : PipelineResult)
| Failure (status : Z) (error : string) (detail : option string)
          (failed : option (list FailedExtraction)) (advice : option string).

(** ** The loop over the extracted medications *)

Definition dquote : string := String (ascii_of_N 34) EmptyString.

Definition unclear_name (extractedData : ExtractedData) : FailedExtraction :=
  {| failure_reason := "unclear_name";
     failure_originalName := None;
     failure_suggestions := None;
     failure_message := "Could not read medication name clearly";
     failure_extractedData := extractedData |}.

Definition invalid_drug (extractedData : ExtractedData)
    (validation : NameValidation) : FailedExtraction :=
  {| failure_reason := "invalid_drug";
     failure_originalName := drug_name extractedData;
     failure_suggestions :=
       Some (match suggestions validation with Some l => l | None => [] end);
     failure_message :=
       dquote +:+ interpolate (drug_name extractedData) +:+ dquote +:+
       " is not a recognized medication";
     failure_extractedData := extractedData |}.

(** The name the extraction route keeps after validation. *)
Definition kept_name (validation : NameValidation) : option string :=
  if wasCorrected validation then
    if (0.85 <? confidence validation)%float
    then originalName validation
    else correctedName validation
  else originalName validation.

Definition rename (extractedData : ExtractedData) (name : option string)
    (conf : option float) : ExtractedData :=
  {| drug_name := name;
     dosage := dosage extractedData;
     frequency := frequency extractedData;
     dose_timing := dose_timing extractedData;
     dosing_source := dosing_source extractedData;
     duration := duration extractedData;
     route := route extractedData;
     instructions := instructions extractedData;
     name_confidence := conf |}.

(** A method called on a missing name throws. *)
Definition on_name {A} (name : option string) (k : string -> Result A) : Result A :=
  match name with
  | Some n => k n
  | None => Throw TypeError
  end.

Inductive Outcome : Type :=
| Processed (medication : ProcessedMedication)
| Rejected (failure : FailedExtraction).

(** One iteration of [for (const extractedData of visionResult.medications)]. *)
Definition process_candidate (svc : Terminology) (currentMeds : list string)
    (patientAge : option Z) (extractedData : ExtractedData) : Result Outcome :=
  if negb (truthy (drug_name extractedData)) ||
     String.eqb (or_else (drug_name extractedData) "") CLARIFICATION_NEEDED
  then Ok (Rejected (unclear_name extractedData))
  else
    let validation := validateAndNormalizeDrugName svc (drug_name extractedData) in
    if negb (valid validation) then Ok (Rejected (invalid_drug extractedData validation))
    else
      let extractedData :=
        rename extractedData (kept_name validation) (Some (confidence validation)) in
      interactions ← on_name (drug_name extractedData)
                       (fun n => checkInteractions svc n currentMeds);
      let safetyFlag := determineSafetyFlag interactions in
      enhancedSafety ← on_name (drug_name extractedData)
                         (fun n => getEnhancedSafetyInfo n (dosage extractedData)
                                                         patientAge currentMeds);
      Ok (Processed
            {| extracted_data := extractedData;
               patient_facing_card := None;
               safety_flag := flag safetyFlag;
               safety_reasoning := reasoning safetyFlag;
               interactions := interactions;
               enhanced_safety := enhancedSafety |}).

(** The three arrays the loop fills, and the medications as the loop
    leaves them (a processed one has been renamed in place). *)
Record Loop : Type := mkLoop {
  processedMedications : list ProcessedMedication;
  allInteractions : list Finding;
  failedList : list FailedExtraction;
  visited : list ExtractedData
}.

Definition loop_start : Loop :=
  {| processedMedications := []; allInteractions := [];
     failedList := []; visited := [] |}.

Definition record_outcome (extractedData : ExtractedData) (o : Outcome) (acc : Loop) : Loop :=
  match o with
  | Processed m =>
      {| processedMedications := processedMedications acc ++ [m];
         allInteractions := allInteractions acc ++ interactions m;
         failedList := failedList acc;
         visited := visited acc ++ [extracted_data m] |}
  | Rejected f =>
      {| processedMedications := processedMedications acc;
         allInteractions := allInteractions acc;
         failedList := failedList acc ++ [f];
         visited := visited acc ++ [extractedData] |}
  end.

Fixpoint process_candidates (svc : Terminology) (currentMeds : list string)
    (patientAge : option Z) (candidates : list ExtractedData) (acc : Loop)
    : Result Loop :=
  match candidates with
  | [] => Ok acc
  | extractedData :: rest =>
      o ← process_candidate svc currentMeds patientAge extractedData;
      process_candidates svc currentMeds patientAge rest
                         (record_outcome extractedData o acc)
  end.

(** [list.length > 0 ? list : undefined] *)
Definition if_any {A} (l : list A) : option (list A) :=
  match l with
  | [] => None
  | _ :: _ => Some l
  end.

Definition finalResult_of (loop : Loop) : PipelineResult :=
  {| medications := processedMedications loop;
     total_medications := length (processedMedications loop);
     failedExtractions := if_any (failedList loop);
     warnings :=
       match failedList loop with
       | [] => None
       | _ :: _ =>
           Some (pretty (length (failedList loop)) +:+
                 " medication(s) could not be processed. Please verify the extracted information.")
       end |}.

(** ** The cache *)

(** [.eq('image_hash', h).gt('expires_at', now).single()]: the row, when
    exactly one row matches. *)
Definition select_single (rows : list ScanSession) (imageHash : string) (now : Z)
    : option ScanSession :=
  match List.filter (fun row => String.eqb (image_hash row) imageHash &&
                                (now <? expires_at row)%Z) rows with
  | [row] => Some row
  | _ => None
  end.

Inductive CacheLookup : Type :=
| Hit (result : PipelineResult)
| Miss.

(** STEP 2 without [forceRefresh]: the memory tier, then the durable
    tier, whose hit is copied into memory. *)
Definition lookup_tiers (imageHash : string) (clock : Clock) (st : State)
    : CacheLookup * State * list Event :=
  let memory :=
    match visionCache st !! imageHash with
    | Some cachedResult =>
        if (at_memory_check clock <? expiresAt cachedResult)%Z
        then Some (data cachedResult) else None
    | None => None
    end in
  match memory with
  | Some result => (Hit result, st, [MemoryRead imageHash])
  | None =>
      match select_single (scan_sessions st) imageHash (at_durable_query clock) with
      | Some dbCache =>
          let result := normalized_result dbCache in
          (Hit result,
           {| visionCache :=
                <[ imageHash := {| data := result;
                                   expiresAt := (at_memory_refill clock + CACHE_TTL)%Z |} ]>
                  (visionCache st);
              scan_sessions := scan_sessions st |},
           [MemoryRead imageHash; DurableRead imageHash; MemoryWrite imageHash])
      | None => (Miss, st, [MemoryRead imageHash; DurableRead imageHash])
      end
  end.

(** STEP 5: both tiers are written. *)
Definition store_result (imageHash : string) (clock : Clock)
    (visionResult : VisionResult) (finalResult : PipelineResult) (st : State)
    : State * list Event :=
  ({| visionCache :=
        <[ imageHash := {| data := finalResult;
                           expiresAt := (at_memory_store clock + CACHE_TTL)%Z |} ]>
          (visionCache st);
      scan_sessions :=
        scan_sessions st ++
        [ {| image_hash := imageHash;
             raw_vision_json := visionResult;
             normalized_result := finalResult;
             expires_at := (at_durable_store clock + CACHE_TTL)%Z |} ] |},
   [MemoryWrite imageHash; DurableWrite imageHash]).

(** ** Extraction *)

(** STEP 4: the vision backend, then the OCR route if it throws. *)
Definition run_extraction (outcome : VisionOutcome) : Result VisionResult * list Event :=
  match outcome with
  | VisionReturns visionResult => (Ok visionResult, [VisionCall])
  | VisionThrows ocrRoute =>
      (singleDrug ← ocrRoute;
       Ok {| vision_medications := Some [singleDrug];
             vision_error := None; vision_note := None |},
       [VisionCall; OcrCall])
  end.

Definition server_error : Response :=
  Failure 500 "Processing failed" None None None.

(** [req.body.forceRefresh === 'true'] *)
Definition forceRefresh (req : ProcessRequest) : bool :=
  match forceRefresh_field req with
  | Some v => String.eqb v "true"
  | None => false
  end.

(** [cleanExpiredCache()], run every five minutes, at a time it reads as
    [now]: the entries that expired before [now] are deleted. *)
Definition cleanExpiredCache (now : Z) (st : State) : State :=
  {| visionCache :=
       filter (fun kv : string * CacheEntry => ¬ (expiresAt kv.2 < now)%Z)
              (visionCache st);
     scan_sessions := scan_sessions st |}.

Section Routes.

(** [hashFile]: the SHA-256 digest of the file content, in hexadecimal. *)
Variable hashFile : string -> string.

(** Everything after the cache lookup. *)
Definition extract_and_process (req : ProcessRequest) (env : Env)
    (imageHash : string) (st : State) : Response * State * list Event :=
  let '(extracted, events) := run_extraction (extraction env) in
  match extracted with
  | Throw _ => (server_error, st, events)
  | Ok visionResult =>
      match truthy (vision_error visionResult), vision_medications visionResult with
      | false, Some ((_ :: _) as candidates) =>
          match process_candidates (terminology env) (currentMeds req)
                                   (age (patientContext req)) candidates loop_start with
          | Throw _ => (server_error, st, events)
          | Ok loop =>
              match processedMedications loop with
              | [] =>
                  (Failure 400 "Unable to extract medication information"
                     (Some "Could not read any medication names from the prescription.")
                     (if_any (failedList loop))
                     (match failedList loop with
                      | [] => None
                      | _ :: _ => Some "The prescription image may be unclear. Please try taking a clearer photo with good lighting."
                      end),
                   st, events)
              | _ :: _ =>
                  let finalResult := finalResult_of loop in
                  let '(st', writes) :=
                    store_result imageHash (clock env)
                      {| vision_medications := Some (visited loop);
                         vision_error := vision_error visionResult;
                         vision_note := vision_note visionResult |}
                      finalResult st in
                  (Success finalResult, st', events ++ writes)
              end
          end
      | _, _ =>
          (Failure 400 "Unable to read prescription"
             (Some (or_else (vision_note visionResult)
                      "The prescription image is not clear enough. Please take a clearer photo."))
             None None,
           st, events)
      end
  end.

(** [POST /api/prescription/process] *)
Definition process (req : ProcessRequest) (env : Env) (st : State)
    : Response * State * list Event :=
  match file req with
  | None => (Failure 400 "No image file provided" None None None, st, [])
  | Some image =>
      let imageHash := hashFile image in
      if forceRefresh req then extract_and_process req env imageHash st
      else
        let '(found, st1, reads) := lookup_tiers imageHash (clock env) st in
        match found with
        | Hit result => (Success result, st1, reads)
        | Miss =>
            let '(response, st2, events) := extract_and_process req env imageHash st1 in
            (response, st2, reads ++ events)
        end
  end.

End Routes.

(** ** The nudge route *)

(** An element of the [medications] array of the request. *)
Record BatchMedication : Type := mkBatch {
  batch_extracted_data : option ExtractedData;
  skipValidation : bool
}.

(** [{ ...med, patient_facing_card, interactions, ... }] *)
Record NudgedMedication : Type := mkNudged {
  nudged_extracted_data : ExtractedData;
  nudged_skipValidation : bool;
  nudged_card : Card;
  nudged_interactions : list Finding;
  nudged_safety_flag : Flag;
  nudged_safety_reasoning : string;
  nudged_enhanced_safety : SafetyChecker.SafetyReport
}.

(** The body of a reply of the nudge route: the [medications] array, or
    an error. *)
Inductive BatchResponse : Type :=
| BatchSuccess (medicationsWithNudges : list NudgedMedication)
| BatchFailure (status : Z) (error : string).

(** [medications.map(m => m.extracted_data?.drug_name).filter(Boolean)] *)
Definition allMedicationNames (meds : list BatchMedication) : list string :=
  truthy_strings
    (map (fun m => match batch_extracted_data m with
                   | Some d => drug_name d
                   | None => None
                   end) meds).

(** [allMedicationNames.filter(name => name !== extractedData.drug_name)] *)
Definition other_names (names : list string) (current : option string) : list string :=
  List.filter
    (fun name => match current with
                 | Some n => negb (String.eqb name n)
                 | None => true
                 end)
    names.

Definition fallback_nudge (extractedData : ExtractedData) : Card :=
  {| headline := "Take " +:+ interpolate (drug_name extractedData) +:+ " as prescribed";
     plain_instruction := ""; the_why := ""; habit_hook := ""; warning_label := "" |}.

(** [[a, b].filter(Boolean).join('\n\n')] *)
Definition with_safety_text (card : Card) (safetyWarningText : string) : Card :=
  if String.eqb safetyWarningText "" then card
  else
    {| headline := headline card;
       plain_instruction := plain_instruction card;
       the_why := the_why card;
       habit_hook := habit_hook card;
       warning_label :=
         join (newline +:+ newline)
              (truthy_strings [Some (warning_label card); Some safetyWarningText]) |}.

(** The card of one medication; whatever its [try] block throws is
    answered with the fallback card. *)
Definition nudge_card (model : LanguageModel) (extractedData : ExtractedData)
    (context : PatientContext) (interactions : list Finding)
    (enhancedSafety : SafetyChecker.SafetyReport) : Card :=
  match (card ← generateCard model extractedData context interactions;
         safetyWarningText ← generateSafetyWarningText enhancedSafety;
         Ok (with_safety_text card safetyWarningText)) with
  | Ok card => card
  | Throw _ => fallback_nudge extractedData
  end.

(** The name the nudge route keeps after validation. *)
Definition batch_name (validation : NameValidation) (current : option string)
    : option string :=
  if wasCorrected validation then correctedName validation else current.

(** One iteration of [for (const med of medications)]: [None] stands for
    [continue]. *)
Definition nudge_medication (env : Env) (context : PatientContext)
    (names : list string) (med : BatchMedication) : Result (option NudgedMedication) :=
  match batch_extracted_data med with
  | None => Throw TypeError       (* [extractedData.drug_name] on undefined *)
  | Some extractedData =>
      let validation :=
        validateAndNormalizeDrugName (terminology env) (drug_name extractedData) in
      if negb (skipValidation med) && negb (valid validation) then Ok None
      else
        let extractedData :=
          if skipValidation med then extractedData
          else rename extractedData
                      (batch_name validation (drug_name extractedData))
                      (name_confidence extractedData) in
        let others := other_names names (drug_name extractedData) in
        interactions ← on_name (drug_name extractedData)
                         (fun n => checkInteractions (terminology env) n others);
        let safetyFlag := determineSafetyFlag interactions in
        enhancedSafety ← on_name (drug_name extractedData)
                           (fun n => getEnhancedSafetyInfo n (dosage extractedData)
                                                           (age context) others);
        Ok (Some {| nudged_extracted_data := extractedData;
                    nudged_skipValidation := skipValidation med;
                    nudged_card := nudge_card (llm env) extractedData context
                                              interactions enhancedSafety;
                    nudged_interactions := interactions;
                    nudged_safety_flag := flag safetyFlag;
                    nudged_safety_reasoning := reasoning safetyFlag;
                    nudged_enhanced_safety := enhancedSafety |})
  end.

Fixpoint nudge_all (env : Env) (context : PatientContext) (names : list string)
    (meds : list BatchMedication) (acc : list NudgedMedication)
    : Result (list NudgedMedication) :=
  match meds with
  | [] => Ok acc
  | med :: rest =>
      o ← nudge_medication env context names med;
      nudge_all env context names rest
                (match o with Some m => acc ++ [m] | None => acc end)
  end.

(** [POST /api/nudge/generate-batch]; a missing [patientContext] is read
    as the empty one. *)
Definition generate_batch (env : Env) (medications : option (list BatchMedication))
    (context : PatientContext) : BatchResponse :=
  match medications with
  | None => BatchFailure 400 "medications array is required"
  | Some meds =>
      match nudge_all env context (allMedicationNames meds) meds [] with
      | Ok medicationsWithNudges => BatchSuccess medicationsWithNudges
      | Throw _ => BatchFailure 500 "Nudge generation failed"
      end
  end.

End Server.

(* ===================================================================== *)
(** * services/llmService.js and services/ocrService.js: extraction *)
(* ===================================================================== *)

Module LlmService.
Import DrugService NudgeService Server.

(** The OpenAI API as the extraction code sees it: whether a key is
    configured, and what the completions parse to. A rejected request and
    content that is not JSON both throw. *)
Record Backend : Type := mkBackend {
  (** [process.env.OPENAI_API_KEY] is set and is not ['demo-key'] *)
  openai_key : bool;
  (** the completion for the image: [json.medications] when it is an
      array *)
  vision_json : Result (option (list ExtractedData));
  (** the completion for an OCR text *)
  text_json : string -> Result ExtractedData
}.

(** [if (!med.dosage) med.dosage = 'Not specified'] and the three
    assignments after it. *)
Definition with_defaults (med : ExtractedData) : ExtractedData :=
  {| drug_name := drug_name med;
     dosage := Some (or_else (dosage med) "Not specified");
     frequency := Some (or_else (frequency med) "As directed");
     dose_timing := dose_timing med;
     dosing_source := dosing_source med;
     duration := Some (or_else (duration med) "Not specified");
     route := Some (or_else (route med) "Oral");
     instructions := instructions med;
     name_confidence := name_confidence med |}.

(** The callback of [json.medications.filter]: whether the medication is
    kept. *)
Definition keeps (med : ExtractedData) : bool :=
  if negb (truthy (drug_name med)) ||
     String.eqb (or_else (drug_name med) "") CLARIFICATION_NEEDED
  then false else true.

(** [extractFromImage(imagePath)] *)
Definition extractFromImage (api : Backend) : Result VisionResult :=
  if negb (openai_key api) then Throw BackendError
  else
    medications ← vision_json api;
    match medications with
    | None =>
        Ok {| vision_medications := Some [];
              vision_error := Some "INVALID_RESPONSE";
              vision_note := Some "Vision API response was not in expected format" |}
    | Some meds =>
        let validMedications := map with_defaults (List.filter keeps meds) in
        match validMedications with
        | [] =>
            Ok {| vision_medications := Some [];
                  vision_error := Some "NO_MEDICATIONS_FOUND";
                  vision_note := Some "Could not extract any clear medication names from prescription" |}
        | _ :: _ =>
            Ok {| vision_medications := Some validMedications;
                  vision_error := None; vision_note := None |}
        end
    end.

(** ** The patterns of the extraction without a model

    The regular expressions of [extractDrugDataFallback] are built from
    lower-case words, [\s*], runs of digits and alternation, and carry the
    flag [i]. They are matched the way the engine matches them: at the
    leftmost position where some alternative matches, with the first
    such alternative, every [\s*] and [\d+] taking the whole run (a
    shorter run is followed by a character of the run, which nothing
    after it in these patterns can match). *)

(** The rest of [s] after the literal [p], matched whatever the case. *)
Fixpoint strip_prefix_ci (p s : string) : option string :=
  match p, s with
  | EmptyString, _ => Some s
  | String a p', String b s' =>
      if Ascii.eqb a (lower_char b) then strip_prefix_ci p' s' else None
  | String _ _, EmptyString => None
  end.

(** An alternative [w1\s*w2\s*...]: the rest of [s] after it, when it
    matches at the start of [s]. *)
Fixpoint match_words (words : list string) (s : string) : option string :=
  match words with
  | [] => Some s
  | [w] => strip_prefix_ci w s
  | w :: rest =>
      match strip_prefix_ci w s with
      | Some s' => match_words rest (dropWhile is_space s')
      | None => None
      end
  end.

(** [(a1|a2|...)] at the start of [s]. *)
Fixpoint first_alternative (alternatives : list (list string)) (s : string)
    : option string :=
  match alternatives with
  | [] => None
  | words :: rest =>
      match match_words words s with
      | Some after => Some after
      | None => first_alternative rest s
      end
  end.

(** [(a1|a2|...)] at the leftmost position of [s] where it matches: the
    text that follows the match. *)
Fixpoint search (alternatives : list (list string)) (s : string) : option string :=
  match first_alternative alternatives s with
  | Some after => Some after
  | None =>
      match s with
      | EmptyString => None
      | String _ t => search alternatives t
      end
  end.

(** [regex.test(s)] *)
Definition test (alternatives : list (list string)) (s : string) : bool :=
  match search alternatives s with Some _ => true | None => false end.

(** The optional second group of a drug pattern. *)
Inductive DoseGroup : Type :=
| NoGroup                       (* the pattern has one group only *)
| IntegerDose (unit : string)   (* [(\d+\s*unit)?] *)
| DecimalDose (unit : string).  (* [(\d+\.?\d*\s*unit)?] *)

(** [\d+\s*unit] at the start of [s]: the text it matches. *)
Definition integer_dose (unit s : string) : option string :=
  let digits := takeWhile is_digit s in
  let s1 := dropWhile is_digit s in
  let spaces := takeWhile is_space s1 in
  let s2 := dropWhile is_space s1 in
  match strip_prefix_ci unit s2 with
  | Some _ =>
      if String.eqb digits "" then None
      else Some (digits +:+ spaces +:+ substring 0 (String.length unit) s2)
  | None => None
  end.

(** [\.?] at the start of [s]: what it matches and what follows. *)
Definition optional_dot (s : string) : string * string :=
  match s with
  | String "."%char t => (".", t)
  | _ => ("", s)
  end.

(** [\d+\.?\d*] at the start of [s]: what it matches and what follows. *)
Definition decimal_number (s : string) : option (string * string) :=
  let digits := takeWhile is_digit s in
  let '(dot, s1) := optional_dot (dropWhile is_digit s) in
  if String.eqb digits "" then None
  else Some (digits +:+ dot +:+ takeWhile is_digit s1, dropWhile is_digit s1).

(** [\d+\.?\d*\s*unit] at the start of [s]: the text it matches. *)
Definition decimal_dose (unit s : string) : option string :=
  match decimal_number s with
  | Some (number, s1) =>
      let spaces := takeWhile is_space s1 in
      let s2 := dropWhile is_space s1 in
      match strip_prefix_ci unit s2 with
      | Some _ => Some (number +:+ spaces +:+ substring 0 (String.length unit) s2)
      | None => None
      end
  | None => None
  end.

(** [match[2]] of a drug pattern, given the text after the first group:
    [\s*] and then the optional group. *)
Definition second_group (group : DoseGroup) (after : string) : option string :=
  let s := dropWhile is_space after in
  match group with
  | NoGroup => None
  | IntegerDose unit => integer_dose unit s
  | DecimalDose unit => decimal_dose unit s
  end.

Record DrugPattern : Type := mkPattern {
  regex_alternatives : list (list string);
  dose_group : DoseGroup;
  pattern_name : string
}.

Definition drugPatterns : list DrugPattern :=
  [ mkPattern [["amlodipine"]; ["amlo"]] (IntegerDose "mg") "Amlodipine";
    mkPattern [["metformin"]; ["glucophage"]] (IntegerDose "mg") "Metformin";
    mkPattern [["atorvastatin"]; ["lipitor"]] (IntegerDose "mg") "Atorvastatin";
    mkPattern [["losartan"]; ["cozaar"]] (IntegerDose "mg") "Losartan";
    mkPattern [["warfarin"]; ["coumadin"]] (DecimalDose "mg") "Warfarin";
    mkPattern [["sertraline"]; ["zoloft"]] (IntegerDose "mg") "Sertraline";
    mkPattern [["omeprazole"]; ["prilosec"]] (IntegerDose "mg") "Omeprazole";
    mkPattern [["lisinopril"]; ["zestril"]] (IntegerDose "mg") "Lisinopril";
    mkPattern [["levothyroxine"]; ["synthroid"]] (IntegerDose "mcg") "Levothyroxine";
    mkPattern [["gabapentin"]; ["neurontin"]] (IntegerDose "mg") "Gabapentin";
    mkPattern [["clopidogrel"]; ["plavix"]] (IntegerDose "mg") "Clopidogrel";
    mkPattern [["ciprofloxacin"]; ["cipro"]] (IntegerDose "mg") "Ciprofloxacin";
    mkPattern [["insulin"; "glargine"]; ["lantus"]] NoGroup "Insulin Glargine";
    mkPattern [["aspirin"]; ["ecosprin"]] (IntegerDose "mg") "Aspirin" ].

(** The [for (const pattern of drugPatterns)] loop: the name of the first
    pattern of the table that matches somewhere, with its second group. *)
Fixpoint first_pattern (patterns : list DrugPattern) (ocrText : string)
    : option (string * option string) :=
  match patterns with
  | [] => None
  | pattern :: rest =>
      match search (regex_alternatives pattern) ocrText with
      | Some after =>
          Some (pattern_name pattern, second_group (dose_group pattern) after)
      | None => first_pattern rest ocrText
      end
  end.

(** [(mg|mcg|ml|units?|iu)]; the optional [s] is tried first. *)
Definition dose_units : list string := ["mg"; "mcg"; "ml"; "units"; "unit"; "iu"].

(** The first unit that matches at the start of [s], as it is written
    there. *)
Fixpoint unit_at (units : list string) (s : string) : option string :=
  match units with
  | [] => None
  | unit :: rest =>
      match strip_prefix_ci unit s with
      | Some _ => Some (substring 0 (String.length unit) s)
      | None => unit_at rest s
      end
  end.

(** The general dosage expression, a number [\d+\.?\d*], then [\s*],
    then a unit, at the start of [s]: the two groups. *)
Definition dosage_at (s : string) : option (string * string) :=
  match decimal_number s with
  | Some (number, s1) =>
      match unit_at dose_units (dropWhile is_space s1) with
      | Some unit => Some (number, unit)
      | None => None
      end
  | None => None
  end.

(** [ocrText.match] of the general dosage expression: the leftmost
    match. *)
Fixpoint dosageMatch (s : string) : option (string * string) :=
  match s with
  | EmptyString => None
  | String _ t =>
      match dosage_at s with
      | Some groups => Some groups
      | None => dosageMatch t
      end
  end.

(** The chain of tests on the lower-cased text. *)
Definition frequency_of (text : string) : string :=
  if test [["bid"]; ["twice"]; ["2"; "times"]] text then "Twice Daily"
  else if test [["tid"]; ["three"]; ["3"; "times"]] text then "Three Times Daily"
  else if test [["qid"]; ["four"]; ["4"; "times"]] text then "Four Times Daily"
  else if test [["prn"]; ["as needed"]] text then "As Needed"
  else if test [["qhs"]; ["bedtime"]; ["night"]] text then "At Bedtime"
  else "Once Daily".

(** [extractDrugDataFallback(ocrText)] *)
Definition extractDrugDataFallback (ocrText : string) : ExtractedData :=
  let text := toLowerCase ocrText in
  let '(drugName, dosage) :=
    match first_pattern drugPatterns ocrText with
    | Some (name, Some group) => (name, trim group)
    | Some (name, None) => (name, "Unknown")
    | None => (CLARIFICATION_NEEDED, "Unknown")
    end in
  let dosage :=
    match dosageMatch ocrText with
    | Some (number, unit) =>
        if String.eqb dosage "Unknown" then number +:+ unit else dosage
    | None => dosage
    end in
  {| drug_name := Some drugName;
     dosage := Some dosage;
     frequency := Some (frequency_of text);
     dose_timing := None;
     dosing_source := None;
     duration := Some "30 days";
     route := Some "Oral";
     instructions := None;
     name_confidence := None |}.

(** [extractDrugData(ocrText)]: the model when a key is configured, the
    patterns otherwise and when the model fails. *)
Definition extractDrugData (api : Backend) (ocrText : string) : ExtractedData :=
  if negb (openai_key api) then extractDrugDataFallback ocrText
  else
    match text_json api ocrText with
    | Ok json => json
    | Throw _ => extractDrugDataFallback ocrText
    end.

End LlmService.

Module OcrService.

Definition unreadable_message : string :=
  "CLARIFICATION_NEEDED: Unable to read prescription clearly. The image may be too blurry or the handwriting is not legible.".

(** [extractText(imagePath)], given what the recognition of the
    (preprocessed or original) image yields. *)
Definition extractText (recognized : Result string) : Result string :=
  match recognized with
  | Throw _ => Throw BackendError
  | Ok raw =>
      let text := trim raw in
      if String.eqb text "" || Nat.ltb (String.length text) 5
      then Ok unreadable_message
      else Ok text
  end.

End OcrService.

(* ===================================================================== *)
(** * server.js: how the extraction route obtains its candidates, and
      the single-purpose routes *)
(* ===================================================================== *)

Module Api.
Import DrugService NudgeService Server.

(** STEP 4 of the extraction route with its two backends spelled out:
    the vision call, and on failure the recognised text handed to
    [extractDrugData]. *)
Definition extraction_of (api : LlmService.Backend) (recognized : Result string)
    : VisionOutcome :=
  match LlmService.extractFromImage api with
  | Ok visionResult => VisionReturns visionResult
  | Throw _ =>
      VisionThrows (ocrText ← OcrService.extractText recognized;
                    Ok (LlmService.extractDrugData api ocrText))
  end.

(** The reply of a route: a JSON body with status 200, or an error. *)
Inductive Reply (A : Type) : Type :=
| Json (body : A)
| Problem (status : Z) (error : string).
Arguments Json {A} body.
Arguments Problem {A} status error.

(** [POST /api/interaction/check] *)
Definition interaction_check (svc : Terminology) (drugName : option string)
    (currentMeds : option (list string)) : Reply (list Finding * SafetyVerdict) :=
  if negb (truthy drugName) then Problem 400 "drugName is required"
  else
    match checkInteractions svc (or_else drugName "")
            (match currentMeds with Some meds => meds | None => [] end) with
    | Ok interactions => Json (interactions, determineSafetyFlag interactions)
    | Throw _ => Problem 500 "Interaction check failed"
    end.

(** [patientContext || {}] *)
Definition context_or_empty (patientContext : option PatientContext) : PatientContext :=
  match patientContext with
  | Some context => context
  | None => {| patient_name := None; age := None; language := None;
               lifestyle := None; concerns := None |}
  end.

(** [POST /api/nudge/generate] *)
Definition nudge_generate (model : LanguageModel) (extractedData : option ExtractedData)
    (patientContext : option PatientContext) : Reply Card :=
  match extractedData with
  | None => Problem 400 "extractedData is required"
  | Some data =>
      match generateCard model data (context_or_empty patientContext)
                         ([] : list Finding) with
      | Ok card => Json card
      | Throw _ => Problem 500 "Nudge generation failed"
      end
  end.

End Api.

(* ===================================================================== *)
(** * Vocabulary of the statements *)
(* ===================================================================== *)

Import SafetyChecker DrugService Readability NudgeService Server.

(** ** Findings *)

(** Some finding of the list has tier [n]. *)
Definition has_tier (n : Z) (fs : list Finding) : Prop :=
  exists f, In f fs /\ tier f = n.

(** ** Name validation *)

(** A name the validator looks up at all: the guard on entry rejects the
    empty name and the unreadable marker before any request is made. *)
Definition usable (name : string) : Prop :=
  name <> "" /\ name <> CLARIFICATION_NEEDED.

(** The first concept of a successful exact lookup, if there is one. *)
Definition exact_hit (svc : Terminology) (name : string) : option Concept :=
  match found (lookupDrug svc name), concepts (lookupDrug svc name) with
  | true, Some (first :: _) => Some first
  | _, _ => None
  end.

(** A candidate of the approximate search is acceptable for [name] when
    its similarity exceeds 0.6. *)
Definition acceptable (name cname : string) : Prop :=
  (0.6 <? similarity name cname)%float = true.

(** What the loop over the candidates has established after a prefix
    [seen] of them. *)
Definition scan_inv (name : string) (seen : list Candidate)
    (st : option BestMatch * option nat) : Prop :=
  match st with
  | (None, None) =>
      forall c n, In c seen -> candidateName c = Some n -> ~ acceptable name n
  | (Some b, Some d) =>
      d = distance name (best_name b) /\
      best_confidence b = similarity name (best_name b) /\
      acceptable name (best_name b) /\
      (exists c, In c seen /\ candidateName c = Some (best_name b) /\
                 best_rxcui b = candidateRxcui c) /\
      (forall c n, In c seen -> candidateName c = Some n -> acceptable name n ->
                   d <= distance name n)
  | _ => False
  end.

(** The similarity as the specification words it: the distance is taken
    between the input and the candidate as they are. *)
Definition similarity_as_stated (drugName name : string) : float :=
  (1 - number (levenshteinDistance drugName name) /
       number (Nat.max (String.length drugName) (String.length name)))%float.


(** The terminology service never offers the unreadable marker as the
    name of a drug. *)
Definition marker_free (svc : Terminology) : Prop :=
  forall query cands c,
    approximateTerm_json svc query = Ok (Some cands) ->
    In c cands -> candidateName c <> Some CLARIFICATION_NEEDED.

(** ** The static interaction tables *)

(** A drug name whose table key is not a property that every object
    literal inherits. *)
Definition plain_key (drugName : string) : Prop :=
  existsb (String.eqb (toLowerCase drugName)) object_prototype_keys = false.

(** The partners the fallback table lists for a drug. *)
Definition known_partners (drugName : string) : list string :=
  match own knownInteractions (toLowerCase drugName) with
  | Some partners => partners
  | None => []
  end.

(** The dietary findings the static table lists for a drug. *)
Definition dietary_findings (drugName : string) : list Finding :=
  match own dietaryMap (toLowerCase drugName) with
  | Some l => l
  | None => []
  end.

(** ** The readability gate *)

(** The combined text of an emitted card, put together the way the
    generator puts together the text it scores. *)
Definition card_text (card : Card) : string :=
  join " " (truthy_strings [ Some (plain_instruction card); Some (the_why card);
                             Some (habit_hook card); Some (headline card) ]).

(** The text fails the gate: its grade level is above 8 or it contains a
    word of the jargon table. *)
Definition fails_gate (text : string) : Prop :=
  (8 <? calculateFleschKincaid text)%float = true \/
  detectMedicalJargon text <> [].

(** A drug name the generator accepts. *)
Definition named (extractedData : ExtractedData) : Prop :=
  exists n, drug_name extractedData = Some n /\ n <> "" /\
            n <> CLARIFICATION_NEEDED.

(** ** The extraction route *)

(** The name of the candidate is missing, empty or the unreadable
    marker. *)
Definition unreadable (c : ExtractedData) : bool :=
  negb (truthy (drug_name c)) ||
  String.eqb (or_else (drug_name c) "") CLARIFICATION_NEEDED.

(** The candidate has a readable name that passes validation. *)
Definition accepted (svc : Terminology) (c : ExtractedData) : bool :=
  negb (unreadable c) && valid (validateAndNormalizeDrugName svc (drug_name c)).

(** The candidate as the route annotates it once validated. *)
Definition renamed (svc : Terminology) (c : ExtractedData) : ExtractedData :=
  let validation := validateAndNormalizeDrugName svc (drug_name c) in
  rename c (kept_name validation) (Some (confidence validation)).

(** The failure record of a candidate that is not accepted. *)
Definition failure_of (svc : Terminology) (c : ExtractedData) : FailedExtraction :=
  if unreadable c then unclear_name c
  else invalid_drug c (validateAndNormalizeDrugName svc (drug_name c)).

(** The candidates the route loops over: those of an extraction that
    returned without an error flag. *)
Definition candidates_of (env : Env) : list ExtractedData :=
  match fst (run_extraction (extraction env)) with
  | Ok visionResult =>
      if truthy (vision_error visionResult) then []
      else match vision_medications visionResult with
           | Some l => l
           | None => []
           end
  | Throw _ => []
  end.

(** The list a response carries in the field [failedExtractions], an
    absent field carrying nothing. *)
Definition carried (field : option (list FailedExtraction)) : list FailedExtraction :=
  match field with Some l => l | None => [] end.

(** The field [failedExtractions] of a response, success or error. *)
Definition failed_of (r : Response) : option (list FailedExtraction) :=
  match r with
  | Success result => failedExtractions result
  | Failure _ _ _ failed _ => failed
  end.

(** The HTTP status of a response. *)
Definition status_of (r : Response) : Z :=
  match r with
  | Success _ => 200
  | Failure status _ _ _ _ => status
  end.

(** The result a response carries; an error carries none. *)
Definition result_of (r : Response) : PipelineResult :=
  match r with
  | Success result => result
  | Failure _ _ _ _ _ =>
      {| medications := []; total_medications := 0;
         failedExtractions := None; warnings := None |}
  end.

(** The medication is listed under a name that is set and is not the
    unreadable marker. *)
Definition named_medication (m : ProcessedMedication) : Prop :=
  exists kept, drug_name (extracted_data m) = Some kept /\
               kept <> "" /\ kept <> CLARIFICATION_NEEDED.

(** The result lists at least one medication, and named ones only. *)
Definition named_result (result : PipelineResult) : Prop :=
  medications result <> [] /\ Forall named_medication (medications result).

(** Every result held by either tier of the cache is such a result. *)
Definition cache_named (st : State) : Prop :=
  (forall h entry, visionCache st !! h = Some entry -> named_result (data entry)) /\
  (forall row, In row (scan_sessions st) -> named_result (normalized_result row)).

(** ** The cache *)

(** How many times an event occurs in a trace. *)
Definition occurrences (e : Event) (events : list Event) : nat :=
  length (List.filter (event_eqb e) events).

(** A run of the periodic sweep at each of the given times. *)
Definition sweep_at (times : list Z) (st : State) : State :=
  fold_left (fun s t => cleanExpiredCache t s) times st.

(** Neither tier holds anything for the digest. *)
Definition uncached (imageHash : string) (st : State) : Prop :=
  visionCache st !! imageHash = None /\
  forall row, In row (scan_sessions st) -> image_hash row <> imageHash.

(** ** The nudge route *)

(** The name a medication of the request is validated under. *)
Definition batch_drug_name (med : BatchMedication) : option string :=
  match batch_extracted_data med with
  | Some d => drug_name d
  | None => None
  end.

(** The medication stays in the list: it is exempt from validation or
    its name passes validation. *)
Definition batch_kept (svc : Terminology) (med : BatchMedication) : bool :=
  skipValidation med ||
  valid (validateAndNormalizeDrugName svc (batch_drug_name med)).

(** The extracted data of a medication that stays, as the route returns
    it. *)
Definition batch_renamed (svc : Terminology) (med : BatchMedication)
    : option ExtractedData :=
  match batch_extracted_data med with
  | Some d =>
      Some (if skipValidation med then d
            else rename d
                   (batch_name (validateAndNormalizeDrugName svc (drug_name d))
                               (drug_name d))
                   (name_confidence d))
  | None => None
  end.

(** The medications of a reply; an error carries none. *)
Definition nudged_of (r : BatchResponse) : list NudgedMedication :=
  match r with BatchSuccess out => out | BatchFailure _ _ => [] end.

(* ===================================================================== *)
(** * A worked prescription *)
(* ===================================================================== *)

(** ** Services *)

(** A terminology service that knows no exact match and offers [cands]
    for every approximate search. *)
Definition spelling_service (cands : list Candidate) : Terminology :=
  {| drugs_json := fun _ => Ok None;
     approximateTerm_json := fun _ => Ok (Some cands);
     rxcui_json := fun _ => Ok None;
     interaction_json := fun _ => Ok None;
     interaction_list_json := fun _ => Ok None |}.

(** Every request is rejected. *)
Definition unreachable : Terminology :=
  {| drugs_json := fun _ => Throw NetworkError;
     approximateTerm_json := fun _ => Throw NetworkError;
     rxcui_json := fun _ => Throw NetworkError;
     interaction_json := fun _ => Throw NetworkError;
     interaction_list_json := fun _ => Throw NetworkError |}.

(** A terminology service that has no exact match for the names below and
    corrects two of them; the interaction service is down. *)
Definition demo_terminology : Terminology :=
  {| drugs_json := fun _ => Ok None;
     approximateTerm_json := fun term =>
       if String.eqb term "Listnopril"
       then Ok (Some [CandObject (Some "Lisinopril") (Some "29046")])
       else if String.eqb term "Metfrmn"
       then Ok (Some [CandObject (Some "Metformin") (Some "6809")])
       else if String.eqb term "XyzbcdefG"
       then Ok (Some [CandString "Xylometazoline"; CandObject (Some "Zyban") None])
       else Ok None;
     rxcui_json := fun _ => Throw NetworkError;
     interaction_json := fun _ => Throw NetworkError;
     interaction_list_json := fun _ => Throw NetworkError |}.

(** A generation backend with a key that answers every request with
    [json]. *)
Definition answering (json : CardJson) : LanguageModel :=
  {| api_key_configured := true; complete := fun _ _ => Ok json |}.

(** No generation backend is configured. *)
Definition no_model : LanguageModel :=
  {| api_key_configured := false; complete := fun _ _ => Throw BackendError |}.

(** ** Prescriptions *)

Definition candidate (name dose : string) : ExtractedData :=
  {| drug_name := Some name; dosage := Some dose;
     frequency := Some "Once Daily"; dose_timing := Some "1-0-0";
     dosing_source := Some "prescription"; duration := Some "30 days";
     route := Some "Oral"; instructions := None; name_confidence := None |}.

Definition lisinopril_10mg : ExtractedData := candidate "Lisinopril" "10mg".
Definition listnopril : ExtractedData := candidate "Listnopril" "10mg".
Definition metfrmn : ExtractedData := candidate "Metfrmn" "500mg".
Definition unreadable_line : ExtractedData := candidate "CLARIFICATION_NEEDED" "5mg".
Definition xyzbcdefg : ExtractedData := candidate "XyzbcdefG" "5mg".

(** A generated card that speaks of renal care. *)
Definition renal_json : CardJson :=
  {| json_headline := Some "Daily pill";
     json_plain_instruction := Some "Take it for renal care.";
     json_the_why := None; json_habit_hook := None;
     json_warning_label := None |}.

(** A generated card made of one long sentence, free of jargon. *)
Definition wordy_json : CardJson :=
  {| json_headline := None;
     json_plain_instruction :=
       Some "Continue taking this medicine regularly every single morning immediately following breakfast.";
     json_the_why := None; json_habit_hook := None;
     json_warning_label := None |}.

Definition no_context : PatientContext :=
  {| patient_name := None; age := None; language := None;
     lifestyle := None; concerns := None |}.

(** ** Requests *)

(** Every reading of the clock within the request gives [t]. *)
Definition clock_at (t : Z) : Clock :=
  {| at_memory_check := t; at_durable_query := t; at_memory_refill := t;
     at_memory_store := t; at_durable_store := t |}.

(** The vision backend finds the medications [seen], at time [t]. *)
Definition demo_env (seen : list ExtractedData) (t : Z) : Env :=
  {| terminology := demo_terminology;
     extraction := VisionReturns {| vision_medications := Some seen;
                                    vision_error := None; vision_note := None |};
     llm := no_model;
     clock := clock_at t |}.

Definition demo_request (refresh : option string) : ProcessRequest :=
  {| file := Some "prescription.jpg bytes";
     patientContext := {| patient_name := Some "Asha"; age := Some 70%Z;
                          language := None; lifestyle := None; concerns := None |};
     currentMeds := ["aspirin"];
     forceRefresh_field := refresh |}.

Definition empty_state : State :=
  {| visionCache := ∅; scan_sessions := [] |}.

(** A stand-in for the digest: any function of the content will do. *)
Definition demo_hash (content : string) : string := "sha256:" +:+ content.

Definition demo_image_hash : string := demo_hash "prescription.jpg bytes".

(** The first submission: two misspelt names and one unreadable line. *)
Definition demo_run : Response * State * list Event :=
  process demo_hash (demo_request None)
          (demo_env [listnopril; metfrmn; unreadable_line] 1000) empty_state.

(** The state the first submission leaves behind. *)
Definition after_first : State := snd (fst demo_run).

(** The same image submitted with [forceRefresh] while its entry is live. *)
Definition refreshed : Response * State * list Event :=
  process demo_hash (demo_request (Some "true")) (demo_env [metfrmn] 5000) after_first.

(** A confirmed list: a misspelt name, an unknown name, and a misspelt
    name that the user exempts from validation. *)
Definition demo_batch : list BatchMedication :=
  [ {| batch_extracted_data := Some listnopril; skipValidation := false |};
    {| batch_extracted_data := Some xyzbcdefg; skipValidation := false |};
    {| batch_extracted_data := Some metfrmn; skipValidation := true |} ].

Definition demo_batch_reply : BatchResponse :=
  generate_batch (demo_env [] 0) (Some demo_batch) no_context.

(* ===================================================================== *)
(** * Vocabulary of the further properties *)
(* ===================================================================== *)

Import LlmService OcrService Api.

(** ** Edit distance *)

(** The edit distance by its recurrence on the last characters of the
    two strings, each given as the list of its characters from the last
    one back to the first. *)
Fixpoint edit_distance (s t : list ascii) : nat :=
  match s with
  | [] => length t
  | a :: s' =>
      (fix against (t : list ascii) : nat :=
         match t with
         | [] => length s
         | b :: t' =>
             Nat.min (Nat.min (edit_distance s' (b :: t') + 1) (against t' + 1))
                     (edit_distance s' t' + (if Ascii.eqb a b then 0 else 1))
         end) t
  end.

(** The characters of a string, last one first. *)
Fixpoint chars_back (s : string) (acc : list ascii) : list ascii :=
  match s with
  | EmptyString => acc
  | String c t => chars_back t (c :: acc)
  end.

(** Cells [j ..] of the row of the prefix [s], where [t] holds the
    characters of [str2] before column [j] and [rest] those from it on. *)
Fixpoint cells (s t : list ascii) (rest : string) : list nat :=
  match rest with
  | EmptyString => []
  | String b rest' => edit_distance s (b :: t) :: cells s (b :: t) rest'
  end.

(** ** Findings, continued *)

(** The tier is one of the three the flag distinguishes. *)
Definition tiered (f : Finding) : Prop :=
  tier f = 1%Z \/ tier f = 2%Z \/ tier f = 3%Z.

(** Some current medication is listed in the fallback table as a partner
    of the drug. *)
Definition has_known_partner (drugName : string) (currentMeds : list string) : Prop :=
  exists med, In med currentMeds /\ In (toLowerCase med) (known_partners drugName).

(** ** The rule tables of the safety checker *)

(** The key under which the safety checker looks a drug up. *)
Definition normalized (drugName : string) : string := trim (toLowerCase drugName).

(** The name is a property that every object literal inherits. *)
Definition inherited_name (key : string) : Prop :=
  existsb (String.eqb key) object_prototype_keys = true.

(** Some warning of the list is a pediatric one. *)
Definition has_pediatric (ws : list AgeWarning) : Prop :=
  exists w, In w ws /\ category w = "pediatric".

(** The dose the dosage rules compare: the first run of digits followed
    by "mg", read as a decimal number. *)
Definition dose_of (dosageString : string) : option Z :=
  option_map parseInt (match_mg dosageString).




(** The report has something of high severity: a pediatric warning or a
    dosage alert. *)
Definition report_high (report : SafetyReport) : Prop :=
  has_pediatric (ageWarnings report) \/ dosageAlerts report <> [].

(** The report has a food interaction or an age warning. *)
Definition report_some (report : SafetyReport) : Prop :=
  hasFoodInteraction (foodInteractions report) = true \/ ageWarnings report <> [].

(** The report has nothing to warn about. *)
Definition report_empty (report : SafetyReport) : Prop :=
  hasFoodInteraction (foodInteractions report) = false /\
  ageWarnings report = [] /\ dosageAlerts report = [].

(** ** Simplification *)

(** The text contains no term of the substitution table, whatever the
    case. *)
Definition term_free (text : string) : Prop :=
  forall medical plain, In (medical, plain) MEDICAL_TO_PLAIN ->
    includes (toLowerCase text) medical = false.


(** ** The extraction route, continued *)

(** What the route attaches to a medication is computed from the name it
    keeps: the findings are those of [checkInteractions] for that name
    and the current medications, the flag and its reasoning are the
    verdict on those findings, the enhanced report is the one for that
    name, the extracted dosage and the patient's age, and no card is
    attached. *)
Definition consistent_medication (svc : Terminology) (currentMeds : list string)
    (patientAge : option Z) (m : ProcessedMedication) : Prop :=
  exists name,
    drug_name (extracted_data m) = Some name /\
    checkInteractions svc name currentMeds = Ok (interactions m) /\
    safety_flag m = flag (determineSafetyFlag (interactions m)) /\
    safety_reasoning m = reasoning (determineSafetyFlag (interactions m)) /\
    getEnhancedSafetyInfo name (dosage (extracted_data m)) patientAge currentMeds
      = Ok (enhanced_safety m) /\
    patient_facing_card m = None.

(** A write of either tier. *)
Definition is_write (e : Event) : Prop :=
  match e with
  | MemoryWrite _ | DurableWrite _ => True
  | _ => False
  end.

(** ** The cache, continued *)

(** A state whose memory tier is empty, as after a restart, and whose
    durable tier holds one row for the digest of the worked
    prescription. *)
Definition restarted : State :=
  {| visionCache := ∅; scan_sessions := scan_sessions after_first |}.

(** ** The nudge route, continued *)


(** What the nudge route attaches to a medication is computed from the
    name it returns it under and from the other names of the request. *)
Definition consistent_nudge (env : Env) (context : PatientContext)
    (names : list string) (m : NudgedMedication) : Prop :=
  exists name,
    drug_name (nudged_extracted_data m) = Some name /\
    checkInteractions (terminology env) name (other_names names (Some name))
      = Ok (nudged_interactions m) /\
    nudged_safety_flag m = flag (determineSafetyFlag (nudged_interactions m)) /\
    nudged_safety_reasoning m = reasoning (determineSafetyFlag (nudged_interactions m)) /\
    getEnhancedSafetyInfo name (dosage (nudged_extracted_data m)) (age context)
                          (other_names names (Some name))
      = Ok (nudged_enhanced_safety m) /\
    nudged_card m =
      nudge_card (llm env) (nudged_extracted_data m) context
                 (nudged_interactions m) (nudged_enhanced_safety m).

(** A confirmed list with warfarin and aspirin, both exempt from
    validation. *)
Definition warfarin_batch : list BatchMedication :=
  [ {| batch_extracted_data := Some (candidate "Warfarin" "5mg");
       skipValidation := true |};
    {| batch_extracted_data := Some (candidate "Aspirin" "75mg");
       skipValidation := true |} ].

(** ** Extraction *)

(** The fields the vision backend's post-processing fills in are set. *)
Definition complete_medication (med : ExtractedData) : Prop :=
  named med /\ truthy (dosage med) = true /\ truthy (frequency med) = true /\
  truthy (duration med) = true /\ truthy (route med) = true.

(** A one-word alternative of some drug pattern occurs in the text,
    whatever the case. *)
Definition mentions_known_drug (ocrText : string) : Prop :=
  exists pattern word,
    In pattern drugPatterns /\ In [word] (regex_alternatives pattern) /\
    includes (toLowerCase ocrText) word = true.

(** No drug pattern matches anywhere in the text. *)
Definition no_pattern_matches (ocrText : string) : Prop :=
  forall pattern, In pattern drugPatterns ->
    search (regex_alternatives pattern) ocrText = None.

(** A backend without a key: the vision call throws before any request. *)
Definition no_key : Backend :=
  {| openai_key := false;
     vision_json := Throw BackendError;
     text_json := fun _ => Throw BackendError |}.

(** A vision backend that reads two lines, one of them unreadable. *)
Definition two_lines : Backend :=
  {| openai_key := true;
     vision_json :=
       Ok (Some [ {| drug_name := Some "Xyzbcdefg"; dosage := None; frequency := None;
                     dose_timing := None; dosing_source := None; duration := None;
                     route := None; instructions := None; name_confidence := None |};
                  unreadable_line ]);
     text_json := fun _ => Throw BackendError |}.

(** The environment of a request whose extraction goes through the given
    backends. *)
Definition env_of (api : Backend) (recognized : Result string) (t : Z) : Env :=
  {| terminology := demo_terminology;
     extraction := extraction_of api recognized;
     llm := no_model;
     clock := clock_at t |}.

(* ===================================================================== *)
(** * Properties *)
(* ===================================================================== *)

Section Numbers.

(** Comparing the other way round mirrors the outcome. *)
Lemma SFcompare_antisym a b :
  SFcompare b a = option_map CompOpp (SFcompare a b).
Proof.
  destruct a as [sa|sa| |sa ma ea], b as [sb|sb| |sb mb eb]; cbn;
    try reflexivity; try (destruct sa; reflexivity); try (destruct sb; reflexivity);
    try (destruct sa, sb; reflexivity).
  destruct sa, sb; cbn; try reflexivity.
  - rewrite (Z.compare_antisym ea eb). destruct (ea ?= eb)%Z; cbn; try reflexivity.
    rewrite CompOpp_involutive.
    change (Pos.compare_cont Eq mb ma) with (Pos.compare mb ma).
    rewrite (Pos.compare_antisym ma mb).
    change (Pos.compare_cont Eq ma mb) with (Pos.compare ma mb).
    rewrite CompOpp_involutive. reflexivity.
  - rewrite (Z.compare_antisym ea eb). destruct (ea ?= eb)%Z; cbn; try reflexivity.
    change (Pos.compare_cont Eq mb ma) with (Pos.compare mb ma).
    rewrite (Pos.compare_antisym ma mb). reflexivity.
Qed.

(** A number that is at most [y] is not above [y]. *)
Lemma leb_not_ltb (x y : float) :
  (x <=? y)%float = true -> (y <? x)%float = false.
Proof.
  rewrite leb_spec, ltb_spec. unfold SFleb, SFltb.
  rewrite (SFcompare_antisym (Prim2SF x) (Prim2SF y)).
  destruct (SFcompare (Prim2SF x) (Prim2SF y)) as [[| |]|]; cbn; congruence.
Qed.

End Numbers.

(* --------------------------------------------------------------------- *)
(** ** The safety flag *)
(* --------------------------------------------------------------------- *)

Section SafetyFlag.

Lemma some_tier_spec n fs : some_tier n fs = true <-> has_tier n fs.
Proof.
  unfold some_tier, has_tier. rewrite existsb_exists.
  split; intros (f & Hin & Ht); exists f; split; auto; lia.
Qed.

Lemma some_tier_false n fs : some_tier n fs = false <-> ~ has_tier n fs.
Proof.
  rewrite <- some_tier_spec. destruct (some_tier n fs); split; congruence.
Qed.

Lemma flag_cases fs :
  flag (determineSafetyFlag fs) =
    if some_tier 1 fs then RED else if some_tier 2 fs then YELLOW else GREEN.
Proof.
  destruct fs as [|f fs]; [reflexivity|].
  unfold determineSafetyFlag.
  destruct (some_tier 1 (f :: fs)); [reflexivity|].
  destruct (some_tier 2 (f :: fs)); reflexivity.
Qed.

Lemma some_tier_insert n pre f post :
  some_tier n (pre ++ f :: post) = (tier f =? n)%Z || some_tier n (pre ++ post).
Proof.
  unfold some_tier. rewrite !existsb_app. simpl.
  destruct (existsb _ pre), (tier f =? n)%Z; reflexivity.
Qed.

Lemma flag_iff fs :
  (flag (determineSafetyFlag fs) = RED <-> has_tier 1 fs) /\
  (flag (determineSafetyFlag fs) = YELLOW <-> ~ has_tier 1 fs /\ has_tier 2 fs) /\
  (flag (determineSafetyFlag fs) = GREEN <-> ~ has_tier 1 fs /\ ~ has_tier 2 fs).
Proof.
  rewrite flag_cases, <- !some_tier_false, <- !some_tier_spec.
  destruct (some_tier 1 fs), (some_tier 2 fs); intuition congruence.
Qed.

Lemma tier3_only_no_tier n fs :
  n <> 3%Z -> (forall f, In f fs -> tier f = 3%Z) -> ~ has_tier n fs.
Proof. intros Hn Hall (f & Hin & Ht). apply Hall in Hin. congruence. Qed.

Lemma flag_insert_critical pre post f :
  tier f = 1%Z -> flag (determineSafetyFlag (pre ++ f :: post)) = RED.
Proof.
  intros Hf. rewrite flag_cases, some_tier_insert, Hf. reflexivity.
Qed.

(** C1. The flag is a priority reduction over the tiers of the findings:
    RED exactly when some finding has tier 1, YELLOW exactly when none has
    tier 1 and some has tier 2, GREEN exactly when none has tier 1 or 2
    (so on the empty list and on tier-3-only lists); and inserting a
    tier-1 finding anywhere into a list never lowers its flag. *)
Theorem determineSafetyFlag_priority :
  (forall fs : list Finding,
    (flag (determineSafetyFlag fs) = RED <-> has_tier 1 fs) /\
    (flag (determineSafetyFlag fs) = YELLOW <->
       ~ has_tier 1 fs /\ has_tier 2 fs) /\
    (flag (determineSafetyFlag fs) = GREEN <->
       ~ has_tier 1 fs /\ ~ has_tier 2 fs) /\
    ((forall f, In f fs -> tier f = 3%Z) ->
       flag (determineSafetyFlag fs) = GREEN)) /\
  flag (determineSafetyFlag []) = GREEN /\
  (forall (pre post : list Finding) (f : Finding),
     tier f = 1%Z ->
     flag_rank (flag (determineSafetyFlag (pre ++ post))) <=
     flag_rank (flag (determineSafetyFlag (pre ++ f :: post)))).
Proof.
  split; [|split].
  - intros fs. destruct (flag_iff fs) as (Hr & Hy & Hg).
    split; [exact Hr|]. split; [exact Hy|]. split; [exact Hg|].
    intros Hall. apply Hg.
    split; apply tier3_only_no_tier; auto; discriminate.
  - reflexivity.
  - intros pre post f Hf. rewrite (flag_insert_critical pre post f Hf).
    destruct (flag (determineSafetyFlag (pre ++ post))); simpl; lia.
Qed.

(** The theorem at a concrete list: a dietary finding alone is GREEN, and
    putting a critical finding in front of it gives RED. *)
Lemma determineSafetyFlag_priority_witness :
  let diet := mkFinding 3 "Grapefruit" "d" None "r" in
  let crit := mkFinding 1 "aspirin" "d" None "r" in
  flag (determineSafetyFlag [diet]) = GREEN /\
  flag_rank (flag (determineSafetyFlag ([] ++ [diet]))) <=
  flag_rank (flag (determineSafetyFlag ([] ++ crit :: [diet]))).
Proof.
  intros diet crit. split.
  - apply (proj1 determineSafetyFlag_priority [diet]).
    intros f [<-|[]]. reflexivity.
  - apply (proj2 (proj2 determineSafetyFlag_priority) [] [diet] crit).
    reflexivity.
Defined.

End SafetyFlag.

(* --------------------------------------------------------------------- *)
(** ** Name validation *)
(* --------------------------------------------------------------------- *)

Section NameValidation.

Lemma usable_guard name :
  usable name ->
  String.eqb name "" || String.eqb name CLARIFICATION_NEEDED = false.
Proof.
  intros [H1 H2]. apply orb_false_iff.
  split; apply String.eqb_neq; assumption.
Qed.

Lemma scan_step_inv name seen st c :
  scan_inv name seen st -> scan_inv name (seen ++ [c]) (scan_step name st c).
Proof.
  intros Hinv. unfold scan_step.
  destruct (candidateName c) as [n|] eqn:Hn.
  - destruct (below (distance name n) (snd st) && (0.6 <? similarity name n)%float) eqn:Htest.
    + apply andb_true_iff in Htest as [Hlt Hacc].
      simpl. repeat split; auto.
      * exists c. split; [apply in_or_app; right; left; reflexivity|]. auto.
      * intros c' n' Hin Hn' Hacc'.
        apply in_app_or in Hin as [Hin|[<-|[]]].
        -- destruct st as [[b|] [d|]]; simpl in *; try contradiction.
           ++ destruct Hinv as (_ & _ & _ & _ & Hmin).
              specialize (Hmin c' n' Hin Hn' Hacc').
              apply Nat.ltb_lt in Hlt. lia.
           ++ exfalso. exact (Hinv c' n' Hin Hn' Hacc').
        -- rewrite Hn in Hn'. injection Hn' as <-. lia.
    + destruct st as [[b|] [d|]]; simpl in *; try contradiction.
      * destruct Hinv as (Hd & Hc & Ha & (c0 & Hin0 & Hn0 & Hr0) & Hmin).
        repeat split; auto.
        -- exists c0. split; [apply in_or_app; left; assumption|]. auto.
        -- intros c' n' Hin Hn' Hacc'.
           apply in_app_or in Hin as [Hin|[<-|[]]]; [eauto|].
           rewrite Hn in Hn'. injection Hn' as <-.
           unfold acceptable in Hacc'. rewrite Hacc', andb_true_r in Htest.
           apply Nat.ltb_ge in Htest. exact Htest.
      * intros c' n' Hin Hn' Hacc'.
        apply in_app_or in Hin as [Hin|[<-|[]]]; [exact (Hinv c' n' Hin Hn' Hacc')|].
        rewrite Hn in Hn'. injection Hn' as <-.
        unfold acceptable in Hacc'. rewrite Hacc' in Htest. discriminate.
  - destruct st as [[b|] [d|]]; simpl in *; try contradiction.
    + destruct Hinv as (Hd & Hc & Ha & (c0 & Hin0 & Hn0 & Hr0) & Hmin).
      repeat split; auto.
      * exists c0. split; [apply in_or_app; left; assumption|]. auto.
      * intros c' n' Hin Hn' Hacc'.
        apply in_app_or in Hin as [Hin|[<-|[]]]; [eauto|congruence].
    + intros c' n' Hin Hn' Hacc'.
      apply in_app_or in Hin as [Hin|[<-|[]]]; [exact (Hinv c' n' Hin Hn' Hacc')|congruence].
Qed.

Lemma fold_scan_inv name cs : forall seen st,
  scan_inv name seen st ->
  scan_inv name (seen ++ cs) (fold_left (scan_step name) cs st).
Proof.
  induction cs as [|c cs IH]; intros seen st Hinv; simpl.
  - rewrite app_nil_r. exact Hinv.
  - replace (seen ++ c :: cs) with ((seen ++ [c]) ++ cs)
      by (rewrite <- app_assoc; reflexivity).
    apply IH, scan_step_inv, Hinv.
Qed.

(** The loop returns the first candidate of least distance among the
    acceptable ones, and nothing exactly when none is acceptable. *)
Lemma scan_spec name cs :
  match scan name cs with
  | Some b =>
      best_confidence b = similarity name (best_name b) /\
      acceptable name (best_name b) /\
      (exists c, In c cs /\ candidateName c = Some (best_name b) /\
                 best_rxcui b = candidateRxcui c) /\
      (forall c n, In c cs -> candidateName c = Some n -> acceptable name n ->
                   distance name (best_name b) <= distance name n)
  | None =>
      forall c n, In c cs -> candidateName c = Some n -> ~ acceptable name n
  end.
Proof.
  unfold scan.
  assert (H0 : scan_inv name [] (None, None)) by (intros c n []).
  pose proof (fold_scan_inv name cs [] (None, None) H0) as H.
  simpl in H.
  destruct (fold_left (scan_step name) cs (None, None)) as [[b|] [d|]];
    simpl in *; try contradiction.
  - destruct H as (-> & Hc & Ha & Hex & Hmin). auto.
  - exact H.
Qed.

Lemma suggestions_of_spec cs :
  length (suggestions_of cs) <= 3 /\
  forall s, In s (suggestions_of cs) ->
    exists c, In c (firstn 3 cs) /\
              (c = CandString s \/ exists rx, c = CandObject (Some s) rx).
Proof.
  unfold suggestions_of. split.
  - assert (Hlen : length (firstn 3 cs) <= 3) by apply firstn_le_length.
    revert Hlen. generalize (firstn 3 cs) as l. intros l.
    generalize 3 as k. induction l as [|c l IH]; intros k Hk; simpl; [lia|].
    rewrite length_app. destruct k as [|k]; [simpl in Hk; lia|].
    simpl in Hk. specialize (IH k ltac:(lia)).
    destruct c as [s|[s|] rx]; simpl.
    + destruct (String.eqb s ""); simpl; lia.
    + destruct (negb (String.eqb s "")); simpl; lia.
    + lia.
  - intros s Hin. apply in_flat_map in Hin as (c & Hc & Hs).
    exists c. split; [assumption|].
    destruct c as [s0|[s0|] rx]; simpl in Hs.
    + destruct (String.eqb s0 ""); [destruct Hs|].
      destruct Hs as [<-|[]]. left. reflexivity.
    + unfold truthy, or_else in Hs.
      destruct (String.eqb s0 ""); simpl in Hs; [destruct Hs|].
      destruct Hs as [<-|[]]. right. exists rx. reflexivity.
    + destruct Hs.
Qed.


Lemma validate_exact_hit svc name first :
  usable name -> exact_hit svc name = Some first ->
  validateAndNormalizeDrugName svc (Some name) =
    {| valid := true; originalName := Some name;
       correctedName := concept_name first;
       confidence := 1;
       validation_rxcui := concept_rxcui first;
       wasCorrected := false; suggestions := None |}.
Proof.
  intros Hname Hhit. unfold validateAndNormalizeDrugName, exact_hit in *.
  rewrite (usable_guard name Hname).
  destruct (found (lookupDrug svc name)); [|discriminate].
  destruct (concepts (lookupDrug svc name)) as [[|c0 l]|]; try discriminate.
  injection Hhit as ->. reflexivity.
Qed.

Lemma validate_exact_miss svc name :
  usable name -> exact_hit svc name = None ->
  validateAndNormalizeDrugName svc (Some name) =
    match approximateTerm_json svc name with
    | Throw _ => rejected (Some name)
    | Ok candidates =>
        let cs := match candidates with Some cs => cs | None => [] end in
        match scan name cs with
        | Some best =>
            {| valid := true; originalName := Some name;
               correctedName := Some (best_name best);
               confidence := best_confidence best;
               validation_rxcui := best_rxcui best;
               wasCorrected := true; suggestions := None |}
        | None =>
            {| valid := false; originalName := Some name;
               correctedName := None; confidence := 0;
               validation_rxcui := None; wasCorrected := false;
               suggestions := Some (suggestions_of cs) |}
        end
    end.
Proof.
  intros Hname Hmiss. unfold validateAndNormalizeDrugName, exact_hit in *.
  rewrite (usable_guard name Hname).
  destruct (found (lookupDrug svc name)).
  - destruct (concepts (lookupDrug svc name)) as [[|c0 l]|]; try discriminate.
    all: destruct (approximateTerm_json svc name) as [[cs|]|]; reflexivity.
  - destruct (approximateTerm_json svc name) as [[cs|]|]; reflexivity.
Qed.

(** C3, as stated, fails on a name written in capitals: the code compares
    the lower-cased spellings, so "lisinopril" is accepted for
    "LISTNOPRIL" with confidence 0.9, while the similarity computed on the
    spellings as they are is 0, which is not above 0.6 and is not the
    confidence returned. *)
Lemma validator_scores_case_insensitively :
  let r := validateAndNormalizeDrugName
             (spelling_service [CandObject (Some "lisinopril") (Some "29046")])
             (Some "LISTNOPRIL") in
  valid r = true /\ wasCorrected r = true /\
  correctedName r = Some "lisinopril" /\
  confidence r = 0.9%float /\
  similarity_as_stated "LISTNOPRIL" "lisinopril" = 0%float /\
  (0.6 <? similarity_as_stated "LISTNOPRIL" "lisinopril")%float = false /\
  (confidence r =? similarity_as_stated "LISTNOPRIL" "lisinopril")%float = false.
Proof.
  vm_compute. repeat split; reflexivity.
Qed.

(** C3 (amended). For every name that is neither empty nor the unreadable
    marker: on an exact lookup hit the result is valid with confidence 1
    and is not marked as corrected; otherwise each candidate of the
    approximate search is scored by
    1 - distance(lower(input), lower(candidate)) / max(len input, len candidate),
    the result is marked as corrected exactly when some candidate scores
    above 0.6, and then it carries a candidate of least distance among
    those, with that candidate's similarity as confidence; when no
    candidate scores above 0.6 the result is invalid and its suggestions
    are at most three, each taken from the first three hits (and none at
    all when the approximate search itself is rejected). *)
Theorem validateAndNormalizeDrugName_behaviour :
  forall (svc : Terminology) (name : string),
    usable name ->
    let r := validateAndNormalizeDrugName svc (Some name) in
    (forall cname,
       similarity name cname =
         (1 - number (levenshteinDistance (toLowerCase name) (toLowerCase cname)) /
              number (Nat.max (String.length name) (String.length cname)))%float) /\
    (forall first, exact_hit svc name = Some first ->
       valid r = true /\ confidence r = 1%float /\ wasCorrected r = false /\
       originalName r = Some name /\ correctedName r = concept_name first) /\
    (forall cands, exact_hit svc name = None ->
       approximateTerm_json svc name = Ok cands ->
       let cs := match cands with Some cs => cs | None => [] end in
       (wasCorrected r = true <->
          exists c n, In c cs /\ candidateName c = Some n /\ acceptable name n) /\
       (wasCorrected r = true ->
          valid r = true /\ originalName r = Some name /\
          exists c n,
            In c cs /\ candidateName c = Some n /\
            correctedName r = Some n /\
            confidence r = similarity name n /\
            acceptable name n /\
            (forall c' n', In c' cs -> candidateName c' = Some n' ->
                           acceptable name n' ->
                           distance name n <= distance name n')) /\
       (wasCorrected r = false ->
          valid r = false /\
          exists sugg, suggestions r = Some sugg /\ length sugg <= 3 /\
            forall s, In s sugg ->
              exists c, In c (firstn 3 cs) /\
                (c = CandString s \/ exists rx, c = CandObject (Some s) rx))) /\
    (forall e, exact_hit svc name = None ->
       approximateTerm_json svc name = Throw e ->
       valid r = false /\ wasCorrected r = false /\ suggestions r = None).
Proof.
  intros svc name Hname r.
  split; [reflexivity|]. split; [|split].
  - intros first Hhit. subst r.
    rewrite (validate_exact_hit svc name first Hname Hhit). simpl. auto.
  - intros cands Hmiss Happrox cs. subst r.
    rewrite (validate_exact_miss svc name Hname Hmiss), Happrox.
    cbv zeta. fold cs.
    pose proof (scan_spec name cs) as Hspec.
    destruct (scan name cs) as [b|]; simpl.
    + destruct Hspec as (Hconf & Hacc & (c & Hin & Hn & Hrx) & Hmin).
      split; [|split].
      * split; [|reflexivity]. intros _. eauto.
      * intros _. split; [reflexivity|]. split; [reflexivity|].
        exists c, (best_name b). auto 10.
      * discriminate.
    + split; [|split].
      * split; [discriminate|].
        intros (c & n & Hin & Hn & Hacc). exfalso. exact (Hspec c n Hin Hn Hacc).
      * discriminate.
      * intros _. split; [reflexivity|].
        exists (suggestions_of cs).
        destruct (suggestions_of_spec cs) as [Hlen Hfrom]. auto.
  - intros e Hmiss Happrox. subst r.
    rewrite (validate_exact_miss svc name Hname Hmiss), Happrox.
    repeat split; reflexivity.
Qed.

(** The theorem at "Listnopril", with the candidates "Lisinopril" and
    "Lisdexamfetamine" on offer and no exact match. *)
Lemma validateAndNormalizeDrugName_behaviour_witness :
  let svc := spelling_service [CandObject (Some "Lisdexamfetamine") (Some "700810");
                               CandObject (Some "Lisinopril") (Some "29046")] in
  let r := validateAndNormalizeDrugName svc (Some "Listnopril") in
  usable "Listnopril" /\
  wasCorrected r = true /\
  exists c n,
    candidateName c = Some n /\ correctedName r = Some n /\
    confidence r = similarity "Listnopril" n.
Proof.
  intros svc r.
  assert (Hu : usable "Listnopril") by (split; discriminate).
  split; [exact Hu|].
  destruct (validateAndNormalizeDrugName_behaviour svc "Listnopril" Hu)
    as (_ & _ & Happrox & _).
  destruct (Happrox (Some [CandObject (Some "Lisdexamfetamine") (Some "700810");
                           CandObject (Some "Lisinopril") (Some "29046")])
              eq_refl eq_refl) as (_ & Hacc & _).
  assert (Hw : wasCorrected r = true) by reflexivity.
  split; [exact Hw|].
  destruct (Hacc Hw) as (_ & _ & c & n & _ & Hn & Hc & Hconf & _).
  exists c, n. auto.
Defined.

End NameValidation.

(* --------------------------------------------------------------------- *)
(** ** Interaction checks and the static fallback *)
(* --------------------------------------------------------------------- *)

Section Interactions.

Lemma dietary_plain drugName :
  plain_key drugName ->
  getDietaryInteractions drugName = Own (dietary_findings drugName).
Proof.
  unfold plain_key, getDietaryInteractions, dietary_findings, js_get.
  intros Hk. destruct (own dietaryMap (toLowerCase drugName)); [reflexivity|].
  rewrite Hk. reflexivity.
Qed.

(** On a plain key the fallback returns: one tier-1 finding per current
    medication listed as a partner of the drug, in order, followed by the
    dietary findings. *)
Lemma getFallbackInteractions_plain drugName currentMeds :
  plain_key drugName ->
  getFallbackInteractions drugName currentMeds =
    Ok (map (known_finding drugName)
            (List.filter (fun med => array_includes (known_partners drugName) (toLowerCase med))
                    currentMeds)
        ++ dietary_findings drugName).
Proof.
  intros Hk. unfold getFallbackInteractions.
  rewrite (dietary_plain drugName Hk). simpl spread.
  unfold known_partners, js_get.
  destruct (own knownInteractions (toLowerCase drugName)) as [partners|].
  - cbn [mbind result_bind]. f_equal. f_equal.
    induction currentMeds as [|med meds IH]; [reflexivity|].
    cbn [flat_map List.filter].
    destruct (array_includes partners (toLowerCase med)); cbn; rewrite IH; reflexivity.
  - rewrite Hk. cbn [mbind result_bind]. f_equal. f_equal.
    induction currentMeds as [|med meds IH]; [reflexivity|].
    cbn [List.filter array_includes existsb]. exact IH.
Qed.

(** On a plain key [checkInteractions] always returns, and it returns the
    fallback findings whenever the identifier lookup yields nothing or the
    interaction request is rejected. *)
Lemma checkInteractions_plain svc drugName currentMeds :
  plain_key drugName ->
  (exists l, checkInteractions svc drugName currentMeds = Ok l) /\
  (truthy (getRxCUI svc drugName) = false ->
     checkInteractions svc drugName currentMeds =
     getFallbackInteractions drugName currentMeds) /\
  (forall e, interaction_json svc (or_else (getRxCUI svc drugName) "") = Throw e ->
     checkInteractions svc drugName currentMeds =
     getFallbackInteractions drugName currentMeds) /\
  (forall e, interaction_list_json svc
               (or_else (getRxCUI svc drugName) "" :: med_rxcuis svc currentMeds) = Throw e ->
     currentMeds <> [] -> med_rxcuis svc currentMeds <> [] ->
     truthy (getRxCUI svc drugName) = true ->
     checkInteractions svc drugName currentMeds =
     getFallbackInteractions drugName currentMeds).
Proof.
  intros Hk.
  pose proof (getFallbackInteractions_plain drugName currentMeds Hk) as Hfb.
  unfold checkInteractions, checkInteractions_try.
  destruct (truthy (getRxCUI svc drugName)) eqn:Hrx; cbn [negb].
  - split; [|split; [|split]].
    + destruct (interaction_json svc (or_else (getRxCUI svc drugName) ""))
        as [groups|e]; cbn [mbind result_bind try_catch]; [|rewrite Hfb; eauto].
      match goal with
      | |- exists l, try_catch ?r _ = _ => destruct r; cbn [try_catch]
      end; [eauto|rewrite Hfb; eauto].
    + discriminate.
    + intros e He. rewrite He. reflexivity.
    + intros e He Hmeds Hids _.
      destruct (interaction_json svc (or_else (getRxCUI svc drugName) ""))
        as [groups|e']; cbn [mbind result_bind try_catch]; [|reflexivity].
      destruct currentMeds as [|m ms]; [contradiction|].
      destruct (med_rxcuis svc (m :: ms)) as [|i is_] eqn:Hm; [contradiction|].
      cbn [length Nat.ltb Nat.leb]. rewrite He. reflexivity.
  - split; [|split; [|split]].
    + rewrite Hfb. cbn [try_catch]. eauto.
    + intros _. rewrite Hfb. reflexivity.
    + intros e _. rewrite Hfb. reflexivity.
    + intros e _ _ _ Habs. discriminate Habs.
Qed.

(** The example of the fallback table: warfarin for a patient on aspirin,
    with the services unreachable. *)
Example warfarin_aspirin_unreachable :
  exists l, checkInteractions unreachable "Warfarin" ["Aspirin"] = Ok l /\
            map tier l = [1%Z; 2%Z] /\ map drug l = ["Aspirin"; "Vitamin K foods"].
Proof. eexists. split; [reflexivity|]. split; reflexivity. Qed.

(** The table is read from the new drug to the current medications only:
    aspirin for a patient on warfarin finds nothing. *)
Example aspirin_warfarin_unreachable :
  checkInteractions unreachable "Aspirin" ["Warfarin"] = Ok [].
Proof. reflexivity. Qed.

Lemma fallback_inherited_key_throws currentMeds :
  getFallbackInteractions "constructor" currentMeds = Throw TypeError.
Proof. destruct currentMeds; reflexivity. Qed.

(** C8, evaluated where it fails. For the drug name "constructor" the two
    static tables answer with a property inherited from [Object.prototype]
    instead of [undefined]; the [try] block cannot complete, the fallback
    called from the [catch] throws as well, and [checkInteractions]
    rejects with a [TypeError] whatever the services answer. *)
Theorem checkInteractions_inherited_key_throws :
  forall (svc : Terminology) (currentMeds : list string),
    checkInteractions svc "constructor" currentMeds = Throw TypeError.
Proof.
  intros svc currentMeds. unfold checkInteractions.
  assert (Htry : exists e, checkInteractions_try svc "constructor" currentMeds = Throw e).
  { unfold checkInteractions_try.
    destruct (truthy (getRxCUI svc "constructor")); cbn [negb].
    - destruct (interaction_json svc _) as [groups|e];
        cbn [mbind result_bind]; [|eauto].
      match goal with
      | |- exists e, mbind _ ?r = _ => destruct r as [withMeds|e]
      end; cbn [mbind result_bind]; eauto.
    - rewrite fallback_inherited_key_throws. eauto. }
  destruct Htry as [e ->]. cbn [try_catch].
  apply fallback_inherited_key_throws.
Qed.

End Interactions.

(* --------------------------------------------------------------------- *)
(** ** Age warnings and the overall severity *)
(* --------------------------------------------------------------------- *)

Section EnhancedSafety.

Lemma diphenhydramine_no_dose_alerts dosageString :
  checkDosageAlerts "diphenhydramine" dosageString = Ok [].
Proof.
  unfold checkDosageAlerts. destruct (match_mg dosageString); reflexivity.
Qed.

(** C9. For a patient aged 70 taking diphenhydramine, [checkAgeWarnings]
    returns one warning, of category "elderly" and severity "moderate";
    whatever the dosage and the other medications,
    [comprehensiveSafetyCheck] reports that warning and the overall
    severity "moderate"; and with no interaction finding the safety flag
    is GREEN. *)
Theorem elderly_diphenhydramine_scenario :
  checkAgeWarnings "diphenhydramine" 70 =
    [ {| category := "elderly"; age_severity := "moderate";
         warning := "Can cause confusion and dizziness in seniors";
         alternatives := Some "Consider non-drowsy alternatives";
         age_note := None |} ] /\
  (forall (dosage : option string) (currentMeds : list string),
     exists report,
       comprehensiveSafetyCheck "diphenhydramine" dosage (Some 70%Z) currentMeds = Ok report /\
       ageWarnings report = checkAgeWarnings "diphenhydramine" 70 /\
       hasFoodInteraction (foodInteractions report) = false /\
       dosageAlerts report = [] /\
       overallSeverity report = "moderate") /\
  flag (determineSafetyFlag []) = GREEN.
Proof.
  split; [reflexivity|]. split; [|reflexivity].
  intros dosage currentMeds. unfold comprehensiveSafetyCheck.
  destruct (truthy dosage).
  - rewrite diphenhydramine_no_dose_alerts. eexists. split; [reflexivity|].
    repeat split; reflexivity.
  - eexists. split; [reflexivity|]. repeat split; reflexivity.
Qed.

End EnhancedSafety.

(* --------------------------------------------------------------------- *)
(** ** The readability gate of the nudge generator *)
(* --------------------------------------------------------------------- *)

Section ReadabilityGate.

Lemma fails_gate_not_plain text :
  fails_gate text -> isPlain (validatePlainLanguage text) = false.
Proof.
  unfold validatePlainLanguage, fails_gate. cbn [isPlain].
  rewrite andb_false_iff. intros [Hg|Hj].
  - left. destruct (_ <=? 8)%float eqn:E; [|reflexivity].
    apply leb_not_ltb in E. congruence.
  - right. destruct (detectMedicalJargon text); [contradiction|reflexivity].
Qed.

Lemma named_guard extractedData :
  named extractedData ->
  negb (truthy (drug_name extractedData)) ||
  String.eqb (or_else (drug_name extractedData) "") DrugService.CLARIFICATION_NEEDED
  = false.
Proof.
  intros (n & -> & Hne & Hs). cbn [truthy or_else].
  apply String.eqb_neq in Hne. rewrite Hne. cbn [negb orb].
  apply String.eqb_neq. exact Hs.
Qed.

(** C4, as stated, fails on both counts. "renal" is in the jargon table
    but not in the substitution table: the text fails the gate, the card
    is simplified, and the card that is emitted still contains "renal".
    And substituting words does not shorten a sentence: a jargon-free
    sentence of grade 18.7 is emitted as it is. Neither card is the
    minimal card. *)
Lemma simplified_card_still_fails_gate :
  (fails_gate (fullText renal_json) /\
   exists card,
     generateCard (answering renal_json) lisinopril_10mg no_context
                  ([] : list Finding) = Ok card /\
     plain_instruction card = "Take it for renal care." /\
     detectMedicalJargon (card_text card) = ["renal"] /\
     card <> minimal_card lisinopril_10mg ([] : list Finding)) /\
  (fails_gate (fullText wordy_json) /\
   exists card,
     generateCard (answering wordy_json) lisinopril_10mg no_context
                  ([] : list Finding) = Ok card /\
     detectMedicalJargon (card_text card) = [] /\
     (8 <? calculateFleschKincaid (card_text card))%float = true /\
     (calculateFleschKincaid (card_text card) <=? 8)%float = false /\
     card <> minimal_card lisinopril_10mg ([] : list Finding)).
Proof.
  split.
  - split; [right; vm_compute; discriminate|].
    eexists. split; [vm_compute; reflexivity|].
    split; [reflexivity|]. split; [vm_compute; reflexivity|].
    intros H. discriminate H.
  - split; [left; vm_compute; reflexivity|].
    eexists. split; [vm_compute; reflexivity|].
    split; [vm_compute; reflexivity|].
    split; [vm_compute; reflexivity|].
    split; [vm_compute; reflexivity|].
    intros H. discriminate H.
Qed.

(** C4 (amended). When the generated text fails the gate, the card that
    is emitted is the generated card with every field passed through
    [simplifyText], and it is emitted without being scored again; when no
    backend is configured or the generation throws, the minimal card is
    emitted. *)
Theorem generateCard_simplifies_once :
  forall (llm : LanguageModel) (extractedData : ExtractedData)
         (patientContext : PatientContext)
         (interactions : list DrugService.Finding),
    named extractedData ->
    (forall json,
       api_key_configured llm = true ->
       complete llm extractedData patientContext = Ok json ->
       fails_gate (fullText json) ->
       exists card,
         generateCard llm extractedData patientContext interactions = Ok card /\
         headline card = simplifyText (or_else (json_headline json) "") /\
         plain_instruction card = simplifyText (or_else (json_plain_instruction json) "") /\
         the_why card = simplifyText (or_else (json_the_why json) "") /\
         habit_hook card = simplifyText (or_else (json_habit_hook json) "") /\
         warning_label card =
           simplifyText (or_else (json_warning_label json)
                                 (interaction_label interactions))) /\
    (api_key_configured llm = false \/
     (exists e, complete llm extractedData patientContext = Throw e) ->
     generateCard llm extractedData patientContext interactions =
       Ok (minimal_card extractedData interactions)).
Proof.
  intros llm extractedData patientContext interactions Hnamed.
  unfold generateCard. rewrite (named_guard extractedData Hnamed).
  split.
  - intros json Hkey Hjson Hfail. rewrite Hkey, Hjson.
    apply fails_gate_not_plain in Hfail.
    cbn [negb mbind result_bind]. rewrite Hfail. cbn [negb try_catch].
    exists (simplified_card json interactions). repeat split; reflexivity.
  - intros [Hkey|[e He]].
    + rewrite Hkey. reflexivity.
    + destruct (api_key_configured llm); [|reflexivity].
      rewrite He. reflexivity.
Qed.

(** The theorem on the card whose text mentions hypertension. *)
Lemma generateCard_simplifies_once_witness :
  let json := {| json_headline := Some "Daily pill";
                 json_plain_instruction := Some "Take it for hypertension.";
                 json_the_why := None; json_habit_hook := None;
                 json_warning_label := None |} in
  named lisinopril_10mg /\
  fails_gate (fullText json) /\
  exists card,
    generateCard (answering json) lisinopril_10mg no_context
                 ([] : list DrugService.Finding) = Ok card /\
    plain_instruction card = "Take it for high blood pressure.".
Proof.
  intros json.
  assert (Hn : named lisinopril_10mg).
  { exists "Lisinopril". split; [reflexivity|]. split; discriminate. }
  assert (Hf : fails_gate (fullText json)).
  { right. vm_compute. discriminate. }
  split; [exact Hn|]. split; [exact Hf|].
  destruct (proj1 (generateCard_simplifies_once (answering json) lisinopril_10mg
                     no_context [] Hn) json eq_refl eq_refl Hf)
    as (card & Hcard & _ & Hpi & _).
  exists card. split; [exact Hcard|]. rewrite Hpi. vm_compute. reflexivity.
Defined.

End ReadabilityGate.

(* --------------------------------------------------------------------- *)
(** ** The extraction route: what happens to each candidate *)
(* --------------------------------------------------------------------- *)

Section Candidates.

Lemma unreadable_false c :
  unreadable c = false ->
  exists n, drug_name c = Some n /\ usable n.
Proof.
  unfold unreadable, usable. intros H.
  apply orb_false_iff in H as [Ht Hs].
  destruct (drug_name c) as [n|]; [|discriminate].
  exists n. split; [reflexivity|]. cbn in Ht, Hs.
  destruct (String.eqb n "") eqn:E; [discriminate|].
  apply String.eqb_neq in E. apply String.eqb_neq in Hs. auto.
Qed.

Lemma process_candidate_rejected svc meds patientAge c :
  accepted svc c = false ->
  process_candidate svc meds patientAge c = Ok (Rejected (failure_of svc c)).
Proof.
  unfold accepted, process_candidate, failure_of. fold (unreadable c).
  destruct (unreadable c); [reflexivity|]. cbn [negb andb].
  intros ->. reflexivity.
Qed.

Lemma process_candidate_accepted svc meds patientAge c o :
  accepted svc c = true ->
  process_candidate svc meds patientAge c = Ok o ->
  exists m, o = Processed m /\ extracted_data m = renamed svc c /\
            patient_facing_card m = None.
Proof.
  unfold accepted, process_candidate, renamed. fold (unreadable c).
  destruct (unreadable c); [discriminate|]. cbn [negb andb].
  intros ->. cbn [negb].
  match goal with
  | |- (mbind _ ?r) = _ -> _ => destruct r as [ints|e]
  end; cbn [mbind result_bind]; [|discriminate].
  match goal with
  | |- (mbind _ ?r) = _ -> _ => destruct r as [enh|e]
  end; cbn [mbind result_bind]; [|discriminate].
  intros [= <-]. eexists. split; [reflexivity|]. split; reflexivity.
Qed.

(** The loop visits the candidates in order: the accepted ones are
    renamed and processed, the others are recorded as failures. *)
Lemma process_candidates_spec svc meds patientAge cs : forall acc loop,
  process_candidates svc meds patientAge cs acc = Ok loop ->
  map extracted_data (processedMedications loop) =
    map extracted_data (processedMedications acc) ++
    map (renamed svc) (List.filter (accepted svc) cs) /\
  failedList loop =
    failedList acc ++
    map (failure_of svc) (List.filter (fun c => negb (accepted svc c)) cs) /\
  visited loop =
    visited acc ++
    map (fun c => if accepted svc c then renamed svc c else c) cs /\
  (Forall (fun m => patient_facing_card m = None) (processedMedications acc) ->
   Forall (fun m => patient_facing_card m = None) (processedMedications loop)).
Proof.
  induction cs as [|c cs IH]; intros acc loop Hrun; cbn [process_candidates] in Hrun.
  - injection Hrun as <-. cbn. rewrite !app_nil_r. auto.
  - destruct (process_candidate svc meds patientAge c) as [o|e] eqn:Hc;
      cbn [mbind result_bind] in Hrun; [|discriminate].
    specialize (IH _ _ Hrun). cbn [List.filter map].
    destruct (accepted svc c) eqn:Hacc; cbn [negb].
    + destruct (process_candidate_accepted svc meds patientAge c o Hacc Hc)
        as (m & -> & Hm & Hcard).
      cbn [record_outcome processedMedications failedList visited] in IH.
      rewrite !map_app in IH. cbn [map] in IH. rewrite Hm in IH.
      rewrite <- !app_assoc in IH. cbn [app] in IH.
      destruct IH as (Hp & Hf & Hv & Hn).
      repeat split; auto.
      intros Hall. apply Hn. apply Forall_app. split; [assumption|].
      constructor; [assumption|constructor].
    + rewrite (process_candidate_rejected svc meds patientAge c Hacc) in Hc.
      injection Hc as <-.
      cbn [record_outcome processedMedications failedList visited] in IH.
      rewrite <- !app_assoc in IH. cbn [app] in IH. exact IH.
Qed.

(** When no candidate is accepted the loop cannot throw. *)
Lemma process_candidates_none_accepted svc meds patientAge cs : forall acc,
  Forall (fun c => accepted svc c = false) cs ->
  process_candidates svc meds patientAge cs acc =
    Ok {| processedMedications := processedMedications acc;
          allInteractions := allInteractions acc;
          failedList := failedList acc ++ map (failure_of svc) cs;
          visited := visited acc ++ cs |}.
Proof.
  induction cs as [|c cs IH]; intros acc Hall; cbn [process_candidates].
  - cbn. rewrite !app_nil_r. destruct acc; reflexivity.
  - inversion Hall as [|? ? Hc Hrest]; subst.
    rewrite (process_candidate_rejected svc meds patientAge c Hc).
    cbn [mbind result_bind]. rewrite (IH _ Hrest).
    cbn [record_outcome processedMedications allInteractions failedList visited map].
    rewrite <- !app_assoc. reflexivity.
Qed.

(** What validation says of a name it marks as corrected. *)
Lemma corrected_validation svc name :
  wasCorrected (validateAndNormalizeDrugName svc name) = true ->
  exists n cands c cname,
    name = Some n /\ usable n /\
    approximateTerm_json svc n = Ok cands /\
    In c (match cands with Some cs => cs | None => [] end) /\
    candidateName c = Some cname /\
    valid (validateAndNormalizeDrugName svc name) = true /\
    originalName (validateAndNormalizeDrugName svc name) = Some n /\
    correctedName (validateAndNormalizeDrugName svc name) = Some cname /\
    confidence (validateAndNormalizeDrugName svc name) = similarity n cname /\
    acceptable n cname.
Proof.
  destruct name as [n|]; [|discriminate].
  destruct (String.eqb n "" || String.eqb n CLARIFICATION_NEEDED) eqn:Hg.
  { unfold validateAndNormalizeDrugName. rewrite Hg. discriminate. }
  assert (Hu : usable n).
  { apply orb_false_iff in Hg as [H1 H2].
    split; apply String.eqb_neq; assumption. }
  destruct (exact_hit svc n) as [first|] eqn:Hhit.
  { rewrite (validate_exact_hit svc n first Hu Hhit). discriminate. }
  rewrite (validate_exact_miss svc n Hu Hhit).
  destruct (approximateTerm_json svc n) as [cands|e] eqn:Happrox; [|discriminate].
  cbv zeta.
  pose proof (scan_spec n (match cands with Some cs => cs | None => [] end)) as Hspec.
  destruct (scan n _) as [b|]; [|discriminate].
  intros _. destruct Hspec as (Hconf & Hacc & (c & Hin & Hn & _) & _).
  exists n, cands, c, (best_name b). cbn. auto 12.
Qed.

Lemma candidateName_nonempty c cname :
  candidateName c = Some cname -> cname <> "".
Proof.
  destruct c as [s|[s|] rx]; cbn.
  - destruct (String.eqb s "") eqn:E; [discriminate|].
    intros [= <-]. apply String.eqb_neq. exact E.
  - destruct (String.eqb s "") eqn:E; cbn; [discriminate|].
    intros [= <-]. apply String.eqb_neq. exact E.
  - discriminate.
Qed.

(** The name kept for an accepted candidate is a non-empty string, and it
    is not the unreadable marker unless the service offered the marker. *)
Lemma kept_name_accepted svc c :
  accepted svc c = true ->
  exists n kept,
    drug_name c = Some n /\ usable n /\
    valid (validateAndNormalizeDrugName svc (Some n)) = true /\
    drug_name (renamed svc c) = Some kept /\ kept <> "" /\
    (marker_free svc -> kept <> CLARIFICATION_NEEDED).
Proof.
  unfold accepted. intros H. apply andb_true_iff in H as [Hr Hv].
  apply negb_true_iff in Hr.
  destruct (unreadable_false c Hr) as (n & Hn & Hu).
  rewrite Hn in Hv. unfold renamed. rewrite Hn. cbn [rename drug_name].
  set (v := validateAndNormalizeDrugName svc (Some n)) in *.
  unfold kept_name.
  destruct (wasCorrected v) eqn:Hw.
  - destruct (corrected_validation svc (Some n) Hw)
      as (n' & cands & cand & cname & [= <-] & _ & Happrox & Hin & Hcn & _ & Ho & Hc & _).
    fold v in Ho, Hc.
    destruct (0.85 <? confidence v)%float.
    + exists n, n. rewrite Ho. pose proof Hu as [Hu1 Hu2].
      repeat split; auto.
    + exists n, cname. rewrite Hc. pose proof Hu as [Hu1 Hu2].
      repeat split; auto.
      * exact (candidateName_nonempty cand cname Hcn).
      * intros Hfree ->. destruct cands as [cs|]; [|destruct Hin].
        exact (Hfree n cs cand Happrox Hin Hcn).
  - assert (Ho : originalName v = Some n).
    { subst v. unfold validateAndNormalizeDrugName.
      rewrite (usable_guard n Hu).
      destruct (found (lookupDrug svc n));
        [destruct (concepts (lookupDrug svc n)) as [[|c0 l]|]|];
        try reflexivity;
        destruct (approximateTerm_json svc n) as [cands|e]; try reflexivity;
        destruct (match cands with Some cs => scan n cs | None => None end);
        reflexivity. }
    exists n, n. rewrite Ho. pose proof Hu as [Hu1 Hu2].
    repeat split; auto.
Qed.

End Candidates.

(* --------------------------------------------------------------------- *)
(** ** The extraction route: responses *)
(* --------------------------------------------------------------------- *)

Section ExtractionRoute.

Variable hashFile : string -> string.

Lemma if_any_carried {A} (l : list A) :
  match if_any l with Some l' => l' | None => [] end = l.
Proof. destruct l; reflexivity. Qed.

Lemma route_success req env imageHash st result st' events :
  extract_and_process req env imageHash st = (Success result, st', events) ->
  exists loop,
    process_candidates (terminology env) (currentMeds req)
      (age (patientContext req)) (candidates_of env) loop_start = Ok loop /\
    result = finalResult_of loop /\
    processedMedications loop <> [].
Proof.
  unfold extract_and_process, candidates_of.
  destruct (run_extraction (extraction env)) as [extracted evs].
  cbn [fst]. destruct extracted as [visionResult|e]; [|discriminate].
  destruct (truthy (vision_error visionResult)); [discriminate|].
  destruct (vision_medications visionResult) as [[|c cs]|]; try discriminate.
  destruct (process_candidates _ _ _ (c :: cs) loop_start) as [loop|e];
    [|discriminate].
  destruct (processedMedications loop) as [|m ms] eqn:Hp; [discriminate|].
  cbn. intros [= <- <- <-]. exists loop. rewrite Hp.
  split; [reflexivity|]. split; [reflexivity|discriminate].
Qed.

Lemma route_nothing_accepted req env imageHash st :
  Forall (fun c => accepted (terminology env) c = false) (candidates_of env) ->
  exists status error detail failed advice events,
    extract_and_process req env imageHash st =
      (Failure status error detail failed advice, st, events) /\
    carried failed = map (failure_of (terminology env)) (candidates_of env) /\
    (candidates_of env <> [] ->
     status = 400%Z /\
     failed = Some (map (failure_of (terminology env)) (candidates_of env))).
Proof.
  unfold extract_and_process, candidates_of.
  destruct (run_extraction (extraction env)) as [extracted evs].
  cbn [fst]. destruct extracted as [visionResult|e].
  - destruct (truthy (vision_error visionResult)).
    + intros _. do 6 eexists. split; [reflexivity|]. split; [reflexivity|].
      intros H. contradiction.
    + destruct (vision_medications visionResult) as [[|c cs]|].
      * intros _. do 6 eexists. split; [reflexivity|]. split; [reflexivity|].
        intros H. contradiction.
      * intros Hall.
        rewrite (process_candidates_none_accepted _ _ _ (c :: cs) loop_start Hall).
        cbn. do 6 eexists. split; [reflexivity|]. split; [reflexivity|].
        intros _. split; reflexivity.
      * intros _. do 6 eexists. split; [reflexivity|]. split; [reflexivity|].
        intros H. contradiction.
  - intros _. do 6 eexists. split; [reflexivity|]. split; [reflexivity|].
    intros H. contradiction.
Qed.

Lemma lookup_tiers_no_extraction imageHash clock st found st1 reads :
  lookup_tiers imageHash clock st = (found, st1, reads) ->
  ~ In VisionCall reads.
Proof.
  unfold lookup_tiers.
  destruct (match visionCache st !! imageHash with
            | Some cachedResult => _
            | None => None
            end).
  - intros [= <- <- <-] [H|[]]. discriminate.
  - destruct (select_single _ _ _); intros [= <- <- <-] H; cbn in H;
      intuition discriminate.
Qed.

(** A response for which the vision backend was called comes from the
    processing of the extracted candidates. *)
Lemma process_fresh req env st resp st' events :
  process hashFile req env st = (resp, st', events) ->
  In VisionCall events ->
  exists imageHash st1 events1,
    extract_and_process req env imageHash st1 = (resp, st', events1).
Proof.
  unfold process.
  destruct (file req) as [image|]; [|intros [= <- <- <-] []].
  destruct (forceRefresh req).
  - intros H _. eauto.
  - destruct (lookup_tiers _ _ _) as [[found st1] reads] eqn:Hl.
    destruct found as [result|].
    + intros [= <- <- <-] Hin.
      exfalso. exact (lookup_tiers_no_extraction _ _ _ _ _ _ Hl Hin).
    + destruct (extract_and_process _ _ _ st1) as [[r s2] evs] eqn:He.
      intros [= <- <- <-] _. eauto.
Qed.

(** The route writes the caches when it succeeds, and only then. *)
Lemma route_state req env imageHash st resp st' events :
  extract_and_process req env imageHash st = (resp, st', events) ->
  match resp with
  | Success result =>
      exists raw, st' = fst (store_result imageHash (clock env) raw result st)
  | Failure _ _ _ _ _ => st' = st
  end.
Proof.
  unfold extract_and_process.
  destruct (run_extraction (extraction env)) as [extracted evs].
  destruct extracted as [visionResult|e]; [|intros [= <- <- _]; reflexivity].
  destruct (truthy (vision_error visionResult));
    [intros [= <- <- _]; reflexivity|].
  destruct (vision_medications visionResult) as [[|c cs]|];
    try (intros [= <- <- _]; reflexivity).
  destruct (process_candidates _ _ _ (c :: cs) loop_start) as [loop|e];
    [|intros [= <- <- _]; reflexivity].
  destruct (processedMedications loop) as [|m ms];
    [intros [= <- <- _]; reflexivity|].
  cbn. intros [= <- <- _]. eexists. reflexivity.
Qed.

Lemma fresh_result_named req env imageHash st result st' events :
  extract_and_process req env imageHash st = (Success result, st', events) ->
  marker_free (terminology env) ->
  named_result result.
Proof.
  intros Hroute Hfree.
  destruct (route_success _ _ _ _ _ _ _ Hroute) as (loop & Hloop & -> & Hne).
  destruct (process_candidates_spec _ _ _ _ _ _ Hloop) as (Hmeds & _).
  cbn in Hmeds. split; [exact Hne|].
  cbn [finalResult_of medications]. apply List.Forall_forall. intros m Hm.
  assert (Hin : In (extracted_data m) (map extracted_data (processedMedications loop)))
    by (apply in_map; exact Hm).
  rewrite Hmeds in Hin. apply in_map_iff in Hin as (c & Hc & Hin).
  apply filter_In in Hin as [_ Hacc].
  destruct (kept_name_accepted _ c Hacc) as (n & kept & _ & _ & _ & Hk & Hke & Hmark).
  exists kept. rewrite <- Hc. auto.
Qed.

Lemma store_named imageHash clock raw result st :
  cache_named st -> named_result result ->
  cache_named (fst (store_result imageHash clock raw result st)).
Proof.
  intros [Hmem Hdb] Hres. split; cbn.
  - intros h entry. destruct (decide (imageHash = h)) as [->|Hne].
    + rewrite lookup_insert_eq. intros [= <-]. exact Hres.
    + rewrite lookup_insert_ne by exact Hne. apply Hmem.
  - intros row Hin. apply in_app_or in Hin as [Hin|[<-|[]]]; [apply Hdb; exact Hin|].
    exact Hres.
Qed.

Lemma select_single_in rows imageHash now row :
  select_single rows imageHash now = Some row -> In row rows.
Proof.
  unfold select_single.
  destruct (List.filter _ rows) as [|r [|r' l]] eqn:Hf; try discriminate.
  intros [= <-]. assert (Hin : In r (List.filter
    (fun row => String.eqb (image_hash row) imageHash && (now <? expires_at row)%Z) rows))
    by (rewrite Hf; left; reflexivity).
  apply filter_In in Hin. apply Hin.
Qed.

Lemma lookup_tiers_named imageHash clock st found st1 reads :
  lookup_tiers imageHash clock st = (found, st1, reads) ->
  cache_named st ->
  cache_named st1 /\ forall result, found = Hit result -> named_result result.
Proof.
  unfold lookup_tiers. intros Hlookup [Hmem Hdb].
  destruct (visionCache st !! imageHash) as [cached|] eqn:Hc.
  - destruct (at_memory_check clock <? expiresAt cached)%Z.
    + injection Hlookup as <- <- _. split; [split; assumption|].
      intros result [= <-]. exact (Hmem _ _ Hc).
    + destruct (select_single _ _ _) as [row|] eqn:Hs.
      * injection Hlookup as <- <- _.
        pose proof (Hdb _ (select_single_in _ _ _ _ Hs)) as Hrow.
        split; [|intros result [= <-]; exact Hrow].
        split; cbn; [|exact Hdb].
        intros h entry. destruct (decide (imageHash = h)) as [->|Hne].
        -- rewrite lookup_insert_eq. intros [= <-]. exact Hrow.
        -- rewrite lookup_insert_ne by exact Hne. apply Hmem.
      * injection Hlookup as <- <- _. split; [split; assumption|discriminate].
  - destruct (select_single _ _ _) as [row|] eqn:Hs.
    + injection Hlookup as <- <- _.
      pose proof (Hdb _ (select_single_in _ _ _ _ Hs)) as Hrow.
      split; [|intros result [= <-]; exact Hrow].
      split; cbn; [|exact Hdb].
      intros h entry. destruct (decide (imageHash = h)) as [->|Hne].
      * rewrite lookup_insert_eq. intros [= <-]. exact Hrow.
      * rewrite lookup_insert_ne by exact Hne. apply Hmem.
    + injection Hlookup as <- <- _. split; [split; assumption|discriminate].
Qed.

Lemma route_preserves_named req env imageHash st resp st' events :
  extract_and_process req env imageHash st = (resp, st', events) ->
  marker_free (terminology env) ->
  cache_named st ->
  cache_named st' /\ forall result, resp = Success result -> named_result result.
Proof.
  intros Hroute Hfree Hinv.
  pose proof (route_state _ _ _ _ _ _ _ Hroute) as Hst.
  destruct resp as [result|status error detail failed advice].
  - pose proof (fresh_result_named _ _ _ _ _ _ _ Hroute Hfree) as Hres.
    destruct Hst as [raw ->].
    split; [apply store_named; assumption|]. intros r [= <-]. exact Hres.
  - subst st'. split; [exact Hinv|discriminate].
Qed.

(** Named results are an invariant of the cache: a request keeps it, and
    answers with a named result whenever it succeeds, from the cache or
    not. *)
Lemma process_preserves_named req env st resp st' events :
  process hashFile req env st = (resp, st', events) ->
  marker_free (terminology env) ->
  cache_named st ->
  cache_named st' /\ forall result, resp = Success result -> named_result result.
Proof.
  unfold process. intros Hrun Hfree Hinv.
  destruct (file req) as [image|].
  - destruct (forceRefresh req).
    + exact (route_preserves_named _ _ _ _ _ _ _ Hrun Hfree Hinv).
    + destruct (lookup_tiers _ _ _) as [[found st1] reads] eqn:Hl.
      destruct (lookup_tiers_named _ _ _ _ _ _ Hl Hinv) as [Hinv1 Hhit].
      destruct found as [cached|].
      * injection Hrun as <- <- _. split; [exact Hinv1|].
        intros result [= <-]. apply Hhit. reflexivity.
      * destruct (extract_and_process _ _ _ st1) as [[r s2] evs] eqn:He.
        injection Hrun as <- <- _.
        exact (route_preserves_named _ _ _ _ _ _ _ He Hfree Hinv1).
  - injection Hrun as <- <- _. split; [exact Hinv|discriminate].
Qed.

Lemma sweep_preserves_named times : forall st,
  cache_named st -> cache_named (sweep_at times st).
Proof.
  induction times as [|t times IH]; intros st Hinv; [exact Hinv|].
  cbn [sweep_at fold_left]. apply IH. destruct Hinv as [Hmem Hdb].
  split; cbn; [|exact Hdb].
  intros h entry Hentry. apply map_lookup_filter_Some in Hentry as [Hentry _].
  exact (Hmem _ _ Hentry).
Qed.

Lemma empty_cache_named : cache_named empty_state.
Proof.
  split; cbn.
  - intros h entry Hentry. rewrite lookup_empty in Hentry. discriminate.
  - intros row [].
Qed.

Lemma in_filter_map {A B} (f : A -> B) (p : A -> bool) (l : list A) (a : A) :
  In a l -> p a = true -> In (f a) (map f (List.filter p l)).
Proof.
  intros Hin Hp. apply in_map. apply filter_In. auto.
Qed.

(** C2. In a response computed by the extraction route, the medications
    are the accepted candidates, in order, each under the name the route
    keeps; and for every candidate whose validation returns a correction
    (its confidence is then above 0.6), the name kept is the extracted
    spelling when the confidence is above 0.85 and the corrected name
    when it is at most 0.85 (more generally, whenever it is not above
    0.85). *)
Theorem process_keeps_or_corrects_name :
  forall (req : ProcessRequest) (env : Env) (st st' : State)
         (result : PipelineResult) (events : list Event),
    process hashFile req env st = (Success result, st', events) ->
    In VisionCall events ->
    let svc := terminology env in
    map extracted_data (medications result) =
      map (renamed svc) (List.filter (accepted svc) (candidates_of env)) /\
    forall c, In c (candidates_of env) ->
      let validation := validateAndNormalizeDrugName svc (drug_name c) in
      wasCorrected validation = true ->
      In (renamed svc c) (map extracted_data (medications result)) /\
      name_confidence (renamed svc c) = Some (confidence validation) /\
      (0.6 <? confidence validation)%float = true /\
      ((0.85 <? confidence validation)%float = true ->
         drug_name (renamed svc c) = drug_name c) /\
      ((confidence validation <=? 0.85)%float = true ->
         drug_name (renamed svc c) = correctedName validation) /\
      ((0.85 <? confidence validation)%float = false ->
         drug_name (renamed svc c) = correctedName validation).
Proof.
  intros req env st st' result events Hrun Hfresh svc.
  destruct (process_fresh _ _ _ _ _ _ Hrun Hfresh) as (h & st1 & evs & Hroute).
  destruct (route_success _ _ _ _ _ _ _ Hroute) as (loop & Hloop & -> & _).
  destruct (process_candidates_spec _ _ _ _ _ _ Hloop) as (Hmeds & _).
  cbn in Hmeds. fold svc in Hmeds.
  split; [exact Hmeds|].
  intros c Hin validation Hw.
  destruct (corrected_validation svc (drug_name c) Hw)
    as (n & cands & cand & cname & Hn & Hu & _ & _ & _ & Hv & Ho & Hc & Hconf & Hacc).
  fold validation in Hv, Ho, Hc, Hconf.
  assert (Haccepted : accepted svc c = true).
  { unfold accepted. fold validation. rewrite Hv, andb_true_r.
    apply negb_true_iff. unfold unreadable. rewrite Hn. cbn.
    destruct Hu as [Hu1 Hu2].
    apply String.eqb_neq in Hu1. apply String.eqb_neq in Hu2.
    rewrite Hu1, Hu2. reflexivity. }
  split.
  { cbn [finalResult_of medications]. rewrite Hmeds.
    apply in_filter_map; assumption. }
  split; [reflexivity|].
  split; [rewrite Hconf; exact Hacc|].
  unfold renamed. fold validation. cbn [rename drug_name].
  unfold kept_name. rewrite Hw. split; [|split].
  - intros Hhigh. rewrite Hhigh, Ho, Hn. reflexivity.
  - intros Hlow. rewrite (leb_not_ltb _ _ Hlow). reflexivity.
  - intros Hlow. rewrite Hlow. reflexivity.
Qed.

(** C5. As long as the terminology service does not offer the unreadable
    marker as a drug name, named results are an invariant of the cache,
    and every successful response, computed or cached, lists at least one
    medication and only medications whose name is set and is not the
    marker. And in a response computed by the extraction route: every
    medication of a success comes from a candidate whose extracted name is
    set, is not the marker and passed validation; the candidates that are
    not accepted are exactly the failures the response carries, an invalid
    name with the suggestions of its validation; and when no candidate is
    accepted the response is an error that carries these failures. *)
Theorem process_routes_failures :
  (forall (req : ProcessRequest) (env : Env) (st st' : State)
          (resp : Response) (events : list Event),
     process hashFile req env st = (resp, st', events) ->
     marker_free (terminology env) ->
     cache_named st ->
     cache_named st' /\
     forall result, resp = Success result -> named_result result) /\
  forall (req : ProcessRequest) (env : Env) (st st' : State)
         (resp : Response) (events : list Event),
    process hashFile req env st = (resp, st', events) ->
    In VisionCall events ->
    let svc := terminology env in
    let cs := candidates_of env in
    (forall result, resp = Success result ->
       medications result <> [] /\
       (forall m, In m (medications result) ->
          exists c n kept,
            In c cs /\ extracted_data m = renamed svc c /\
            drug_name c = Some n /\ n <> "" /\ n <> CLARIFICATION_NEEDED /\
            valid (validateAndNormalizeDrugName svc (Some n)) = true /\
            drug_name (extracted_data m) = Some kept /\ kept <> "" /\
            (marker_free svc -> kept <> CLARIFICATION_NEEDED)) /\
       carried (failedExtractions result) =
         map (failure_of svc) (List.filter (fun c => negb (accepted svc c)) cs)) /\
    (forall c, In c cs -> accepted svc c = false ->
       failure_extractedData (failure_of svc c) = c /\
       (unreadable c = true -> failure_reason (failure_of svc c) = "unclear_name") /\
       (unreadable c = false ->
          failure_reason (failure_of svc c) = "invalid_drug" /\
          failure_originalName (failure_of svc c) = drug_name c /\
          failure_suggestions (failure_of svc c) =
            Some (match suggestions (validateAndNormalizeDrugName svc (drug_name c)) with
                  | Some l => l
                  | None => []
                  end))) /\
    (Forall (fun c => accepted svc c = false) cs ->
       (exists status error detail failed advice,
          resp = Failure status error detail failed advice) /\
       carried (failed_of resp) = map (failure_of svc) cs /\
       (cs <> [] ->
          status_of resp = 400%Z /\
          failed_of resp = Some (map (failure_of svc) cs))).
Proof.
  split; [intros; eapply process_preserves_named; eassumption|].
  intros req env st st' resp events Hrun Hfresh svc cs.
  destruct (process_fresh _ _ _ _ _ _ Hrun Hfresh) as (h & st1 & evs & Hroute).
  split; [|split].
  - intros result ->.
    destruct (route_success _ _ _ _ _ _ _ Hroute) as (loop & Hloop & -> & Hne).
    destruct (process_candidates_spec _ _ _ _ _ _ Hloop) as (Hmeds & Hfailed & _).
    cbn in Hmeds, Hfailed. fold svc cs in Hmeds, Hfailed.
    cbn [finalResult_of medications failedExtractions].
    split; [exact Hne|]. split.
    + intros m Hm.
      assert (Hin : In (extracted_data m) (map extracted_data (processedMedications loop)))
        by (apply in_map; exact Hm).
      rewrite Hmeds in Hin. apply in_map_iff in Hin as (c & Hc & Hin).
      apply filter_In in Hin as [Hin Hacc].
      destruct (kept_name_accepted svc c Hacc)
        as (n & kept & Hn & [Hu1 Hu2] & Hv & Hk & Hke & Hmark).
      exists c, n, kept. rewrite <- Hc. auto 12.
    + unfold carried. rewrite if_any_carried. exact Hfailed.
  - intros c Hin Hacc. unfold failure_of.
    destruct (unreadable c); cbn.
    + split; [reflexivity|]. split; [reflexivity|discriminate].
    + split; [reflexivity|]. split; [discriminate|]. auto.
  - intros Hall.
    destruct (route_nothing_accepted req env h st1 Hall)
      as (status & error & detail & failed & advice & evs' & Hroute' & Hcar & Hne).
    rewrite Hroute' in Hroute. injection Hroute as <- _ _.
    split; [eauto 6|]. split; [exact Hcar|]. exact Hne.
Qed.

End ExtractionRoute.

(* --------------------------------------------------------------------- *)
(** ** A worked prescription *)
(* --------------------------------------------------------------------- *)

Section WorkedExample.

Lemma demo_run_succeeds :
  demo_run = (Success (result_of (fst (fst demo_run))), snd (fst demo_run), snd demo_run).
Proof. vm_compute. reflexivity. Qed.

(** The theorem of C2 on the worked prescription: "Listnopril" is 0.9
    similar to "Lisinopril" and keeps its spelling; "Metfrmn" is 7/9
    similar to "Metformin" and is renamed. *)
Lemma process_keeps_or_corrects_name_witness :
  In VisionCall (snd demo_run) /\
  drug_name (renamed demo_terminology listnopril) = Some "Listnopril" /\
  drug_name (renamed demo_terminology metfrmn) = Some "Metformin".
Proof.
  assert (Hfresh : In VisionCall (snd demo_run)) by (vm_compute; auto).
  split; [exact Hfresh|].
  destruct (process_keeps_or_corrects_name demo_hash _ _ _ _ _ _
              demo_run_succeeds Hfresh) as [_ Hnames].
  split.
  - destruct (Hnames listnopril ltac:(vm_compute; auto) eq_refl)
      as (_ & _ & _ & Hkeep & _).
    refine (Hkeep _). vm_compute. reflexivity.
  - destruct (Hnames metfrmn ltac:(vm_compute; auto) eq_refl)
      as (_ & _ & _ & _ & Hfix & _).
    refine (Hfix _). vm_compute. reflexivity.
Defined.

Lemma demo_marker_free : marker_free demo_terminology.
Proof.
  intros query cands c Hq Hin. cbn in Hq.
  repeat match type of Hq with
         | (if ?b then _ else _) = _ => destruct b
         end;
    try discriminate Hq; injection Hq as <-; cbn in Hin;
    repeat match goal with
           | H : _ \/ _ |- _ => destruct H as [<-|H]
           | H : False |- _ => destruct H
           end;
    discriminate.
Qed.

(** The theorem of C5 on the worked prescription: the response lists
    named medications only and leaves a cache of named results, and the
    unreadable line is the one failure the response carries. *)
Lemma process_routes_failures_witness :
  marker_free demo_terminology /\
  cache_named empty_state /\
  In VisionCall (snd demo_run) /\
  named_result (result_of (fst (fst demo_run))) /\
  cache_named after_first /\
  map failure_reason (carried (failedExtractions (result_of (fst (fst demo_run)))))
    = ["unclear_name"].
Proof.
  assert (Hfresh : In VisionCall (snd demo_run)) by (vm_compute; auto).
  split; [exact demo_marker_free|]. split; [exact empty_cache_named|].
  split; [exact Hfresh|].
  destruct (process_routes_failures demo_hash) as [Hinvariant Hfailures].
  destruct (Hinvariant _ _ _ _ _ _ demo_run_succeeds demo_marker_free empty_cache_named)
    as [Hcache Hnamed].
  split; [exact (Hnamed _ eq_refl)|]. split; [exact Hcache|].
  destruct (Hfailures _ _ _ _ _ _ demo_run_succeeds Hfresh) as (Hok & _ & _).
  destruct (Hok _ eq_refl) as (_ & _ & Hfailed).
  rewrite Hfailed. vm_compute. reflexivity.
Defined.

End WorkedExample.

(* --------------------------------------------------------------------- *)
(** ** The two-tier result cache *)
(* --------------------------------------------------------------------- *)

Section ResultCache.

Variable hashFile : string -> string.

Lemma memory_hit req env st image entry :
  file req = Some image ->
  forceRefresh req = false ->
  visionCache st !! hashFile image = Some entry ->
  (at_memory_check (clock env) < expiresAt entry)%Z ->
  process hashFile req env st =
    (Success (data entry), st, [MemoryRead (hashFile image)]).
Proof.
  intros Hfile Hforce Hentry Hfresh.
  unfold process. rewrite Hfile, Hforce.
  unfold lookup_tiers. rewrite Hentry.
  apply Z.ltb_lt in Hfresh. rewrite Hfresh. reflexivity.
Qed.

(** When memory has nothing live for the digest and the durable tier has
    exactly one live row, the row is the answer and memory is refilled;
    no backend is called. *)
Lemma durable_hit req env st image row :
  file req = Some image ->
  forceRefresh req = false ->
  (forall entry, visionCache st !! hashFile image = Some entry ->
                 (expiresAt entry <= at_memory_check (clock env))%Z) ->
  select_single (scan_sessions st) (hashFile image) (at_durable_query (clock env))
    = Some row ->
  process hashFile req env st =
    (Success (normalized_result row),
     {| visionCache :=
          <[ hashFile image :=
               {| data := normalized_result row;
                  expiresAt := (at_memory_refill (clock env) + CACHE_TTL)%Z |} ]>
            (visionCache st);
        scan_sessions := scan_sessions st |},
     [MemoryRead (hashFile image); DurableRead (hashFile image);
      MemoryWrite (hashFile image)]).
Proof.
  intros Hfile Hforce Hstale Hrow.
  unfold process. rewrite Hfile, Hforce.
  unfold lookup_tiers. rewrite Hrow.
  destruct (visionCache st !! hashFile image) as [entry|]; [|reflexivity].
  specialize (Hstale entry eq_refl).
  apply Z.ltb_ge in Hstale. rewrite Hstale. reflexivity.
Qed.

Lemma select_single_absent rows imageHash now :
  (forall row, In row rows -> image_hash row <> imageHash) ->
  select_single rows imageHash now = None.
Proof.
  intros Hnone. unfold select_single.
  replace (List.filter _ rows) with (@nil ScanSession); [reflexivity|].
  symmetry. induction rows as [|row rows IH]; [reflexivity|].
  cbn [List.filter].
  assert (Hne : String.eqb (image_hash row) imageHash = false).
  { apply String.eqb_neq. apply Hnone. left. reflexivity. }
  rewrite Hne. cbn [andb]. apply IH.
  intros r Hr. apply Hnone. right. exact Hr.
Qed.

Lemma lookup_tiers_uncached imageHash clock st :
  uncached imageHash st ->
  lookup_tiers imageHash clock st =
    (Miss, st, [MemoryRead imageHash; DurableRead imageHash]).
Proof.
  intros [Hmem Hdb]. unfold lookup_tiers.
  rewrite Hmem, (select_single_absent _ _ _ Hdb). reflexivity.
Qed.

(** What a successful run of the route leaves behind. *)
Lemma route_success_stores req env imageHash st result st' events :
  extract_and_process req env imageHash st = (Success result, st', events) ->
  visionCache st' !! imageHash =
    Some {| data := result;
            expiresAt := (at_memory_store (clock env) + CACHE_TTL)%Z |} /\
  (exists raw,
     scan_sessions st' =
       scan_sessions st ++
       [ {| image_hash := imageHash; raw_vision_json := raw;
            normalized_result := result;
            expires_at := (at_durable_store (clock env) + CACHE_TTL)%Z |} ]) /\
  (exists backends,
     events = backends ++ [MemoryWrite imageHash; DurableWrite imageHash] /\
     (backends = [VisionCall] \/ backends = [VisionCall; OcrCall])).
Proof.
  unfold extract_and_process.
  destruct (run_extraction (extraction env)) as [extracted evs] eqn:Hx.
  assert (Hevs : evs = [VisionCall] \/ evs = [VisionCall; OcrCall]).
  { unfold run_extraction in Hx.
    destruct (extraction env); injection Hx as _ <-; auto. }
  destruct extracted as [visionResult|e]; [|discriminate].
  destruct (truthy (vision_error visionResult)); [discriminate|].
  destruct (vision_medications visionResult) as [[|c cs]|]; try discriminate.
  destruct (process_candidates _ _ _ (c :: cs) loop_start) as [loop|e];
    [|discriminate].
  destruct (processedMedications loop) as [|m ms] eqn:Hp; [discriminate|].
  cbn. intros [= <- <- <-]. split; [|split].
  - cbn. apply lookup_insert_eq.
  - eexists. reflexivity.
  - exists evs. split; [reflexivity|exact Hevs].
Qed.

Lemma route_events req env imageHash st resp st' events :
  extract_and_process req env imageHash st = (resp, st', events) ->
  hd_error events = Some VisionCall /\
  occurrences VisionCall events = 1 /\
  forall h, ~ In (MemoryRead h) events /\ ~ In (DurableRead h) events.
Proof.
  unfold extract_and_process.
  destruct (run_extraction (extraction env)) as [extracted evs] eqn:Hx.
  assert (Hevs : evs = [VisionCall] \/ evs = [VisionCall; OcrCall]).
  { unfold run_extraction in Hx.
    destruct (extraction env); injection Hx as _ <-; auto. }
  assert (Hgoal : forall tail,
            tail = [] \/ tail = [MemoryWrite imageHash; DurableWrite imageHash] ->
            hd_error (evs ++ tail) = Some VisionCall /\
            occurrences VisionCall (evs ++ tail) = 1 /\
            forall h, ~ In (MemoryRead h) (evs ++ tail) /\
                      ~ In (DurableRead h) (evs ++ tail)).
  { intros tail Htail.
    destruct Hevs as [-> | ->]; destruct Htail as [-> | ->]; cbn;
      (split; [reflexivity|]; split; [reflexivity|]);
      intros h; split; intros H; intuition discriminate. }
  assert (Hnil : forall r s, (resp, st', events) = (r, s, evs) ->
            hd_error events = Some VisionCall /\
            occurrences VisionCall events = 1 /\
            forall h, ~ In (MemoryRead h) events /\ ~ In (DurableRead h) events).
  { intros r s [= _ _ ->]. rewrite <- (app_nil_r evs).
    apply Hgoal. left. reflexivity. }
  destruct extracted as [visionResult|e];
    [|intros H; symmetry in H; exact (Hnil _ _ H)].
  destruct (truthy (vision_error visionResult));
    [intros H; symmetry in H; exact (Hnil _ _ H)|].
  destruct (vision_medications visionResult) as [[|c cs]|];
    try (intros H; symmetry in H; exact (Hnil _ _ H)).
  destruct (process_candidates _ _ _ (c :: cs) loop_start) as [loop|e];
    [|intros H; symmetry in H; exact (Hnil _ _ H)].
  destruct (processedMedications loop) as [|m ms];
    [intros H; symmetry in H; exact (Hnil _ _ H)|].
  cbn. intros [= _ _ <-]. apply Hgoal. right. reflexivity.
Qed.

Lemma sweep_keeps_live times : forall st imageHash entry now,
  visionCache st !! imageHash = Some entry ->
  (now < expiresAt entry)%Z ->
  Forall (fun t => (t <= now)%Z) times ->
  visionCache (sweep_at times st) !! imageHash = Some entry.
Proof.
  induction times as [|t times IH]; intros st imageHash entry now Hentry Hlive Hall;
    [exact Hentry|].
  inversion Hall as [|? ? Ht Hrest]; subst.
  cbn [sweep_at fold_left]. apply (IH _ _ _ now); [|assumption|assumption].
  cbn [cleanExpiredCache visionCache].
  apply map_lookup_filter_Some. split; [exact Hentry|]. cbn. lia.
Qed.

(** C6. A request whose image has an unexpired entry in the memory tier
    is answered with the stored result, by one read of the memory tier
    and nothing else. And when the same image is submitted twice without
    [forceRefresh], starting with nothing cached for it, the first
    submission succeeding and the second one falling inside the TTL
    (with any number of sweeps in between), the second response is the
    stored result of the first, it leaves the caches as they are, it
    reads the memory tier only, and the vision backend has been called
    exactly once over the two requests. *)
Theorem identical_image_is_served_from_memory :
  (forall (req : ProcessRequest) (env : Env) (st : State)
          (image : string) (entry : CacheEntry),
     file req = Some image ->
     forceRefresh req = false ->
     visionCache st !! hashFile image = Some entry ->
     (at_memory_check (clock env) < expiresAt entry)%Z ->
     process hashFile req env st =
       (Success (data entry), st, [MemoryRead (hashFile image)])) /\
  (forall (req1 req2 : ProcessRequest) (env1 env2 : Env) (st0 st1 : State)
          (image : string) (result : PipelineResult)
          (events1 : list Event) (sweeps : list Z),
     file req1 = Some image -> file req2 = Some image ->
     forceRefresh req1 = false -> forceRefresh req2 = false ->
     uncached (hashFile image) st0 ->
     process hashFile req1 env1 st0 = (Success result, st1, events1) ->
     (at_memory_check (clock env2) < at_memory_store (clock env1) + CACHE_TTL)%Z ->
     Forall (fun t => (t <= at_memory_check (clock env2))%Z) sweeps ->
     let st1' := sweep_at sweeps st1 in
     let second := process hashFile req2 env2 st1' in
     second = (Success result, st1', [MemoryRead (hashFile image)]) /\
     occurrences VisionCall (events1 ++ snd second) = 1 /\
     occurrences (DurableRead (hashFile image)) (snd second) = 0).
Proof.
  split; [intros; apply memory_hit; assumption|].
  intros req1 req2 env1 env2 st0 st1 image result events1 sweeps
         Hf1 Hf2 Hr1 Hr2 Hun Hrun Httl Hsweeps st1' second.
  unfold process in Hrun. rewrite Hf1, Hr1 in Hrun.
  rewrite (lookup_tiers_uncached _ _ _ Hun) in Hrun.
  destruct (extract_and_process req1 env1 (hashFile image) st0)
    as [[resp s] evs] eqn:Hroute.
  injection Hrun as -> -> <-.
  destruct (route_success_stores _ _ _ _ _ _ _ Hroute) as (Hstored & _ & _).
  destruct (route_events _ _ _ _ _ _ _ Hroute) as (_ & Hone & _).
  assert (Hlive : visionCache st1' !! hashFile image =
                  Some {| data := result;
                          expiresAt := (at_memory_store (clock env1) + CACHE_TTL)%Z |}).
  { subst st1'. apply (sweep_keeps_live _ _ _ _ (at_memory_check (clock env2)));
      assumption. }
  assert (Hsecond : second = (Success result, st1', [MemoryRead (hashFile image)])).
  { subst second.
    exact (memory_hit req2 env2 st1' image _ Hf2 Hr2 Hlive Httl). }
  split; [exact Hsecond|]. rewrite Hsecond. cbn [snd]. split.
  - unfold occurrences in *. rewrite !List.filter_app, !length_app.
    cbn. rewrite Hone. reflexivity.
  - unfold occurrences. cbn. reflexivity.
Qed.

(** C7. With [forceRefresh] the route starts with the vision backend and
    reads neither tier, whatever the caches hold; its response does not
    depend on the caches; and when it succeeds it has written both
    tiers: the memory tier holds the new result for the digest, with a
    fresh expiry, and a row with the new result has been added to the
    durable tier. *)
Theorem forceRefresh_bypasses_and_rewrites :
  forall (req : ProcessRequest) (env : Env) (st st' : State)
         (image : string) (resp : Response) (events : list Event),
    file req = Some image ->
    forceRefresh req = true ->
    process hashFile req env st = (resp, st', events) ->
    hd_error events = Some VisionCall /\
    occurrences VisionCall events = 1 /\
    (forall h, ~ In (MemoryRead h) events /\ ~ In (DurableRead h) events) /\
    (forall other : State, fst (fst (process hashFile req env other)) = resp) /\
    (forall result, resp = Success result ->
       visionCache st' !! hashFile image =
         Some {| data := result;
                 expiresAt := (at_memory_store (clock env) + CACHE_TTL)%Z |} /\
       (exists raw,
          scan_sessions st' =
            scan_sessions st ++
            [ {| image_hash := hashFile image; raw_vision_json := raw;
                 normalized_result := result;
                 expires_at := (at_durable_store (clock env) + CACHE_TTL)%Z |} ]) /\
       In (MemoryWrite (hashFile image)) events /\
       In (DurableWrite (hashFile image)) events).
Proof.
  intros req env st st' image resp events Hfile Hforce Hrun.
  unfold process in Hrun. rewrite Hfile, Hforce in Hrun.
  destruct (route_events _ _ _ _ _ _ _ Hrun) as (Hhd & Hone & Hreads).
  split; [exact Hhd|]. split; [exact Hone|]. split; [exact Hreads|]. split.
  - intros other. unfold process. rewrite Hfile, Hforce.
    clear Hhd Hone Hreads. revert Hrun. unfold extract_and_process.
    destruct (run_extraction (extraction env)) as [extracted evs].
    destruct extracted as [visionResult|e]; [|intros [= <- _ _]; reflexivity].
    destruct (truthy (vision_error visionResult)); [intros [= <- _ _]; reflexivity|].
    destruct (vision_medications visionResult) as [[|c cs]|];
      try (intros [= <- _ _]; reflexivity).
    destruct (process_candidates _ _ _ (c :: cs) loop_start) as [loop|e];
      [|intros [= <- _ _]; reflexivity].
    destruct (processedMedications loop) as [|m ms];
      intros [= <- _ _]; reflexivity.
  - intros result ->.
    destruct (route_success_stores _ _ _ _ _ _ _ Hrun)
      as (Hmem & Hdb & backends & -> & _).
    split; [exact Hmem|]. split; [exact Hdb|].
    split; apply in_or_app; right; cbn; auto.
Qed.

End ResultCache.

(* --------------------------------------------------------------------- *)
(** ** The nudge route *)
(* --------------------------------------------------------------------- *)

Section NudgeRoute.

Lemma nudge_medication_ok env context names med o :
  nudge_medication env context names med = Ok o ->
  (batch_kept (terminology env) med = false /\ o = None) \/
  (batch_kept (terminology env) med = true /\
   exists m, o = Some m /\
             Some (nudged_extracted_data m) = batch_renamed (terminology env) med /\
             nudged_skipValidation m = skipValidation med).
Proof.
  unfold nudge_medication, batch_kept, batch_renamed, batch_drug_name.
  destruct (batch_extracted_data med) as [d|]; [|discriminate].
  destruct (skipValidation med); cbn [negb andb orb].
  - match goal with
    | |- (mbind _ ?r) = _ -> _ => destruct r as [ints|e]
    end; cbn [mbind result_bind]; [|discriminate].
    match goal with
    | |- (mbind _ ?r) = _ -> _ => destruct r as [enh|e]
    end; cbn [mbind result_bind]; [|discriminate].
    intros [= <-]. right. split; [reflexivity|].
    eexists. split; [reflexivity|]. split; reflexivity.
  - destruct (valid (validateAndNormalizeDrugName (terminology env) (drug_name d)));
      cbn [negb].
    + match goal with
      | |- (mbind _ ?r) = _ -> _ => destruct r as [ints|e]
      end; cbn [mbind result_bind]; [|discriminate].
      match goal with
      | |- (mbind _ ?r) = _ -> _ => destruct r as [enh|e]
      end; cbn [mbind result_bind]; [|discriminate].
      intros [= <-]. right. split; [reflexivity|].
      eexists. split; [reflexivity|]. split; reflexivity.
    + intros [= <-]. left. split; reflexivity.
Qed.

(** The loop keeps the order of the request and drops exactly the
    medications that are not kept. *)
Lemma nudge_all_spec env context names meds : forall acc out,
  nudge_all env context names meds acc = Ok out ->
  map (fun m => Some (nudged_extracted_data m)) out =
    map (fun m => Some (nudged_extracted_data m)) acc ++
    map (batch_renamed (terminology env))
        (List.filter (batch_kept (terminology env)) meds).
Proof.
  induction meds as [|med meds IH]; intros acc out Hrun; cbn [nudge_all] in Hrun.
  - injection Hrun as <-. cbn. rewrite app_nil_r. reflexivity.
  - destruct (nudge_medication env context names med) as [o|e] eqn:Hmed;
      cbn [mbind result_bind] in Hrun; [|discriminate].
    specialize (IH _ _ Hrun). cbn [List.filter].
    destruct (nudge_medication_ok _ _ _ _ _ Hmed)
      as [[Hk ->]|(Hk & m & -> & Hm & _)]; rewrite Hk.
    + exact IH.
    + rewrite map_app in IH. cbn [map] in IH. rewrite Hm in IH.
      rewrite <- app_assoc in IH. exact IH.
Qed.

Lemma filter_split_length {A} (p : A -> bool) (l : list A) :
  length (List.filter p l) + length (List.filter (fun a => negb (p a)) l) = length l.
Proof.
  induction l as [|a l IH]; [reflexivity|].
  cbn [List.filter]. destruct (p a); cbn [negb length]; lia.
Qed.

(** C10. In a successful reply of the nudge route, the medications are
    those of the request that are exempt from validation or whose name
    passes validation, in order; a medication that is validated and whose
    name fails validation is not among them, and the reply is the list
    alone, with no record of what was dropped; and a validated medication
    whose validation returns a correction is returned under the corrected
    name, whatever the confidence of the correction, above 0.85
    included. *)
Theorem generate_batch_corrects_and_drops :
  forall (env : Env) (meds : list BatchMedication) (context : PatientContext)
         (out : list NudgedMedication),
    generate_batch env (Some meds) context = BatchSuccess out ->
    let svc := terminology env in
      map (fun m => Some (nudged_extracted_data m)) out =
        map (batch_renamed svc) (List.filter (batch_kept svc) meds) /\
      length out +
        length (List.filter (fun med => negb (batch_kept svc med)) meds)
        = length meds /\
      (forall med d,
         In med meds -> batch_extracted_data med = Some d ->
         skipValidation med = false ->
         let validation := validateAndNormalizeDrugName svc (drug_name d) in
         (valid validation = false -> batch_kept svc med = false) /\
         (wasCorrected validation = true ->
            exists m, In m out /\
              nudged_extracted_data m =
                rename d (correctedName validation) (name_confidence d) /\
              drug_name (nudged_extracted_data m) = correctedName validation)).
Proof.
  intros env meds context out Hrun svc.
  unfold generate_batch in Hrun.
  destruct (nudge_all env context (allMedicationNames meds) meds []) as [l|e] eqn:Hall;
    [|discriminate].
  injection Hrun as ->.
  pose proof (nudge_all_spec _ _ _ _ _ _ Hall) as Hmap. cbn [map app] in Hmap.
  fold svc in Hmap.
  split; [exact Hmap|]. split.
  - rewrite <- (filter_split_length (batch_kept svc) meds).
    f_equal.
    rewrite <- (length_map (fun m => Some (nudged_extracted_data m)) out), Hmap.
    apply length_map.
  - intros med d Hin Hd Hskip validation. split.
    + intros Hinvalid. unfold batch_kept, batch_drug_name.
      rewrite Hskip, Hd. exact Hinvalid.
    + intros Hw.
      destruct (corrected_validation svc (drug_name d) Hw)
        as (_ & _ & _ & _ & _ & _ & _ & _ & _ & Hv & _).
      fold validation in Hv.
      assert (Hkept : batch_kept svc med = true).
      { unfold batch_kept, batch_drug_name. rewrite Hskip, Hd. exact Hv. }
      assert (Hthere : In (batch_renamed svc med)
                          (map (batch_renamed svc) (List.filter (batch_kept svc) meds))).
      { apply in_map. apply filter_In. auto. }
      rewrite <- Hmap in Hthere. apply in_map_iff in Hthere as (m & Hm & Hmin).
      exists m. split; [exact Hmin|].
      unfold batch_renamed in Hm. rewrite Hd, Hskip in Hm.
      fold validation in Hm. unfold batch_name in Hm. rewrite Hw in Hm.
      injection Hm as ->. split; reflexivity.
Qed.

End NudgeRoute.

(* --------------------------------------------------------------------- *)
(** ** The worked prescription, submitted again and confirmed *)
(* --------------------------------------------------------------------- *)

Section WorkedCache.

(** The theorem of C6 on the worked prescription: submitted again one
    second later, after a sweep, it is answered from memory although the
    extraction backend would now find nothing. *)
Lemma identical_image_is_served_from_memory_witness :
  uncached demo_image_hash empty_state /\
  (at_memory_check (clock (demo_env [] 2000)) <
     at_memory_store (clock (demo_env [listnopril; metfrmn; unreadable_line] 1000))
     + CACHE_TTL)%Z /\
  process demo_hash (demo_request None) (demo_env [] 2000)
          (sweep_at [1500%Z] after_first) =
    (Success (result_of (fst (fst demo_run))), sweep_at [1500%Z] after_first,
     [MemoryRead demo_image_hash]) /\
  occurrences VisionCall
    (snd demo_run ++
     snd (process demo_hash (demo_request None) (demo_env [] 2000)
                  (sweep_at [1500%Z] after_first))) = 1.
Proof.
  assert (Hun : uncached demo_image_hash empty_state).
  { split; [reflexivity|]. intros row []. }
  assert (Httl : (at_memory_check (clock (demo_env [] 2000)) <
                  at_memory_store
                    (clock (demo_env [listnopril; metfrmn; unreadable_line] 1000))
                  + CACHE_TTL)%Z) by (vm_compute; reflexivity).
  assert (Hsweeps : Forall (fun t => (t <= at_memory_check (clock (demo_env [] 2000)))%Z)
                           [1500%Z]).
  { constructor; [|constructor]. vm_compute. discriminate. }
  split; [exact Hun|]. split; [exact Httl|].
  destruct (proj2 (identical_image_is_served_from_memory demo_hash)
              (demo_request None) (demo_request None)
              (demo_env [listnopril; metfrmn; unreadable_line] 1000)
              (demo_env [] 2000) empty_state after_first
              "prescription.jpg bytes" (result_of (fst (fst demo_run)))
              (snd demo_run) [1500%Z]
              eq_refl eq_refl eq_refl eq_refl Hun demo_run_succeeds Httl Hsweeps)
    as (Hsecond & Honce & _).
  split; [exact Hsecond|exact Honce].
Defined.

(** The theorem of C7 on the worked prescription: submitted again with
    [forceRefresh] while its entry is still live, it goes to the vision
    backend first and overwrites the entry. *)
Lemma forceRefresh_bypasses_and_rewrites_witness :
  forceRefresh (demo_request (Some "true")) = true /\
  (exists entry, visionCache after_first !! demo_image_hash = Some entry /\
                 (5000 < expiresAt entry)%Z) /\
  hd_error (snd refreshed) = Some VisionCall /\
  visionCache (snd (fst refreshed)) !! demo_image_hash =
    Some {| data := result_of (fst (fst refreshed));
            expiresAt := (5000 + CACHE_TTL)%Z |}.
Proof.
  split; [reflexivity|]. split.
  { eexists. split; [vm_compute; reflexivity|]. vm_compute. reflexivity. }
  assert (Hrun : refreshed =
                 (Success (result_of (fst (fst refreshed))),
                  snd (fst refreshed), snd refreshed))
    by (vm_compute; reflexivity).
  destruct (forceRefresh_bypasses_and_rewrites demo_hash
              (demo_request (Some "true")) (demo_env [metfrmn] 5000)
              after_first _ "prescription.jpg bytes" _ _ eq_refl eq_refl Hrun)
    as (Hhd & _ & _ & _ & Hwrites).
  split; [exact Hhd|].
  destruct (Hwrites _ eq_refl) as (Hmem & _).
  exact Hmem.
Defined.

(** The theorem of C10 on the confirmed list: "Listnopril", which the
    extraction route keeps because the correction is 0.9 confident, comes
    back as "Lisinopril"; the unknown name is gone; the exempt name is
    untouched. *)
Lemma generate_batch_corrects_and_drops_witness :
  demo_batch_reply = BatchSuccess (nudged_of demo_batch_reply) /\
  (0.85 <? confidence (validateAndNormalizeDrugName demo_terminology
                          (Some "Listnopril")))%float = true /\
  map (fun m => drug_name (nudged_extracted_data m)) (nudged_of demo_batch_reply) =
    [Some "Lisinopril"; Some "Metfrmn"].
Proof.
  assert (Hrun : demo_batch_reply = BatchSuccess (nudged_of demo_batch_reply))
    by (vm_compute; reflexivity).
  split; [exact Hrun|]. split; [vm_compute; reflexivity|].
  destruct (generate_batch_corrects_and_drops _ _ _ _ Hrun) as (Hmap & _ & _).
  assert (Hnames :
    map (fun o : option ExtractedData =>
           match o with Some d => drug_name d | None => None end)
        (map (fun m => Some (nudged_extracted_data m)) (nudged_of demo_batch_reply)) =
    [Some "Lisinopril"; Some "Metfrmn"]).
  { rewrite Hmap. vm_compute. reflexivity. }
  rewrite map_map in Hnames. exact Hnames.
Defined.

End WorkedCache.

(* ===================================================================== *)
(** * Further properties of the code *)
(* ===================================================================== *)

(** ** The edit distance *)

Section EditDistance.

Lemma edit_distance_nil_r s : edit_distance s [] = length s.
Proof. destruct s; reflexivity. Qed.

Lemma edit_distance_cons a s b t :
  edit_distance (a :: s) (b :: t) =
    Nat.min (Nat.min (edit_distance s (b :: t) + 1) (edit_distance (a :: s) t + 1))
            (edit_distance s t + (if Ascii.eqb a b then 0 else 1)).
Proof. reflexivity. Qed.

Lemma fill_row_cells c1 s : forall rest t,
  fill_row c1 rest (edit_distance s t :: cells s t rest) (edit_distance (c1 :: s) t)
  = cells (c1 :: s) t rest.
Proof.
  induction rest as [|b rest IH]; intros t.
  - reflexivity.
  - cbn [cells fill_row].
    rewrite (edit_distance_cons c1 s b t).
    f_equal. apply IH.
Qed.

Lemma cells_first : forall rest t,
  cells [] t rest = seq (S (length t)) (String.length rest).
Proof.
  induction rest as [|b rest IH]; intros t; cbn [cells String.length seq].
  - reflexivity.
  - rewrite IH. reflexivity.
Qed.

Lemma fill_row_first c1 s rest :
  fill_row c1 rest (length s :: cells s [] rest) (S (length s)) = cells (c1 :: s) [] rest.
Proof.
  pose proof (fill_row_cells c1 s rest []) as H.
  rewrite (edit_distance_nil_r s), (edit_distance_nil_r (c1 :: s)) in H.
  exact H.
Qed.

Lemma last_row_cells str2 : forall str1 s,
  last_row str1 str2 (length s :: cells s [] str2) (length s) =
  length (chars_back str1 s) :: cells (chars_back str1 s) [] str2.
Proof.
  induction str1 as [|c1 str1 IH]; intros s.
  - reflexivity.
  - cbn [last_row chars_back]. unfold next_row.
    rewrite fill_row_first.
    apply (IH (c1 :: s)).
Qed.

Lemma last_cells s : forall rest t d,
  List.last (d :: cells s t rest) 0 =
  match rest with
  | EmptyString => d
  | _ => edit_distance s (chars_back rest t)
  end.
Proof.
  induction rest as [|b rest IH]; intros t d.
  - reflexivity.
  - cbn [cells chars_back].
    change (List.last (d :: edit_distance s (b :: t) :: cells s (b :: t) rest) 0)
      with (List.last (edit_distance s (b :: t) :: cells s (b :: t) rest) 0).
    rewrite IH. destruct rest; reflexivity.
Qed.

(** The matrix computes the recurrence. *)
Lemma levenshteinDistance_recurrence str1 str2 :
  levenshteinDistance str1 str2 =
  edit_distance (chars_back str1 []) (chars_back str2 []).
Proof.
  unfold levenshteinDistance, first_row.
  pose proof (cells_first str2 []) as Hc.
  pose proof (last_row_cells str2 str1 []) as Hr.
  cbn [length] in Hc, Hr.
  change (seq 0 (S (String.length str2))) with (0 :: seq 1 (String.length str2)).
  rewrite <- Hc, Hr, last_cells.
  destruct str2; [|reflexivity].
  symmetry. apply edit_distance_nil_r.
Qed.

Lemma edit_distance_upper : forall s t,
  edit_distance s t <= Nat.max (length s) (length t).
Proof.
  induction s as [|a s IHs]; intros t.
  - cbn. lia.
  - induction t as [|b t IHt].
    + cbn. lia.
    + rewrite edit_distance_cons.
      specialize (IHs t). cbn [length]. destruct (Ascii.eqb a b); lia.
Qed.

Lemma edit_distance_lower : forall s t,
  length s <= edit_distance s t + length t /\
  length t <= edit_distance s t + length s.
Proof.
  induction s as [|a s IHs]; intros t.
  - cbn. lia.
  - induction t as [|b t IHt].
    + cbn. lia.
    + rewrite edit_distance_cons.
      pose proof (IHs t). pose proof (IHs (b :: t)).
      cbn [length] in *. destruct (Ascii.eqb a b); lia.
Qed.

Lemma edit_distance_refl : forall s, edit_distance s s = 0.
Proof.
  induction s as [|a s IH].
  - reflexivity.
  - rewrite edit_distance_cons, IH, Ascii.eqb_refl. lia.
Qed.

Lemma edit_distance_zero : forall s t, edit_distance s t = 0 -> s = t.
Proof.
  induction s as [|a s IHs]; intros t H.
  - destruct t; [reflexivity|discriminate].
  - destruct t as [|b t]; [discriminate|].
    rewrite edit_distance_cons in H.
    destruct (Ascii.eqb a b) eqn:E.
    + apply Ascii.eqb_eq in E. subst b. f_equal. apply IHs. lia.
    + lia.
Qed.

Lemma edit_distance_sym : forall s t, edit_distance s t = edit_distance t s.
Proof.
  induction s as [|a s IHs]; intros t.
  - symmetry. apply edit_distance_nil_r.
  - induction t as [|b t IHt].
    + reflexivity.
    + rewrite !edit_distance_cons.
      rewrite (IHs (b :: t)), IHt, (IHs t), (Ascii.eqb_sym a b). lia.
Qed.

Lemma edit_distance_triangle_bounded n : forall s t u,
  length s + length t + length u <= n ->
  edit_distance s u <= edit_distance s t + edit_distance t u.
Proof.
  induction n as [|n IH]; intros s t u Hn.
  - destruct s, t, u; cbn in Hn; try lia; cbn; lia.
  - destruct s as [|a s].
    + pose proof (edit_distance_lower t u). cbn. cbn in H. lia.
    + destruct u as [|c u].
      * pose proof (edit_distance_lower (a :: s) t).
        rewrite !edit_distance_nil_r. lia.
      * destruct t as [|b t].
        -- pose proof (edit_distance_upper (a :: s) (c :: u)).
           rewrite edit_distance_nil_r.
           change (edit_distance [] (c :: u)) with (length (c :: u)). lia.
        -- cbn [length] in Hn.
           pose proof (IH s (b :: t) (c :: u)) as H1.
           pose proof (IH (a :: s) (b :: t) u) as H2.
           pose proof (IH (a :: s) t u) as H3.
           pose proof (IH (a :: s) t (c :: u)) as H3'.
           pose proof (IH s t (c :: u)) as H4.
           pose proof (IH s t u) as H5.
           pose proof (IH (a :: s) t u) as H6.
           cbn [length] in *.
           specialize (H1 ltac:(lia)). specialize (H2 ltac:(lia)).
           specialize (H3 ltac:(lia)). specialize (H3' ltac:(lia)).
           specialize (H4 ltac:(lia)). specialize (H5 ltac:(lia)).
           assert (Hc : (if Ascii.eqb a c then 0 else 1) <=
                        (if Ascii.eqb a b then 0 else 1) + (if Ascii.eqb b c then 0 else 1)).
           { destruct (Ascii.eqb a b) eqn:E1, (Ascii.eqb b c) eqn:E2,
                      (Ascii.eqb a c) eqn:E3; try lia.
             apply Ascii.eqb_eq in E1, E2. subst. rewrite Ascii.eqb_refl in E3.
             discriminate. }
           pose proof (edit_distance_cons a s b t) as E1.
           pose proof (edit_distance_cons b t c u) as E2.
           pose proof (edit_distance_cons a s c u) as E3.
           set (x := if Ascii.eqb a b then 0 else 1) in *.
           set (y := if Ascii.eqb b c then 0 else 1) in *.
           set (z := if Ascii.eqb a c then 0 else 1) in *.
           lia.
Qed.

Lemma edit_distance_triangle s t u :
  edit_distance s u <= edit_distance s t + edit_distance t u.
Proof. apply (edit_distance_triangle_bounded _ s t u (le_n _)). Qed.

Lemma chars_back_rev : forall s acc,
  chars_back s acc = rev (list_ascii_of_string s) ++ acc.
Proof.
  induction s as [|c s IH]; intros acc; cbn.
  - reflexivity.
  - rewrite IH, <- app_assoc. reflexivity.
Qed.

Lemma chars_back_length s : length (chars_back s []) = String.length s.
Proof.
  rewrite chars_back_rev, app_nil_r, length_rev.
  induction s; cbn; congruence.
Qed.

Lemma chars_back_inj s t : chars_back s [] = chars_back t [] -> s = t.
Proof.
  rewrite !chars_back_rev, !app_nil_r. intros H.
  apply (f_equal (@rev ascii)) in H. rewrite !rev_involutive in H.
  rewrite <- (string_of_list_ascii_of_string s), <- (string_of_list_ascii_of_string t).
  congruence.
Qed.

End EditDistance.

Section EditDistanceOfStrings.


Lemma levenshteinDistance_zero s t : levenshteinDistance s t = 0 <-> s = t.
Proof.
  rewrite levenshteinDistance_recurrence. split.
  - intros H. apply chars_back_inj, edit_distance_zero, H.
  - intros ->. apply edit_distance_refl.
Qed.

Lemma levenshteinDistance_le_max s t :
  levenshteinDistance s t <= Nat.max (String.length s) (String.length t).
Proof.
  rewrite levenshteinDistance_recurrence.
  pose proof (edit_distance_upper (chars_back s []) (chars_back t [])) as Hu.
  rewrite !chars_back_length in Hu. exact Hu.
Qed.

(** X1 (levenshteinDistance): the distance is a metric on strings. It is
    zero exactly between a string and itself, it does not depend on the
    order of its arguments, and going through a third string never
    shortens it. *)
Theorem levenshteinDistance_is_a_metric :
  (forall s t : string, levenshteinDistance s t = 0 <-> s = t) /\
  (forall s t : string, levenshteinDistance s t = levenshteinDistance t s) /\
  (forall s t u : string,
     levenshteinDistance s u <= levenshteinDistance s t + levenshteinDistance t u).
Proof.
  split; [|split].
  - apply levenshteinDistance_zero.
  - intros s t. rewrite !levenshteinDistance_recurrence. apply edit_distance_sym.
  - intros s t u. rewrite !levenshteinDistance_recurrence. apply edit_distance_triangle.
Qed.

(** X2 (levenshteinDistance): against the empty string the distance is
    the length of the other string; in general it lies between the
    difference of the two lengths and the greater of them. *)
Theorem levenshteinDistance_bounds :
  forall s t : string,
    levenshteinDistance s "" = String.length s /\
    levenshteinDistance "" t = String.length t /\
    levenshteinDistance s t <= Nat.max (String.length s) (String.length t) /\
    String.length s - String.length t <= levenshteinDistance s t /\
    String.length t - String.length s <= levenshteinDistance s t.
Proof.
  intros s t.
  pose proof (levenshteinDistance_le_max s t) as Hu.
  rewrite !levenshteinDistance_recurrence in *.
  pose proof (edit_distance_lower (chars_back s []) (chars_back t [])) as Hl.
  rewrite !chars_back_length in Hl.
  repeat split; try lia.
  - cbn [chars_back]. rewrite edit_distance_nil_r. apply chars_back_length.
  - cbn [chars_back edit_distance]. apply chars_back_length.
Qed.



End EditDistanceOfStrings.

(** ** Name validation: which candidate wins, and what every result
       satisfies *)

Section NameValidationMore.

(** A candidate that is not closer than the best one so far leaves the
    loop state as it is. *)
Lemma fold_scan_keeps name b d : forall post,
  (forall c n, In c post -> candidateName c = Some n -> acceptable name n ->
               d <= distance name n) ->
  fold_left (scan_step name) post (Some b, Some d) = (Some b, Some d).
Proof.
  induction post as [|c post IH]; intros Hpost; [reflexivity|].
  cbn [fold_left].
  assert (Hstep : scan_step name (Some b, Some d) c = (Some b, Some d)).
  { unfold scan_step. destruct (candidateName c) as [n|] eqn:Hn; [|reflexivity].
    cbv zeta.
    destruct ((0.6 <? similarity name n)%float) eqn:Hacc.
    - assert (Hle : d <= distance name n)
        by (apply (Hpost c n); [left; reflexivity|exact Hn|exact Hacc]).
      cbn [snd below]. apply Nat.ltb_ge in Hle. rewrite Hle. reflexivity.
    - rewrite andb_false_r. reflexivity. }
  rewrite Hstep. apply IH. intros c' n' Hin. apply Hpost. right. exact Hin.
Qed.

Lemma scan_earliest_closest name pre c post n :
  candidateName c = Some n ->
  acceptable name n ->
  (forall c' n', In c' pre -> candidateName c' = Some n' -> acceptable name n' ->
                 distance name n < distance name n') ->
  (forall c' n', In c' post -> candidateName c' = Some n' -> acceptable name n' ->
                 distance name n <= distance name n') ->
  scan name (pre ++ c :: post) =
    Some {| best_name := n; best_rxcui := candidateRxcui c;
            best_confidence := similarity name n |}.
Proof.
  intros Hn Hacc Hpre Hpost. unfold scan.
  rewrite fold_left_app. cbn [fold_left].
  assert (H0 : scan_inv name [] (None, None)) by (intros c0 n0 []).
  pose proof (fold_scan_inv name pre [] (None, None) H0) as Hinv.
  cbn [app] in Hinv.
  set (st := fold_left (scan_step name) pre (None, None)) in *.
  assert (Hstep : scan_step name st c =
                  (Some {| best_name := n; best_rxcui := candidateRxcui c;
                           best_confidence := similarity name n |},
                   Some (distance name n))).
  { assert (Hb : below (distance name n) (snd st) = true).
    { destruct st as [[b|] [d|]]; cbn in Hinv |- *; try contradiction; [|reflexivity].
      destruct Hinv as (-> & _ & Hab & (c0 & Hin0 & Hn0 & _) & _).
      apply Nat.ltb_lt. exact (Hpre c0 (best_name b) Hin0 Hn0 Hab). }
    unfold scan_step. rewrite Hn. cbv zeta.
    rewrite Hb. unfold acceptable in Hacc. rewrite Hacc. reflexivity. }
  rewrite Hstep, (fold_scan_keeps name _ _ post Hpost). reflexivity.
Qed.

(** X4 (validateAndNormalizeDrugName, the loop over the candidates): among
    the acceptable candidates of the approximate search the validator
    returns the one of least distance, and of several at that distance
    the one the service lists first: a candidate that is strictly closer
    than every acceptable candidate before it and at least as close as
    every acceptable candidate after it is the correction, with its
    similarity as confidence and its identifier. *)
Theorem validator_returns_earliest_closest :
  forall (svc : Terminology) (name : string) (pre post : list Candidate)
         (c : Candidate) (n : string),
    usable name ->
    exact_hit svc name = None ->
    approximateTerm_json svc name = Ok (Some (pre ++ c :: post)) ->
    candidateName c = Some n ->
    acceptable name n ->
    (forall c' n', In c' pre -> candidateName c' = Some n' -> acceptable name n' ->
                   distance name n < distance name n') ->
    (forall c' n', In c' post -> candidateName c' = Some n' -> acceptable name n' ->
                   distance name n <= distance name n') ->
    validateAndNormalizeDrugName svc (Some name) =
      {| valid := true; originalName := Some name; correctedName := Some n;
         confidence := similarity name n; validation_rxcui := candidateRxcui c;
         wasCorrected := true; suggestions := None |}.
Proof.
  intros svc name pre post c n Hu Hex Happ Hn Hacc Hpre Hpost.
  rewrite (validate_exact_miss svc name Hu Hex), Happ. cbv zeta.
  rewrite (scan_earliest_closest name pre c post n Hn Hacc Hpre Hpost).
  reflexivity.
Qed.

Lemma validator_returns_earliest_closest_witness :
  validateAndNormalizeDrugName
    (spelling_service [CandString "Xylometazoline";
                       CandObject (Some "Lisinopril") (Some "29046");
                       CandObject (Some "Listnoprol") (Some "0")])
    (Some "Listnopril") =
  {| valid := true; originalName := Some "Listnopril";
     correctedName := Some "Lisinopril";
     confidence := similarity "Listnopril" "Lisinopril";
     validation_rxcui := Some "29046";
     wasCorrected := true; suggestions := None |}.
Proof.
  apply (validator_returns_earliest_closest _ "Listnopril"
           [CandString "Xylometazoline"]
           [CandObject (Some "Listnoprol") (Some "0")]
           (CandObject (Some "Lisinopril") (Some "29046")) "Lisinopril").
  - split; discriminate.
  - reflexivity.
  - reflexivity.
  - reflexivity.
  - vm_compute. reflexivity.
  - intros c' n' [<-|[]] Hn' Hacc. injection Hn' as <-.
    vm_compute in Hacc. discriminate Hacc.
  - intros c' n' [<-|[]] Hn' _. injection Hn' as <-. vm_compute. lia.
Defined.

(** X5 (validateAndNormalizeDrugName): what every result satisfies,
    whatever the service answers and whatever the input. *)
Theorem validation_result_invariants :
  forall (svc : Terminology) (drugName : option string),
    let r := validateAndNormalizeDrugName svc drugName in
    originalName r = drugName /\
    (valid r = false ->
       correctedName r = None /\ confidence r = 0%float /\
       validation_rxcui r = None /\ wasCorrected r = false) /\
    (valid r = true ->
       (exists name, drugName = Some name /\ usable name) /\
       suggestions r = None /\
       (wasCorrected r = false -> confidence r = 1%float) /\
       (wasCorrected r = true ->
          (0.6 <? confidence r)%float = true /\
          exists n, correctedName r = Some n /\ n <> "")).
Proof.
  intros svc drugName r. subst r.
  destruct drugName as [name|]; [|cbn; repeat split; intros; discriminate].
  destruct (String.eqb name "" || String.eqb name CLARIFICATION_NEEDED) eqn:Hg.
  { unfold validateAndNormalizeDrugName. rewrite Hg.
    cbn; repeat split; intros; discriminate. }
  assert (Hu : usable name).
  { apply orb_false_iff in Hg as [H1 H2]. split; apply String.eqb_neq; assumption. }
  destruct (exact_hit svc name) as [first|] eqn:Hex.
  - rewrite (validate_exact_hit svc name first Hu Hex). cbn.
    repeat split; intros; try discriminate; eauto.
  - rewrite (validate_exact_miss svc name Hu Hex).
    destruct (approximateTerm_json svc name) as [cands|e].
    + cbv zeta.
      pose proof (scan_spec name (match cands with Some cs => cs | None => [] end)) as Hs.
      destruct (scan name (match cands with Some cs => cs | None => [] end)) as [b|].
      * destruct Hs as (Hconf & Hacc & (c & _ & Hc & _) & _). cbn.
        repeat split; intros; try discriminate; eauto.
        -- rewrite Hconf. exact Hacc.
        -- exists (best_name b). split; [reflexivity|].
           exact (candidateName_nonempty c _ Hc).
      * cbn. repeat split; intros; discriminate.
    + cbn. repeat split; intros; discriminate.
Qed.

Lemma validation_result_invariants_witness :
  let r := validateAndNormalizeDrugName demo_terminology (Some "Metfrmn") in
  valid r = true /\ wasCorrected r = true /\
  (0.6 <? confidence r)%float = true /\
  exists n, correctedName r = Some n /\ n <> "".
Proof.
  cbv zeta.
  destruct (validation_result_invariants demo_terminology (Some "Metfrmn"))
    as (_ & _ & Hv).
  assert (H1 : valid (validateAndNormalizeDrugName demo_terminology (Some "Metfrmn")) = true)
    by (vm_compute; reflexivity).
  assert (H2 : wasCorrected (validateAndNormalizeDrugName demo_terminology (Some "Metfrmn")) = true)
    by (vm_compute; reflexivity).
  destruct (Hv H1) as (_ & _ & _ & Hc).
  split; [exact H1|]. split; [exact H2|]. exact (Hc H2).
Defined.

End NameValidationMore.

(** ** The safety flag of combined and reordered findings *)

Section SafetyFlagMore.

Lemma some_tier_app n a b : some_tier n (a ++ b) = some_tier n a || some_tier n b.
Proof. unfold some_tier. apply existsb_app. Qed.

Lemma some_tier_permutation n a b : Permutation a b -> some_tier n a = some_tier n b.
Proof.
  unfold some_tier.
  induction 1 as [|f a b _ IH|f g a|a b c _ IH1 _ IH2]; cbn.
  - reflexivity.
  - rewrite IH. reflexivity.
  - destruct (tier g =? n)%Z, (tier f =? n)%Z; reflexivity.
  - congruence.
Qed.

(** X6 (determineSafetyFlag): the flag of two lists of findings put
    together is the more severe of their flags, and the verdict (flag and
    reasoning) does not depend on the order of the findings. *)
Theorem determineSafetyFlag_combines :
  (forall a b : list Finding,
     flag_rank (flag (determineSafetyFlag (a ++ b))) =
     Nat.max (flag_rank (flag (determineSafetyFlag a)))
             (flag_rank (flag (determineSafetyFlag b)))) /\
  (forall a b : list Finding,
     Permutation a b -> determineSafetyFlag a = determineSafetyFlag b).
Proof.
  split.
  - intros a b. rewrite !flag_cases, !some_tier_app.
    destruct (some_tier 1 a), (some_tier 1 b), (some_tier 2 a), (some_tier 2 b);
      reflexivity.
  - intros a b Hp. unfold determineSafetyFlag.
    rewrite (some_tier_permutation 1 a b Hp), (some_tier_permutation 2 a b Hp).
    destruct a as [|f a], b as [|g b]; try reflexivity.
    + apply Permutation_nil in Hp. discriminate.
    + apply Permutation_sym, Permutation_nil in Hp. discriminate.
Qed.

Lemma determineSafetyFlag_combines_witness :
  let diet := mkFinding 3 "Grapefruit" "d" None "r" in
  let crit := mkFinding 1 "aspirin" "d" None "r" in
  Permutation [diet; crit] [crit; diet] /\
  determineSafetyFlag [diet; crit] = determineSafetyFlag [crit; diet].
Proof.
  cbv zeta.
  assert (Hp : Permutation [mkFinding 3 "Grapefruit" "d" None "r";
                            mkFinding 1 "aspirin" "d" None "r"]
                           [mkFinding 1 "aspirin" "d" None "r";
                            mkFinding 3 "Grapefruit" "d" None "r"])
    by apply perm_swap.
  split; [exact Hp|].
  exact (proj2 determineSafetyFlag_combines _ _ Hp).
Defined.

End SafetyFlagMore.

(** ** Interaction findings *)

Section InteractionsMore.

Lemma dietary_table_tiers key l :
  own dietaryMap key = Some l -> Forall (fun f => tier f = 2%Z \/ tier f = 3%Z) l.
Proof.
  unfold dietaryMap. cbn [own].
  repeat (destruct (String.eqb _ key);
          [intros H; injection H as <-;
           repeat (apply List.Forall_cons; [cbn; auto|]); apply List.Forall_nil|]).
  discriminate.
Qed.

Lemma dietary_findings_tiers drugName :
  Forall (fun f => tier f = 2%Z \/ tier f = 3%Z) (dietary_findings drugName).
Proof.
  unfold dietary_findings.
  destruct (own dietaryMap (toLowerCase drugName)) as [l|] eqn:H.
  - exact (dietary_table_tiers _ _ H).
  - constructor.
Qed.

Lemma spread_dietary_tiers drugName l :
  spread (getDietaryInteractions drugName) = Ok l ->
  Forall (fun f => tier f = 2%Z \/ tier f = 3%Z) l.
Proof.
  unfold getDietaryInteractions, js_get.
  destruct (own dietaryMap (toLowerCase drugName)) as [l'|] eqn:H.
  - cbn. intros E. injection E as <-. exact (dietary_table_tiers _ _ H).
  - destruct (existsb _ _); cbn; intros E; [discriminate|].
    injection E as <-. constructor.
Qed.

Lemma weaken_tiers l :
  Forall (fun f => tier f = 2%Z \/ tier f = 3%Z) l -> Forall tiered l.
Proof.
  intros H. eapply List.Forall_impl; [|exact H].
  intros f. unfold tiered. tauto.
Qed.

Lemma pair_tier_cases pair :
  pair_tier pair = 1%Z \/ pair_tier pair = 2%Z \/ pair_tier pair = 3%Z.
Proof.
  unfold pair_tier.
  destruct (_ || _); [auto|]. destruct (_ || _); auto.
Qed.

Lemma fallback_tiers drugName currentMeds l :
  getFallbackInteractions drugName currentMeds = Ok l -> Forall tiered l.
Proof.
  unfold getFallbackInteractions.
  destruct (spread (getDietaryInteractions drugName)) as [dietary|e] eqn:Hd.
  - pose proof (weaken_tiers _ (spread_dietary_tiers _ _ Hd)) as Hdt.
    destruct (js_get knownInteractions (toLowerCase drugName)) as [partners| |].
    + cbn [mbind result_bind]. intros E. injection E as <-.
      apply Forall_app. split; [|exact Hdt].
      apply List.Forall_forall. intros f Hin.
      apply in_flat_map in Hin as (med & _ & Hin).
      destruct (array_includes partners (toLowerCase med)); [|destruct Hin].
      destruct Hin as [<-|[]]. left. reflexivity.
    + destruct currentMeds; cbn [mbind result_bind]; intros E; [|discriminate].
      injection E as <-. exact Hdt.
    + cbn [mbind result_bind]. intros E. injection E as <-. exact Hdt.
  - destruct (js_get knownInteractions (toLowerCase drugName)) as [partners| |];
      [| destruct currentMeds |]; cbn [mbind result_bind]; discriminate.
Qed.

Lemma try_tiers svc drugName currentMeds l :
  checkInteractions_try svc drugName currentMeds = Ok l -> Forall tiered l.
Proof.
  unfold checkInteractions_try.
  destruct (negb (truthy (getRxCUI svc drugName))); [apply fallback_tiers|].
  destruct (interaction_json svc _) as [groups|e]; cbn [mbind result_bind];
    [|discriminate].
  match goal with
  | |- mbind _ ?r = _ -> _ => destruct r as [withMeds|e] eqn:Hw
  end; cbn [mbind result_bind]; [|discriminate].
  destruct (spread (getDietaryInteractions drugName)) as [dietary|e] eqn:Hd;
    cbn [mbind result_bind]; [|discriminate].
  intros E. injection E as <-.
  apply Forall_app. split; [|apply Forall_app; split].
  - apply List.Forall_forall. intros f Hin. apply in_map_iff in Hin as (pair & <- & _).
    exact (pair_tier_cases pair).
  - destruct currentMeds as [|m ms].
    + injection Hw as <-. constructor.
    + destruct (Nat.ltb 1 _).
      * destruct (interaction_list_json svc _) as [full|e];
          cbn [mbind result_bind] in Hw; [|discriminate].
        injection Hw as <-.
        apply List.Forall_forall. intros f Hin.
        apply in_map_iff in Hin as (pair & <- & _). right. left. reflexivity.
      * injection Hw as <-. constructor.
  - exact (weaken_tiers _ (spread_dietary_tiers _ _ Hd)).
Qed.

Lemma checkInteractions_tiers svc drugName currentMeds l :
  checkInteractions svc drugName currentMeds = Ok l -> Forall tiered l.
Proof.
  unfold checkInteractions.
  destruct (checkInteractions_try svc drugName currentMeds) as [l'|e] eqn:Ht;
    cbn [try_catch].
  - intros E. injection E as <-. exact (try_tiers _ _ _ _ Ht).
  - apply fallback_tiers.
Qed.

(** X7 (checkInteractions, getFallbackInteractions, getDietaryInteractions):
    every finding that [checkInteractions] returns, from the service or
    from the static tables, has tier 1, 2 or 3; so the flag computed from
    the findings is GREEN exactly when all of them are dietary-level
    (tier 3) findings. *)
Theorem checkInteractions_findings_are_tiered :
  forall (svc : Terminology) (drugName : string) (currentMeds : list string)
         (l : list Finding),
    checkInteractions svc drugName currentMeds = Ok l ->
    Forall tiered l /\
    (flag (determineSafetyFlag l) = GREEN <-> Forall (fun f => tier f = 3%Z) l).
Proof.
  intros svc drugName currentMeds l Hl.
  pose proof (checkInteractions_tiers _ _ _ _ Hl) as Ht.
  split; [exact Ht|].
  destruct (flag_iff l) as (_ & _ & Hg). rewrite Hg.
  rewrite !List.Forall_forall in *. unfold has_tier. split.
  - intros [H1 H2] f Hin. destruct (Ht f Hin) as [E|[E|E]]; [| |exact E].
    + exfalso. apply H1. eauto.
    + exfalso. apply H2. eauto.
  - intros H3. split; intros (f & Hin & E); rewrite (H3 f Hin) in E; discriminate.
Qed.

Lemma checkInteractions_findings_are_tiered_witness :
  exists l, checkInteractions unreachable "Lisinopril" ["Aspirin"] = Ok l /\
            Forall tiered l /\ flag (determineSafetyFlag l) = GREEN.
Proof.
  eexists. split; [reflexivity|].
  destruct (checkInteractions_findings_are_tiered unreachable "Lisinopril" ["Aspirin"]
              _ eq_refl) as [Ht Hg].
  split; [exact Ht|]. apply Hg. repeat constructor.
Defined.

Lemma known_in_filter drugName currentMeds :
  has_known_partner drugName currentMeds <->
  List.filter (fun med => array_includes (known_partners drugName) (toLowerCase med))
              currentMeds <> [].
Proof.
  unfold has_known_partner, array_includes. split.
  - intros (med & Hin & Hp) E.
    assert (Hf : In med (List.filter
                   (fun med => existsb (String.eqb (toLowerCase med))
                                       (known_partners drugName)) currentMeds)).
    { apply filter_In. split; [exact Hin|]. apply existsb_exists.
      exists (toLowerCase med). split; [exact Hp|apply String.eqb_refl]. }
    rewrite E in Hf. destruct Hf.
  - intros Hne.
    destruct (List.filter _ currentMeds) as [|med rest] eqn:E; [contradiction|].
    assert (Hf : In med (List.filter
                   (fun med => existsb (String.eqb (toLowerCase med))
                                       (known_partners drugName)) currentMeds))
      by (rewrite E; left; reflexivity).
    apply filter_In in Hf as [Hin Hp]. apply existsb_exists in Hp as (p & Hp & Heq).
    apply String.eqb_eq in Heq. subst p. eauto.
Qed.

(** X8 (checkInteractions with getFallbackInteractions, then
    determineSafetyFlag, as POST /api/interaction/check chains them):
    when the identifier lookup yields nothing (the service is down or
    does not know the drug), the findings for a drug whose key is not an
    inherited property name are those of the static tables, and the flag
    is RED exactly when some current medication is, up to letter case, a
    listed partner of the drug in the fallback table; without such a
    partner the findings are the dietary findings of the drug alone. The
    route answers 200 with these findings and their verdict. *)
Theorem outage_flag_is_red_iff_known_partner :
  forall (svc : Terminology) (drugName : string) (currentMeds : list string),
    plain_key drugName ->
    truthy (getRxCUI svc drugName) = false ->
    exists l,
      checkInteractions svc drugName currentMeds = Ok l /\
      (flag (determineSafetyFlag l) = RED <->
         has_known_partner drugName currentMeds) /\
      (~ has_known_partner drugName currentMeds ->
         l = dietary_findings drugName) /\
      (drugName <> "" ->
         interaction_check svc (Some drugName) (Some currentMeds) =
           Json (l, determineSafetyFlag l)).
Proof.
  intros svc drugName currentMeds Hk Hrx.
  destruct (checkInteractions_plain svc drugName currentMeds Hk) as (_ & Hfb & _).
  unfold interaction_check.
  rewrite (Hfb Hrx), (getFallbackInteractions_plain drugName currentMeds Hk).
  eexists. split; [reflexivity|].
  rewrite known_in_filter.
  set (hits := List.filter _ currentMeds).
  split; [|split].
  - destruct (flag_iff (map (known_finding drugName) hits ++ dietary_findings drugName))
      as (Hr & _). rewrite Hr. unfold has_tier. split.
    + intros (f & Hin & Ht) E. rewrite E in Hin. cbn in Hin.
      pose proof (dietary_findings_tiers drugName) as Hd.
      rewrite List.Forall_forall in Hd. destruct (Hd f Hin); congruence.
    + intros Hne. destruct hits as [|med rest]; [contradiction|].
      exists (known_finding drugName med). split; [left; reflexivity|reflexivity].
  - intros Hno. destruct hits as [|med rest]; [reflexivity|].
    exfalso. apply Hno. discriminate.
  - intros Hne. apply String.eqb_neq in Hne. cbn [truthy or_else]. rewrite Hne.
    cbn [negb].
    rewrite (Hfb Hrx), (getFallbackInteractions_plain drugName currentMeds Hk).
    reflexivity.
Qed.

Lemma outage_flag_is_red_iff_known_partner_witness :
  plain_key "Warfarin" /\
  truthy (getRxCUI unreachable "Warfarin") = false /\
  has_known_partner "Warfarin" ["Metformin"; "IBUPROFEN"] /\
  exists l, checkInteractions unreachable "Warfarin" ["Metformin"; "IBUPROFEN"] = Ok l /\
            flag (determineSafetyFlag l) = RED.
Proof.
  assert (Hk : plain_key "Warfarin") by reflexivity.
  assert (Hrx : truthy (getRxCUI unreachable "Warfarin") = false) by reflexivity.
  assert (Hp : has_known_partner "Warfarin" ["Metformin"; "IBUPROFEN"]).
  { exists "IBUPROFEN". split; [right; left; reflexivity|].
    right. left. reflexivity. }
  destruct (outage_flag_is_red_iff_known_partner unreachable "Warfarin"
              ["Metformin"; "IBUPROFEN"] Hk Hrx) as (l & Hl & Hred & _).
  split; [exact Hk|]. split; [exact Hrx|]. split; [exact Hp|].
  exists l. split; [exact Hl|]. apply Hred. exact Hp.
Defined.

End InteractionsMore.

(** ** The safety checker *)

Section SafetyCheckerMore.

Lemma startsWith_refl s : startsWith s s = true.
Proof. induction s as [|c s IH]; cbn; [reflexivity|]. rewrite Ascii.eqb_refl. exact IH. Qed.

Lemma includes_refl s : includes s s = true.
Proof. destruct s; cbn; [reflexivity|]. rewrite Ascii.eqb_refl, startsWith_refl. reflexivity. Qed.

Lemma first_contained_spec n : forall entries,
  (first_contained n entries <> None <->
     exists key rule, In (key, rule) entries /\ includes n key = true).
Proof.
  induction entries as [|[key rule] rest IH]; cbn [first_contained].
  - split; [congruence|]. intros (k & r & [] & _).
  - destruct (includes n key) eqn:E.
    + split; [|discriminate]. intros _. exists key, rule. split; [left; reflexivity|exact E].
    + rewrite IH. split.
      * intros (k & r & Hin & Hk). exists k, r. split; [right; exact Hin|exact Hk].
      * intros (k & r & [Hin|Hin] & Hk).
        -- injection Hin as <- <-. congruence.
        -- eauto.
Qed.

(** In the food table no key occurs inside another, so a name that is a
    key contains no earlier key. *)
Lemma food_exact_is_first n v :
  own FOOD_INTERACTIONS n = Some v -> first_contained n FOOD_INTERACTIONS = Some v.
Proof.
  unfold FOOD_INTERACTIONS. cbn [own].
  repeat (destruct (String.eqb _ n) eqn:E;
          [apply String.eqb_eq in E; subst n; intros H; injection H as <-;
           vm_compute; reflexivity|clear E]).
  discriminate.
Qed.

Lemma checkFoodInteractions_hit_iff drugName :
  hasFoodInteraction (checkFoodInteractions drugName) = true <->
  inherited_name (normalized drugName) \/
  exists key rule, In (key, rule) FOOD_INTERACTIONS /\
                   includes (normalized drugName) key = true.
Proof.
  unfold checkFoodInteractions, js_get, inherited_name.
  fold (normalized drugName). set (n := normalized drugName).
  pose proof (first_contained_spec n FOOD_INTERACTIONS) as Hfc.
  destruct (own FOOD_INTERACTIONS n) as [v|] eqn:Hown.
  - pose proof (food_exact_is_first n v Hown) as Hfirst.
    split; [|reflexivity]. intros _. right. apply Hfc. congruence.
  - destruct (existsb (String.eqb n) object_prototype_keys).
    + split; [auto|reflexivity].
    + destruct (first_contained n FOOD_INTERACTIONS) as [rule|].
      * split; [|reflexivity]. intros _. right. apply Hfc. discriminate.
      * split; [discriminate|].
        intros [H|H]; [discriminate|]. apply Hfc in H. congruence.
Qed.

Lemma checkFoodInteractions_plain drugName :
  ~ inherited_name (normalized drugName) ->
  checkFoodInteractions drugName =
    match first_contained (normalized drugName) FOOD_INTERACTIONS with
    | Some rule => food_hit rule
    | None => food_miss
    end.
Proof.
  unfold checkFoodInteractions, js_get, inherited_name.
  fold (normalized drugName). set (n := normalized drugName).
  destruct (own FOOD_INTERACTIONS n) as [v|] eqn:Hown.
  - rewrite (food_exact_is_first n v Hown). reflexivity.
  - destruct (existsb (String.eqb n) object_prototype_keys); [congruence|reflexivity].
Qed.

(** X10 (checkFoodInteractions): an interaction is reported exactly when
    the normalised name contains a key of the table or is an inherited
    property name; for a name that is not an inherited property name the
    report is the entry of the first key, in table order, that the name
    contains: the exact lookup never changes the answer. *)
Theorem checkFoodInteractions_is_first_contained_key :
  forall drugName : string,
    let n := normalized drugName in
    (hasFoodInteraction (checkFoodInteractions drugName) = true <->
       inherited_name n \/
       exists key rule, In (key, rule) FOOD_INTERACTIONS /\ includes n key = true) /\
    (~ inherited_name n ->
       checkFoodInteractions drugName =
         match first_contained n FOOD_INTERACTIONS with
         | Some rule => food_hit rule
         | None => food_miss
         end).
Proof.
  intros drugName n. split.
  - apply checkFoodInteractions_hit_iff.
  - apply checkFoodInteractions_plain.
Qed.

Lemma checkFoodInteractions_is_first_contained_key_witness :
  ~ inherited_name (normalized " Aspirin-Warfarin combo ") /\
  avoid (checkFoodInteractions " Aspirin-Warfarin combo ") =
    Some ["vitamin K-rich foods (spinach, kale)"; "alcohol"; "cranberry juice"].
Proof.
  assert (H : ~ inherited_name (normalized " Aspirin-Warfarin combo "))
    by (vm_compute; discriminate).
  split; [exact H|].
  rewrite (proj2 (checkFoodInteractions_is_first_contained_key
                    " Aspirin-Warfarin combo ") H).
  vm_compute. reflexivity.
Defined.

Lemma age_hits_labels cat sev n table :
  Forall (fun w => category w = cat /\ age_severity w = sev) (age_hits cat sev n table).
Proof.
  unfold age_hits. apply List.Forall_forall. intros w Hin.
  apply in_flat_map in Hin as ([drug rule] & _ & Hin).
  destruct (includes n drug); [|destruct Hin].
  destruct Hin as [<-|[]]. split; reflexivity.
Qed.

Lemma checkAgeWarnings_labels drugName a :
  Forall (fun w => (category w = "elderly" /\ age_severity w = "moderate" /\ (65 <= a)%Z) \/
                   (category w = "pediatric" /\ age_severity w = "high" /\ (a < 18)%Z))
         (checkAgeWarnings drugName a).
Proof.
  unfold checkAgeWarnings. apply Forall_app. split.
  - destruct (65 <=? a)%Z eqn:E; [|constructor]. apply Z.leb_le in E.
    eapply List.Forall_impl; [|apply age_hits_labels].
    intros w [H1 H2]. left. auto.
  - destruct (a <? 18)%Z eqn:E; [|constructor]. apply Z.ltb_lt in E.
    eapply List.Forall_impl; [|apply age_hits_labels].
    intros w [H1 H2]. right. auto.
Qed.

(** X11 (checkAgeWarnings): between 18 and 64 years no drug has an age
    warning; from 65 on every warning is an elderly one of moderate
    severity, below 18 every warning is a pediatric one of high
    severity. *)
Theorem checkAgeWarnings_by_age_band :
  forall (drugName : string) (patientAge : Z),
    ((18 <= patientAge < 65)%Z -> checkAgeWarnings drugName patientAge = []) /\
    ((65 <= patientAge)%Z ->
       Forall (fun w => category w = "elderly" /\ age_severity w = "moderate")
              (checkAgeWarnings drugName patientAge)) /\
    ((patientAge < 18)%Z ->
       Forall (fun w => category w = "pediatric" /\ age_severity w = "high")
              (checkAgeWarnings drugName patientAge)).
Proof.
  intros drugName a.
  pose proof (checkAgeWarnings_labels drugName a) as H.
  split; [|split]; intros Ha.
  - unfold checkAgeWarnings.
    destruct (65 <=? a)%Z eqn:E1; [apply Z.leb_le in E1; lia|].
    destruct (a <? 18)%Z eqn:E2; [apply Z.ltb_lt in E2; lia|]. reflexivity.
  - eapply List.Forall_impl; [|exact H]. intros w [(H1 & H2 & _)|(_ & _ & H3)]; [auto|lia].
  - eapply List.Forall_impl; [|exact H]. intros w [(_ & _ & H3)|(H1 & H2 & _)]; [lia|auto].
Qed.

Lemma checkAgeWarnings_by_age_band_witness :
  checkAgeWarnings "Aspirin" 40 = [] /\
  map category (checkAgeWarnings "Aspirin" 70) = ["elderly"] /\
  map category (checkAgeWarnings "Aspirin" 7) = ["pediatric"].
Proof.
  destruct (checkAgeWarnings_by_age_band "Aspirin" 40) as (H & _).
  split; [apply H; lia|]. split; reflexivity.
Defined.

End SafetyCheckerMore.

(** ** Dosage alerts *)

Section DosageAlerts.


Lemma append_cons c (a b : string) : String c a +:+ b = String c (a +:+ b).
Proof. reflexivity. Qed.

Lemma append_nil_l (b : string) : "" +:+ b = b.
Proof. reflexivity. Qed.


Lemma append_assoc (a b c : string) : (a +:+ b) +:+ c = a +:+ (b +:+ c).
Proof.
  induction a as [|x a IH]; rewrite ?append_cons, ?append_nil_l; [reflexivity|].
  f_equal. exact IH.
Qed.

Lemma append_nil_r (a : string) : a +:+ "" = a.
Proof.
  induction a as [|x a IH]; rewrite ?append_cons, ?append_nil_l; [reflexivity|].
  f_equal. exact IH.
Qed.















Lemma space_not_digit c : is_space c = true -> is_digit c = false.
Proof.
  unfold is_space, is_digit. intros H.
  apply orb_true_iff in H as [H|H].
  - apply andb_true_iff in H as [_ H]. apply N.leb_le in H.
    apply andb_false_iff. left. apply N.leb_gt. lia.
  - apply N.eqb_eq in H. rewrite H. reflexivity.
Qed.

Lemma toLowerCase_app a b : toLowerCase (a +:+ b) = toLowerCase a +:+ toLowerCase b.
Proof.
  induction a as [|c a IH]; rewrite ?append_cons, ?append_nil_l; cbn [toLowerCase]; [reflexivity|].
  rewrite IH. reflexivity.
Qed.





Lemma rule_alerts_severity dose rule :
  Forall (fun a => dose_severity a = "high" \/ dose_severity a = "critical")
         (rule_alerts dose rule).
Proof.
  unfold rule_alerts. apply Forall_app. split.
  - destruct (bound_reached _ _); repeat constructor.
  - destruct (bound_reached _ _); [|constructor].
    apply List.Forall_cons; [right; reflexivity|constructor].
Qed.

Lemma checkDosageAlerts_severity drugName dosageString alerts :
  checkDosageAlerts drugName dosageString = Ok alerts ->
  Forall (fun a => dose_severity a = "high" \/ dose_severity a = "critical") alerts.
Proof.
  unfold checkDosageAlerts.
  destruct (match_mg dosageString); [|intros E; injection E as <-; constructor].
  destruct (js_get DOSAGE_ALERTS _) as [rules| |]; intros E; try discriminate.
  - injection E as <-. apply List.Forall_forall. intros a Hin.
    apply in_flat_map in Hin as (rule & _ & Hin).
    pose proof (rule_alerts_severity (parseInt s) rule) as H.
    rewrite List.Forall_forall in H. exact (H a Hin).
  - injection E as <-. constructor.
Qed.

(** X13 (checkDosageAlerts, the rules): for a name that is not an
    inherited property name the check returns at most one alert, and it
    alerts exactly when the dosage names a dose in milligrams and the
    normalised name is exactly "aspirin" with a dose of at least 325,
    "acetaminophen" with a dose above 4000 or "ibuprofen" with a dose
    above 2400; a dosage without such a dose never alerts. *)
Theorem checkDosageAlerts_thresholds :
  forall drugName dosageString : string,
    ~ inherited_name (normalized drugName) ->
    exists alerts,
      checkDosageAlerts drugName dosageString = Ok alerts /\
      length alerts <= 1 /\
      (alerts <> [] <->
         exists dose, dose_of dosageString = Some dose /\
           ((normalized drugName = "aspirin" /\ (325 <= dose)%Z) \/
            (normalized drugName = "acetaminophen" /\ (4000 < dose)%Z) \/
            (normalized drugName = "ibuprofen" /\ (2400 < dose)%Z))).
Proof.
  intros drugName dosageString Hk.
  unfold checkDosageAlerts, dose_of, inherited_name in *.
  fold (normalized drugName). set (n := normalized drugName) in *.
  destruct (match_mg dosageString) as [digits|]; cbn [option_map].
  2:{ exists []. split; [reflexivity|]. split; [cbn; lia|].
      split; [congruence|]. intros (dose & E & _). discriminate. }
  set (dose := parseInt digits).
  unfold js_get, DOSAGE_ALERTS. cbn [own].
  destruct (String.eqb "aspirin" n) eqn:E1.
  { apply String.eqb_eq in E1. rewrite <- E1.
    cbn [flat_map rule_alerts minDose maxDaily bound_reached negb Z.eqb andb app].
    eexists. split; [reflexivity|].
    destruct (325 <=? dose)%Z eqn:Ed; cbn [app length].
    - apply Z.leb_le in Ed. split; [lia|]. split; [|discriminate].
      intros _. exists dose. split; [reflexivity|]. left. auto.
    - apply Z.leb_gt in Ed. split; [lia|]. split; [congruence|].
      intros (d & Hd & [[_ H]|[[H _]|[H _]]]); try discriminate H.
      injection Hd as <-. lia. }
  destruct (String.eqb "acetaminophen" n) eqn:E2.
  { apply String.eqb_eq in E2. rewrite <- E2.
    cbn [flat_map rule_alerts minDose maxDaily bound_reached negb Z.eqb andb app].
    eexists. split; [reflexivity|].
    destruct (4000 <? dose)%Z eqn:Ed; cbn [app length].
    - apply Z.ltb_lt in Ed. split; [lia|]. split; [|discriminate].
      intros _. exists dose. split; [reflexivity|]. right. left. auto.
    - apply Z.ltb_ge in Ed. split; [lia|]. split; [congruence|].
      intros (d & Hd & [[H _]|[[_ H]|[H _]]]); try discriminate H.
      injection Hd as <-. lia. }
  destruct (String.eqb "ibuprofen" n) eqn:E3.
  { apply String.eqb_eq in E3. rewrite <- E3.
    cbn [flat_map rule_alerts minDose maxDaily bound_reached negb Z.eqb andb app].
    eexists. split; [reflexivity|].
    destruct (2400 <? dose)%Z eqn:Ed; cbn [app length].
    - apply Z.ltb_lt in Ed. split; [lia|]. split; [|discriminate].
      intros _. exists dose. split; [reflexivity|]. right. right. auto.
    - apply Z.ltb_ge in Ed. split; [lia|]. split; [congruence|].
      intros (d & Hd & [[H _]|[[H _]|[_ H]]]); try discriminate H.
      injection Hd as <-. lia. }
  destruct (existsb (String.eqb n) object_prototype_keys); [congruence|].
  exists []. split; [reflexivity|]. split; [cbn; lia|]. split; [congruence|].
  apply String.eqb_neq in E1, E2, E3.
  intros (d & _ & [[H _]|[[H _]|[H _]]]); congruence.
Qed.

Lemma checkDosageAlerts_thresholds_witness :
  ~ inherited_name (normalized "Aspirin") /\
  (exists alerts, checkDosageAlerts "Aspirin" "325mg" = Ok alerts /\ alerts <> []) /\
  checkDosageAlerts "Aspirin" "324mg" = Ok [] /\
  checkDosageAlerts "Ibuprofen" "2400mg" = Ok [].
Proof.
  assert (Hk : ~ inherited_name (normalized "Aspirin")) by (vm_compute; discriminate).
  split; [exact Hk|]. split; [|split; reflexivity].
  destruct (checkDosageAlerts_thresholds "Aspirin" "325mg" Hk) as (alerts & Ha & _ & Hiff).
  exists alerts. split; [exact Ha|]. apply Hiff.
  exists 325%Z. split; [reflexivity|]. left. split; [reflexivity|lia].
Defined.

End DosageAlerts.

(** ** The overall severity and the warning text *)

Section SafetyReports.

Lemma high_age_iff_pediatric drugName a :
  existsb (fun w => String.eqb (age_severity w) "high") (checkAgeWarnings drugName a) = true
  <-> has_pediatric (checkAgeWarnings drugName a).
Proof.
  pose proof (checkAgeWarnings_labels drugName a) as H.
  rewrite List.Forall_forall in H.
  rewrite existsb_exists. unfold has_pediatric.
  split; intros (w & Hin & Hw); exists w; (split; [exact Hin|]);
    destruct (H w Hin) as [(H1 & H2 & _)|(H1 & H2 & _)].
  - rewrite H2 in Hw. discriminate.
  - exact H1.
  - rewrite H1 in Hw. discriminate.
  - rewrite H2. reflexivity.
Qed.

Lemma alerts_exist_iff (doses : list DoseAlert) :
  Forall (fun a => dose_severity a = "high" \/ dose_severity a = "critical") doses ->
  existsb (fun a => String.eqb (dose_severity a) "high" ||
                    String.eqb (dose_severity a) "critical") doses = true
  <-> doses <> [].
Proof.
  intros H. destruct doses as [|a rest]; cbn [existsb].
  - split; [discriminate|congruence].
  - split; [discriminate|]. intros _.
    inversion H as [|? ? Ha _]; subst.
    destruct Ha as [-> | ->]; reflexivity.
Qed.

(** X14 (comprehensiveSafetyCheck): the overall severity is "high"
    exactly when the report holds a pediatric warning or any dosage
    alert, "moderate" exactly when it is not high and the report holds a
    food interaction or an age warning, and "low" otherwise; a missing
    age and an age of 0 give no age warning, and the list of current
    medications plays no part. *)
Theorem comprehensiveSafetyCheck_overall_severity :
  forall (drugName : string) (dosage : option string) (patientAge : option Z)
         (currentMeds : list string) (report : SafetyReport),
    comprehensiveSafetyCheck drugName dosage patientAge currentMeds = Ok report ->
    (overallSeverity report = "high" <-> report_high report) /\
    (overallSeverity report = "moderate" <-> ~ report_high report /\ report_some report) /\
    (overallSeverity report = "low" <-> ~ report_high report /\ ~ report_some report) /\
    (patientAge = None \/ patientAge = Some 0%Z -> ageWarnings report = []) /\
    (forall otherMeds,
       comprehensiveSafetyCheck drugName dosage patientAge otherMeds = Ok report).
Proof.
  intros drugName dosage patientAge currentMeds report.
  unfold comprehensiveSafetyCheck.
  set (ages := match patientAge with
               | Some a => if (a =? 0)%Z then [] else checkAgeWarnings drugName a
               | None => []
               end).
  destruct (if truthy dosage then checkDosageAlerts drugName (or_else dosage "") else Ok [])
    as [doses|e] eqn:Hdoses; cbn [mbind result_bind]; [|discriminate].
  assert (Hsev : Forall (fun a => dose_severity a = "high" \/ dose_severity a = "critical")
                        doses).
  { destruct (truthy dosage).
    - exact (checkDosageAlerts_severity _ _ _ Hdoses).
    - injection Hdoses as <-. constructor. }
  assert (Hage : existsb (fun w => String.eqb (age_severity w) "high") ages = true
                 <-> has_pediatric ages).
  { subst ages. destruct patientAge as [a|].
    - destruct (a =? 0)%Z; [|apply high_age_iff_pediatric].
      cbn. split; [discriminate|]. intros (w & [] & _).
    - cbn. split; [discriminate|]. intros (w & [] & _). }
  pose proof (alerts_exist_iff doses Hsev) as Hdose.
  intros E. injection E as <-. unfold report_high, report_some.
  cbn [overallSeverity ageWarnings dosageAlerts foodInteractions].
  assert (Hlen : negb (Nat.eqb (length ages) 0) = true <-> ages <> []).
  { destruct ages; cbn; split; congruence. }
  split; [|split; [|split; [|split]]].
  - destruct (existsb _ ages) eqn:E1; cbn [orb].
    + split; [|reflexivity]. intros _. left. apply Hage. reflexivity.
    + destruct (existsb _ doses) eqn:E2.
      * split; [|reflexivity]. intros _. right. apply Hdose. reflexivity.
      * split.
        -- destruct (_ || _); discriminate.
        -- intros [H|H]; [apply Hage in H|apply Hdose in H]; discriminate.
  - destruct (existsb _ ages) eqn:E1; cbn [orb].
    + split; [discriminate|]. intros [Hn _]. exfalso. apply Hn. left.
      apply Hage. reflexivity.
    + destruct (existsb _ doses) eqn:E2.
      * split; [discriminate|]. intros [Hn _]. exfalso. apply Hn. right.
        apply Hdose. reflexivity.
      * assert (Hnot : ~ (has_pediatric ages \/ doses <> [])).
        { intros [H|H]; [apply Hage in H|apply Hdose in H]; discriminate. }
        destruct (hasFoodInteraction (checkFoodInteractions drugName)); cbn [orb].
        -- split; [auto|reflexivity].
        -- destruct (negb (Nat.eqb (length ages) 0)) eqn:E3.
           ++ split; [|reflexivity]. intros _. split; [exact Hnot|].
              right. apply Hlen. reflexivity.
           ++ split; [discriminate|]. intros [_ [H|H]]; [discriminate|].
              apply Hlen in H. discriminate.
  - destruct (existsb _ ages) eqn:E1; cbn [orb].
    + split; [discriminate|]. intros [Hn _]. exfalso. apply Hn. left.
      apply Hage. reflexivity.
    + destruct (existsb _ doses) eqn:E2.
      * split; [discriminate|]. intros [Hn _]. exfalso. apply Hn. right.
        apply Hdose. reflexivity.
      * assert (Hnot : ~ (has_pediatric ages \/ doses <> [])).
        { intros [H|H]; [apply Hage in H|apply Hdose in H]; discriminate. }
        destruct (hasFoodInteraction (checkFoodInteractions drugName)); cbn [orb].
        -- split; [discriminate|]. intros [_ Hn]. exfalso. apply Hn. left. reflexivity.
        -- destruct (negb (Nat.eqb (length ages) 0)) eqn:E3.
           ++ split; [discriminate|]. intros [_ Hn]. exfalso. apply Hn.
              right. apply Hlen. reflexivity.
           ++ split; [|reflexivity]. intros _. split; [exact Hnot|].
              intros [H|H]; [discriminate|]. apply Hlen in H. discriminate.
  - subst ages. intros [-> | ->]; reflexivity.
  - intros otherMeds. reflexivity.
Qed.

Lemma comprehensiveSafetyCheck_overall_severity_witness :
  exists report,
    comprehensiveSafetyCheck "Aspirin" (Some "75mg") (Some 7%Z) ["Warfarin"] = Ok report /\
    report_high report /\ overallSeverity report = "high".
Proof.
  eexists. split; [reflexivity|].
  match goal with
  | |- report_high ?r /\ _ =>
      destruct (comprehensiveSafetyCheck_overall_severity
                  "Aspirin" (Some "75mg") (Some 7%Z) ["Warfarin"] r eq_refl)
        as (Hh & _)
  end.
  assert (H : report_high
                {| report_drugName := "Aspirin";
                   foodInteractions := checkFoodInteractions "Aspirin";
                   ageWarnings := checkAgeWarnings "Aspirin" 7;
                   dosageAlerts := [];
                   overallSeverity := "high" |}).
  { left. eexists. split; [left; reflexivity|reflexivity]. }
  split; [exact H|]. apply Hh. exact H.
Defined.

Lemma join_nonempty sep p rest : p <> "" -> join sep (p :: rest) <> "".
Proof.
  intros Hp. destruct p as [|c p]; [contradiction|].
  destruct rest; cbn [join]; [discriminate|].
  rewrite append_cons. discriminate.
Qed.

Lemma food_lines_empty fi lines :
  food_lines fi = Ok lines ->
  (lines = [] <-> hasFoodInteraction fi = false) /\ Forall (fun l => l <> "") lines.
Proof.
  unfold food_lines. destruct (hasFoodInteraction fi).
  - destruct (avoid fi) as [av|]; [|discriminate].
    intros E. injection E as <-. split; [split; discriminate|].
    apply List.Forall_cons; [rewrite !append_cons; discriminate|].
    destruct (truthy (timing fi)); [|constructor].
    apply List.Forall_cons; [rewrite !append_cons; discriminate|constructor].
  - intros E. injection E as <-. split; [tauto|constructor].
Qed.

Lemma warning_text_empty_iff report text :
  generateSafetyWarningText report = Ok text ->
  (text = "" <-> report_empty report).
Proof.
  unfold generateSafetyWarningText, report_empty.
  destruct (food_lines (foodInteractions report)) as [food|e] eqn:Hf;
    cbn [mbind result_bind]; [|discriminate].
  destruct (food_lines_empty _ _ Hf) as [Hfood Hne].
  intros E. injection E as <-. split.
  - intros Hj.
    destruct food as [|l food].
    + rewrite app_nil_l in Hj.
      destruct (ageWarnings report) as [|w ws].
      * cbn [flat_map app] in Hj.
        destruct (dosageAlerts report) as [|a ds].
        -- split; [apply Hfood; reflexivity|]. auto.
        -- exfalso. cbn [flat_map dose_lines app] in Hj.
           revert Hj. apply join_nonempty. rewrite append_cons. discriminate.
      * exfalso. cbn [flat_map age_lines app] in Hj.
        revert Hj. apply join_nonempty. rewrite append_cons. discriminate.
    + exfalso. revert Hj. cbn [app]. apply join_nonempty.
      inversion Hne; assumption.
  - intros (H1 & H2 & H3). apply Hfood in H1. subst food.
    rewrite H2, H3. reflexivity.
Qed.

Lemma warning_text_throws_iff report :
  (exists e, generateSafetyWarningText report = Throw e) <->
  hasFoodInteraction (foodInteractions report) = true /\
  avoid (foodInteractions report) = None.
Proof.
  unfold generateSafetyWarningText, food_lines.
  destruct (hasFoodInteraction (foodInteractions report)).
  - destruct (avoid (foodInteractions report)); cbn [mbind result_bind].
    + split; [intros (e & E); discriminate|intros [_ E]; discriminate].
    + split; [auto|eauto].
  - cbn [mbind result_bind].
    split; [intros (e & E); discriminate|intros [E _]; discriminate].
Qed.

(** X15 (generateSafetyWarningText): the text is empty exactly when the
    report has nothing to warn about (no food interaction, no age
    warning, no dosage alert), so that the nudge route leaves the warning
    label of the card alone in that case only; and the function throws
    exactly when the report claims a food interaction without a list of
    foods to avoid. *)
Theorem generateSafetyWarningText_empty_iff_nothing_to_report :
  forall report : SafetyReport,
    (forall text, generateSafetyWarningText report = Ok text ->
       (text = "" <-> report_empty report)) /\
    ((exists e, generateSafetyWarningText report = Throw e) <->
       hasFoodInteraction (foodInteractions report) = true /\
       avoid (foodInteractions report) = None).
Proof.
  intros report. split.
  - apply warning_text_empty_iff.
  - apply warning_text_throws_iff.
Qed.

Lemma generateSafetyWarningText_empty_iff_nothing_to_report_witness :
  exists report,
    comprehensiveSafetyCheck "Gabapentin" (Some "300mg") (Some 40%Z) [] = Ok report /\
    report_empty report /\
    forall text, generateSafetyWarningText report = Ok text -> text = "".
Proof.
  eexists. split; [reflexivity|].
  match goal with
  | |- report_empty ?r /\ _ =>
      assert (H : report_empty r) by (repeat split);
      destruct (generateSafetyWarningText_empty_iff_nothing_to_report r) as [Ht _]
  end.
  split; [exact H|]. intros text E. apply (Ht text E). exact H.
Defined.

End SafetyReports.

(** ** Substrings *)

Section Substrings.

Lemma startsWith_nil s : startsWith s "" = true.
Proof. destruct s; reflexivity. Qed.

Lemma startsWith_spec : forall p s,
  startsWith s p = true <-> exists post, s = p +:+ post.
Proof.
  induction p as [|a p IH]; intros s.
  - rewrite startsWith_nil. split; [intros _; exists s; reflexivity|reflexivity].
  - destruct s as [|b s]; cbn [startsWith].
    + split; [discriminate|]. intros (post & E). rewrite append_cons in E. discriminate.
    + rewrite andb_true_iff, Ascii.eqb_eq, IH. split.
      * intros (-> & post & ->). exists post. reflexivity.
      * intros (post & E). rewrite append_cons in E. injection E as <- ->. eauto.
Qed.

Lemma includes_spec sub : forall s,
  includes s sub = true <-> exists pre post, s = pre +:+ sub +:+ post.
Proof.
  induction s as [|c s IH].
  - cbn [includes]. rewrite orb_false_r, startsWith_spec. split.
    + intros (post & E). exists "", post. exact E.
    + intros (pre & post & E). destruct pre as [|x pre].
      * exists post. exact E.
      * rewrite append_cons in E. discriminate.
  - cbn [includes]. rewrite orb_true_iff, startsWith_spec, IH. split.
    + intros [(post & E)|(pre & post & E)].
      * exists "", post. exact E.
      * exists (String c pre), post. rewrite append_cons, E. reflexivity.
    + intros (pre & post & E). destruct pre as [|x pre].
      * left. exists post. exact E.
      * right. rewrite append_cons in E. injection E as <- ->. eauto.
Qed.

Lemma includes_inside pre s post sub :
  includes s sub = true -> includes (pre +:+ s +:+ post) sub = true.
Proof.
  rewrite !includes_spec. intros (a & b & ->).
  exists (pre +:+ a), (b +:+ post). rewrite !append_assoc. reflexivity.
Qed.

Lemma includes_trans a b c :
  includes a b = true -> includes b c = true -> includes a c = true.
Proof.
  intros Hab Hbc. apply includes_spec in Hab as (pre & post & ->).
  apply includes_inside. exact Hbc.
Qed.

Lemma join_contains sep part : forall parts,
  In part parts -> exists pre post, join sep parts = pre +:+ part +:+ post.
Proof.
  induction parts as [|p parts IH]; intros Hin; [destruct Hin|].
  destruct Hin as [->|Hin].
  - destruct parts as [|q parts].
    + exists "", "". cbn [join]. rewrite append_nil_r. reflexivity.
    + exists "", (sep +:+ join sep (q :: parts)). reflexivity.
  - destruct (IH Hin) as (pre & post & E).
    destruct parts as [|q parts]; [destruct Hin|].
    exists (p +:+ sep +:+ pre), post.
    change (join sep (p :: q :: parts)) with (p +:+ sep +:+ join sep (q :: parts)).
    rewrite E, !append_assoc. reflexivity.
Qed.

End Substrings.

(** ** Simplification *)

Section Simplification.

Lemma replace_gi_absent medical plain : forall s,
  includes (toLowerCase s) medical = false ->
  replace_gi medical plain 0 s = s.
Proof.
  induction s as [|c s IH]; [reflexivity|].
  cbn [toLowerCase includes replace_gi]. intros H.
  apply orb_false_iff in H as [Hs Hi].
  rewrite Hs, (IH Hi). reflexivity.
Qed.

Lemma fold_replace_absent (table : list (string * string)) : forall text,
  (forall medical plain, In (medical, plain) table ->
     includes (toLowerCase text) medical = false) ->
  fold_left (fun simplified '(medical, plain) => replace_gi medical plain 0 simplified)
            table text = text.
Proof.
  induction table as [|[medical plain] table IH]; intros text H; [reflexivity|].
  cbn [fold_left].
  rewrite (replace_gi_absent medical plain text (H medical plain (or_introl eq_refl))).
  apply IH. intros m p Hin. apply (H m p). right. exact Hin.
Qed.

Lemma simplifyText_term_free text : term_free text -> simplifyText text = text.
Proof. apply fold_replace_absent. Qed.

(** Every term of the substitution table contains a word of the jargon
    list. *)
Lemma terms_are_jargon medical plain :
  In (medical, plain) MEDICAL_TO_PLAIN ->
  exists word, In word jargonWords /\ includes medical word = true.
Proof.
  unfold MEDICAL_TO_PLAIN. cbn [In].
  intros H.
  repeat (destruct H as [H|H];
          [injection H as <- <-;
           first [ exists "contraindicated"; split; [cbn; tauto|reflexivity]
                 | exists "administered"; split; [cbn; tauto|reflexivity]
                 | exists "cardiovascular"; split; [cbn; tauto|reflexivity]
                 | exists "hypertension"; split; [cbn; tauto|reflexivity]
                 | exists "hypotension"; split; [cbn; tauto|reflexivity]
                 | exists "gastrointestinal"; split; [cbn; tauto|reflexivity]
                 | exists "adverse"; split; [cbn; tauto|reflexivity]
                 | exists "prophylactic"; split; [cbn; tauto|reflexivity]
                 | exists "subcutaneous"; split; [cbn; tauto|reflexivity]
                 | exists "intravenous"; split; [cbn; tauto|reflexivity]
                 | exists "therapeutic"; split; [cbn; tauto|reflexivity]
                 | exists "efficacy"; split; [cbn; tauto|reflexivity]
                 | exists "comorbidity"; split; [cbn; tauto|reflexivity] ]|]).
  destruct H.
Qed.

Lemma jargon_free_word text word :
  detectMedicalJargon text = [] -> In word jargonWords ->
  includes (toLowerCase text) word = false.
Proof.
  unfold detectMedicalJargon. intros Hnil Hin.
  destruct (includes (toLowerCase text) word) eqn:E; [|reflexivity].
  assert (Hf : In word (List.filter (fun w => includes (toLowerCase text) w) jargonWords))
    by (apply filter_In; auto).
  rewrite Hnil in Hf. destruct Hf.
Qed.

Lemma jargon_free_term_free text : detectMedicalJargon text = [] -> term_free text.
Proof.
  intros Hnil medical plain Hin.
  destruct (terms_are_jargon medical plain Hin) as (word & Hw & Hinc).
  destruct (includes (toLowerCase text) medical) eqn:E; [|reflexivity].
  rewrite <- (jargon_free_word text word Hnil Hw).
  symmetry. exact (includes_trans _ _ _ E Hinc).
Qed.

Lemma replace_gi_nonempty medical plain s :
  plain <> "" -> s <> "" -> replace_gi medical plain 0 s <> "".
Proof.
  intros Hp Hs. destruct s as [|c s]; [contradiction|].
  cbn [replace_gi]. destruct (startsWith _ medical).
  - destruct plain as [|x plain]; [contradiction|]. rewrite append_cons. discriminate.
  - discriminate.
Qed.

Lemma fold_replace_nonempty (table : list (string * string)) : forall text,
  Forall (fun entry => snd entry <> "") table ->
  text <> "" ->
  fold_left (fun simplified '(medical, plain) => replace_gi medical plain 0 simplified)
            table text <> "".
Proof.
  induction table as [|[medical plain] table IH]; intros text Hall Hne; [exact Hne|].
  cbn [fold_left]. inversion Hall as [|? ? Hp Hrest]; subst.
  apply IH; [exact Hrest|]. apply replace_gi_nonempty; assumption.
Qed.

Lemma simplifyText_nonempty text : text <> "" -> simplifyText text <> "".
Proof.
  apply fold_replace_nonempty.
  unfold MEDICAL_TO_PLAIN. repeat (apply List.Forall_cons; [discriminate|]).
  constructor.
Qed.

(** X16 (simplifyText, detectMedicalJargon): simplification only touches
    the terms of its table: a text in which [detectMedicalJargon] finds
    nothing is returned unchanged, since every term of the substitution
    table contains a word of the jargon list; and a text that is not
    empty never becomes empty. *)
Theorem simplifyText_leaves_jargon_free_text_unchanged :
  forall text : string,
    (detectMedicalJargon text = [] -> simplifyText text = text) /\
    (term_free text -> simplifyText text = text) /\
    (text <> "" -> simplifyText text <> "").
Proof.
  intros text. split; [|split].
  - intros H. apply simplifyText_term_free, jargon_free_term_free, H.
  - apply simplifyText_term_free.
  - apply simplifyText_nonempty.
Qed.

Lemma simplifyText_leaves_jargon_free_text_unchanged_witness :
  detectMedicalJargon "Take one pill each morning." = [] /\
  simplifyText "Take one pill each morning." = "Take one pill each morning.".
Proof.
  assert (H : detectMedicalJargon "Take one pill each morning." = [])
    by (vm_compute; reflexivity).
  split; [exact H|].
  exact (proj1 (simplifyText_leaves_jargon_free_text_unchanged _) H).
Defined.

End Simplification.

(** ** The nudge generator: what is emitted besides the simplified card *)

Section GeneratedCards.

Lemma guard_false_named extractedData :
  negb (truthy (drug_name extractedData)) ||
  String.eqb (or_else (drug_name extractedData) "") DrugService.CLARIFICATION_NEEDED
  = false ->
  named extractedData.
Proof.
  intros H. destruct (unreadable_false extractedData H) as (n & Hn & Hu1 & Hu2).
  exists n. auto.
Qed.

Lemma generateCard_throws_iff {A} llm extractedData patientContext (interactions : list A) :
  (exists e, generateCard llm extractedData patientContext interactions = Throw e)
  <-> ~ named extractedData.
Proof.
  unfold generateCard.
  destruct (negb (truthy (drug_name extractedData)) || _) eqn:G.
  - split; [|eauto]. intros _ Hn. rewrite (named_guard _ Hn) in G. discriminate.
  - apply guard_false_named in G. split; [|tauto].
    intros (e & E). exfalso.
    destruct (negb (api_key_configured llm)); [discriminate|].
    destruct (complete llm extractedData patientContext) as [json|e'];
      cbn [mbind result_bind try_catch] in E; [|discriminate].
    destruct (negb (isPlain _)); discriminate.
Qed.

(** X17 (nudgeService.generateCard, POST /api/nudge/generate): the
    generator throws exactly when the drug name is missing, empty or the
    unreadable marker, whatever the model does; so the single-card route
    answers 400 without extracted data, 500 exactly for such a name, and
    otherwise 200 with the card generated for an empty list of
    interactions. *)
Theorem nudge_generate_statuses :
  forall (model : LanguageModel) (patientContext : option PatientContext),
    nudge_generate model None patientContext =
      Problem 400 "extractedData is required" /\
    forall data : ExtractedData,
      ((exists e, generateCard model data (context_or_empty patientContext)
                               ([] : list Finding) = Throw e) <-> ~ named data) /\
      (nudge_generate model (Some data) patientContext =
         Problem 500 "Nudge generation failed" <-> ~ named data) /\
      (named data ->
         exists card,
           generateCard model data (context_or_empty patientContext)
                        ([] : list Finding) = Ok card /\
           nudge_generate model (Some data) patientContext = Json card).
Proof.
  intros model patientContext. split; [reflexivity|]. intros data.
  pose proof (generateCard_throws_iff model data (context_or_empty patientContext)
                ([] : list Finding)) as Hthrow.
  split; [exact Hthrow|]. unfold nudge_generate.
  destruct (generateCard model data (context_or_empty patientContext) [])
    as [card|e] eqn:E.
  - assert (Hn : ~ ~ named data).
    { intros Hnot. apply Hthrow in Hnot as (e & He). discriminate. }
    split; [split; [discriminate|tauto]|]. eauto.
  - assert (Hn : ~ named data) by (apply Hthrow; eauto).
    split; [tauto|]. tauto.
Qed.

Lemma nudge_generate_statuses_witness :
  named lisinopril_10mg /\
  (exists card, nudge_generate no_model (Some lisinopril_10mg) None = Json card) /\
  ~ named unreadable_line /\
  nudge_generate no_model (Some unreadable_line) None =
    Problem 500 "Nudge generation failed".
Proof.
  assert (Hn : named lisinopril_10mg).
  { exists "Lisinopril". split; [reflexivity|]. split; discriminate. }
  assert (Hu : ~ named unreadable_line).
  { intros (n & E & _ & Hm). injection E as <-. apply Hm. reflexivity. }
  destruct (nudge_generate_statuses no_model None) as [_ H].
  destruct (H lisinopril_10mg) as (_ & _ & Hok).
  destruct (H unreadable_line) as (_ & Hbad & _).
  split; [exact Hn|]. split.
  - destruct (Hok Hn) as (card & _ & Hj). eauto.
  - split; [exact Hu|]. apply Hbad. exact Hu.
Defined.

Lemma interaction_label_nonempty {A} (interactions : list A) :
  interactions <> [] -> interaction_label interactions <> "".
Proof. destruct interactions; [contradiction|discriminate]. Qed.

Lemma or_else_nonempty o d : d <> "" -> or_else o d <> "".
Proof.
  intros Hd. destruct o as [s|]; cbn; [|exact Hd].
  destruct (String.eqb s "") eqn:E; [exact Hd|]. apply String.eqb_neq. exact E.
Qed.

Lemma guard_headline_warning extractedData card :
  warning_label (guard_headline extractedData card) = warning_label card.
Proof. unfold guard_headline. destruct (_ || _); reflexivity. Qed.

Lemma generateCard_warning_nonempty llm extractedData patientContext
    (interactions : list Finding) card :
  interactions <> [] ->
  generateCard llm extractedData patientContext interactions = Ok card ->
  warning_label card <> "".
Proof.
  intros Hne.
  pose proof (interaction_label_nonempty interactions Hne) as Hl.
  unfold generateCard.
  destruct (negb (truthy (drug_name extractedData)) || _); [discriminate|].
  destruct (negb (api_key_configured llm)).
  { intros E. injection E as <-. exact Hl. }
  destruct (complete llm extractedData patientContext) as [json|e];
    cbn [mbind result_bind try_catch].
  - destruct (negb (isPlain _)); cbn [try_catch]; intros E; injection E as <-.
    + cbn [simplified_card warning_label].
      apply simplifyText_nonempty, or_else_nonempty, Hl.
    + rewrite guard_headline_warning. cbn [generated_card warning_label].
      apply or_else_nonempty, Hl.
  - intros E. injection E as <-. exact Hl.
Qed.

(** X18 (nudgeService.generateCard): whenever there is at least one
    interaction finding, every card the generator returns, minimal,
    generated or simplified, carries a warning label that is not
    empty. *)
Theorem generateCard_keeps_interaction_warning :
  forall (llm : LanguageModel) (extractedData : ExtractedData)
         (patientContext : PatientContext) (interactions : list Finding)
         (card : Card),
    interactions <> [] ->
    generateCard llm extractedData patientContext interactions = Ok card ->
    warning_label card <> "".
Proof.
  intros llm extractedData patientContext interactions card.
  apply generateCard_warning_nonempty.
Qed.

Lemma generateCard_keeps_interaction_warning_witness :
  exists card,
    generateCard (answering renal_json) lisinopril_10mg no_context
                 [known_finding "Lisinopril" "spironolactone"] = Ok card /\
    warning_label card <> "".
Proof.
  eexists. split; [vm_compute; reflexivity|].
  apply (generateCard_keeps_interaction_warning (answering renal_json) lisinopril_10mg
           no_context [known_finding "Lisinopril" "spironolactone"]).
  - discriminate.
  - vm_compute. reflexivity.
Defined.

Lemma field_in_fullText json (field : option string) :
  In field [ json_plain_instruction json; json_the_why json;
             json_habit_hook json; json_headline json ] ->
  truthy field = true ->
  exists pre post, fullText json = pre +:+ or_else field "" +:+ post.
Proof.
  intros Hin Ht. unfold fullText. apply join_contains.
  unfold truthy_strings. apply in_flat_map. exists field.
  split; [exact Hin|]. rewrite Ht. left. reflexivity.
Qed.

Lemma simplifyText_empty : simplifyText "" = "".
Proof. reflexivity. Qed.

Lemma field_unchanged json (field : option string) :
  In field [ json_plain_instruction json; json_the_why json;
             json_habit_hook json; json_headline json ] ->
  detectMedicalJargon (fullText json) = [] ->
  simplifyText (or_else field "") = or_else field "".
Proof.
  intros Hin Hfree.
  destruct (truthy field) eqn:Ht.
  - destruct (field_in_fullText json field Hin Ht) as (pre & post & E).
    apply simplifyText_term_free. intros medical plain Hm.
    pose proof (jargon_free_term_free _ Hfree medical plain Hm) as Hno.
    destruct (includes (toLowerCase (or_else field "")) medical) eqn:Hi; [|reflexivity].
    rewrite <- Hno, E, !toLowerCase_app. symmetry.
    apply includes_inside. exact Hi.
  - destruct field as [s|]; cbn in Ht |- *; [|reflexivity].
    destruct (String.eqb s ""); [reflexivity|discriminate].
Qed.

(** X19 (nudgeService.generateCard with simplifyText): simplification
    cannot lower a grade level. When the generated text is free of jargon
    and fails the gate on its grade level alone, the card that is emitted
    carries the headline, the instruction, the reason and the habit hook
    exactly as the model wrote them (an absent one as the empty string,
    the headline guard not applied). *)
Theorem generateCard_grade_failure_emits_text_unchanged :
  forall (llm : LanguageModel) (extractedData : ExtractedData)
         (patientContext : PatientContext) (interactions : list Finding)
         (json : CardJson),
    named extractedData ->
    api_key_configured llm = true ->
    complete llm extractedData patientContext = Ok json ->
    detectMedicalJargon (fullText json) = [] ->
    (calculateFleschKincaid (fullText json) <=? 8)%float = false ->
    exists card,
      generateCard llm extractedData patientContext interactions = Ok card /\
      headline card = or_else (json_headline json) "" /\
      plain_instruction card = or_else (json_plain_instruction json) "" /\
      the_why card = or_else (json_the_why json) "" /\
      habit_hook card = or_else (json_habit_hook json) "".
Proof.
  intros llm extractedData patientContext interactions json Hn Hkey Hjson Hfree Hgrade.
  unfold generateCard. rewrite (named_guard _ Hn), Hkey, Hjson.
  cbn [negb mbind result_bind].
  assert (Hplain : isPlain (validatePlainLanguage (fullText json)) = false).
  { unfold validatePlainLanguage. cbn [isPlain]. rewrite Hgrade. reflexivity. }
  rewrite Hplain. cbn [negb try_catch].
  eexists. split; [reflexivity|]. cbn [simplified_card headline plain_instruction
                                       the_why habit_hook].
  repeat split; apply (field_unchanged json); cbn [In]; auto.
Qed.

Lemma generateCard_grade_failure_emits_text_unchanged_witness :
  named lisinopril_10mg /\
  detectMedicalJargon (fullText wordy_json) = [] /\
  (calculateFleschKincaid (fullText wordy_json) <=? 8)%float = false /\
  exists card,
    generateCard (answering wordy_json) lisinopril_10mg no_context
                 ([] : list Finding) = Ok card /\
    headline card = "".
Proof.
  assert (Hn : named lisinopril_10mg).
  { exists "Lisinopril". split; [reflexivity|]. split; discriminate. }
  assert (Hj : detectMedicalJargon (fullText wordy_json) = [])
    by (vm_compute; reflexivity).
  assert (Hg : (calculateFleschKincaid (fullText wordy_json) <=? 8)%float = false)
    by (vm_compute; reflexivity).
  split; [exact Hn|]. split; [exact Hj|]. split; [exact Hg|].
  destruct (generateCard_grade_failure_emits_text_unchanged
              (answering wordy_json) lisinopril_10mg no_context [] wordy_json
              Hn eq_refl eq_refl Hj Hg) as (card & Hc & Hh & _).
  exists card. split; [exact Hc|exact Hh].
Defined.

Lemma rev_onto_app : forall a b acc,
  rev_onto (a +:+ b) acc = rev_onto b (rev_onto a acc).
Proof.
  induction a as [|c a IH]; intros b acc; rewrite ?append_cons, ?append_nil_l;
    cbn [rev_onto]; [reflexivity|]. apply IH.
Qed.

Lemma rev_onto_acc : forall s acc, rev_onto s acc = reverse s +:+ acc.
Proof.
  unfold reverse.
  induction s as [|c s IH]; intros acc; cbn [rev_onto]; [reflexivity|].
  rewrite (IH (String c acc)), (IH (String c "")), append_assoc. reflexivity.
Qed.

Lemma dropWhile_snoc p c : forall x,
  p c = false -> dropWhile p (x +:+ String c "") = dropWhile p x +:+ String c "".
Proof.
  intros x Hc. induction x as [|a x IH]; rewrite ?append_cons, ?append_nil_l;
    cbn [dropWhile].
  - rewrite Hc. reflexivity.
  - destruct (p a); [exact IH|reflexivity].
Qed.

(** Trimming keeps a first character that is not white space. *)
Lemma trim_head c t :
  is_space c = false -> exists t', trim (String c t) = String c t'.
Proof.
  intros Hc. unfold trim. cbn [dropWhile]. rewrite Hc.
  unfold reverse at 2. cbn [rev_onto]. rewrite rev_onto_acc.
  rewrite (dropWhile_snoc is_space c _ Hc).
  unfold reverse at 1. rewrite rev_onto_app. cbn [rev_onto]. eauto.
Qed.




End GeneratedCards.

(** ** The extraction route: what a response is made of *)

Section ExtractionRouteMore.

Variable hashFile : string -> string.

Lemma route_failure_events req env imageHash st status error detail failed advice st' events :
  extract_and_process req env imageHash st =
    (Failure status error detail failed advice, st', events) ->
  events = [VisionCall] \/ events = [VisionCall; OcrCall].
Proof.
  unfold extract_and_process.
  destruct (run_extraction (extraction env)) as [extracted evs] eqn:Hx.
  assert (Hevs : evs = [VisionCall] \/ evs = [VisionCall; OcrCall]).
  { unfold run_extraction in Hx.
    destruct (extraction env); injection Hx as _ <-; auto. }
  destruct extracted as [visionResult|e]; [|intros [= _ _ _ _ _ _ <-]; exact Hevs].
  destruct (truthy (vision_error visionResult));
    [intros [= _ _ _ _ _ _ <-]; exact Hevs|].
  destruct (vision_medications visionResult) as [[|c cs]|];
    try (intros [= _ _ _ _ _ _ <-]; exact Hevs).
  destruct (process_candidates _ _ _ (c :: cs) loop_start) as [loop|e];
    [|intros [= _ _ _ _ _ _ <-]; exact Hevs].
  destruct (processedMedications loop) as [|m ms];
    [intros [= _ _ _ _ _ _ <-]; exact Hevs|].
  cbn. discriminate.
Qed.

(** X21 (POST /api/prescription/process, STEP 5): a request that does
    not succeed leaves both tiers of the cache exactly as they were and
    writes to neither; failures are never cached. *)
Theorem failed_request_leaves_caches_unchanged :
  forall (req : ProcessRequest) (env : Env) (st st' : State) (events : list Event)
         (status : Z) (error : string) (detail : option string)
         (failed : option (list FailedExtraction)) (advice : option string),
    process hashFile req env st =
      (Failure status error detail failed advice, st', events) ->
    st' = st /\ forall e, In e events -> ~ is_write e.
Proof.
  intros req env st st' events status error detail failed advice.
  unfold process.
  destruct (file req) as [image|].
  2:{ intros [= _ _ _ _ _ <- <-]. split; [reflexivity|]. intros e []. }
  assert (Hroute : forall s s' evs,
            extract_and_process req env (hashFile image) s =
              (Failure status error detail failed advice, s', evs) ->
            s' = s /\ forall e, In e evs -> ~ is_write e).
  { intros s s' evs H.
    pose proof (route_state _ _ _ _ _ _ _ H) as Hs. cbn in Hs.
    split; [exact Hs|].
    destruct (route_failure_events _ _ _ _ _ _ _ _ _ _ _ H) as [-> | ->];
      intros e Hin; cbn in Hin;
      repeat (destruct Hin as [<-|Hin]; [intros []|]); destruct Hin. }
  destruct (forceRefresh req); [apply Hroute|].
  unfold lookup_tiers.
  destruct (match visionCache st !! hashFile image with
            | Some cachedResult => _
            | None => None
            end); [discriminate|].
  destruct (select_single _ _ _); [discriminate|].
  destruct (extract_and_process req env (hashFile image) st) as [[r s2] evs] eqn:He.
  intros [= -> <- <-].
  destruct (Hroute _ _ _ He) as [-> Hev]. split; [reflexivity|].
  intros e Hin. cbn in Hin.
  destruct Hin as [<-|[<-|Hin]]; [intros []|intros []|exact (Hev e Hin)].
Qed.

End ExtractionRouteMore.

Section WorkedRoute.

Lemma failed_request_leaves_caches_unchanged_witness :
  exists status error detail failed advice events,
    process demo_hash (demo_request (Some "true")) (demo_env [xyzbcdefg; unreadable_line] 9000)
            after_first =
      (Failure status error detail failed advice, after_first, events) /\
    status = 400%Z.
Proof.
  destruct (process demo_hash (demo_request (Some "true"))
              (demo_env [xyzbcdefg; unreadable_line] 9000) after_first)
    as [[resp st'] events] eqn:E.
  assert (Hr : exists failed, resp =
            Failure 400 "Unable to extract medication information"
              (Some "Could not read any medication names from the prescription.")
              failed
              (Some "The prescription image may be unclear. Please try taking a clearer photo with good lighting.")).
  { apply (f_equal (fun x => fst (fst x))) in E. cbn [fst] in E. rewrite <- E.
    vm_compute. eexists. reflexivity. }
  destruct Hr as (failed & ->).
  destruct (failed_request_leaves_caches_unchanged _ _ _ _ _ _ _ _ _ _ _ E) as [-> _].
  do 6 eexists. split; reflexivity.
Defined.

End WorkedRoute.

Section ProcessedMedications.

Variable hashFile : string -> string.

Lemma process_candidate_consistent svc meds patientAge c m :
  process_candidate svc meds patientAge c = Ok (Processed m) ->
  consistent_medication svc meds patientAge m.
Proof.
  unfold process_candidate.
  destruct (negb (truthy (drug_name c)) || _); [discriminate|].
  destruct (negb (valid _)); [discriminate|].
  cbn [rename drug_name dosage].
  destruct (kept_name (validateAndNormalizeDrugName svc (drug_name c))) as [name|];
    cbn [on_name mbind result_bind]; [|discriminate].
  destruct (checkInteractions svc name meds) as [ints|e] eqn:Hi;
    cbn [mbind result_bind]; [|discriminate].
  destruct (getEnhancedSafetyInfo name (dosage c) patientAge meds) as [enh|e] eqn:He;
    cbn [mbind result_bind]; [|discriminate].
  intros [= <-]. exists name. cbn. repeat split; assumption.
Qed.

Lemma process_candidates_consistent svc meds patientAge cs : forall acc loop,
  process_candidates svc meds patientAge cs acc = Ok loop ->
  Forall (consistent_medication svc meds patientAge) (processedMedications acc) ->
  Forall (consistent_medication svc meds patientAge) (processedMedications loop).
Proof.
  induction cs as [|c cs IH]; intros acc loop Hrun Hacc; cbn [process_candidates] in Hrun.
  - injection Hrun as <-. exact Hacc.
  - destruct (process_candidate svc meds patientAge c) as [o|e] eqn:Hc;
      cbn [mbind result_bind] in Hrun; [|discriminate].
    apply (IH _ _ Hrun). destruct o as [m|f]; cbn [record_outcome processedMedications].
    + apply Forall_app. split; [exact Hacc|].
      apply List.Forall_cons; [|constructor].
      exact (process_candidate_consistent _ _ _ _ _ Hc).
    + exact Hacc.
Qed.

(** X22 (POST /api/prescription/process, the loop and the result): in a
    response computed by the route, no candidate is lost: the listed
    medications and the carried failures add up to the candidates of the
    extraction, and the count field is the number of listed medications;
    a warning is present exactly when failures are carried; and what is
    attached to each medication is computed from the name it is listed
    under, so that its flag is RED exactly when its own findings hold a
    tier-1 one, and no card is attached. *)
Theorem process_result_is_consistent :
  forall (req : ProcessRequest) (env : Env) (st st' : State)
         (result : PipelineResult) (events : list Event),
    process hashFile req env st = (Success result, st', events) ->
    In VisionCall events ->
    total_medications result = length (medications result) /\
    length (medications result) + length (carried (failedExtractions result))
      = length (candidates_of env) /\
    (warnings result = None <-> failedExtractions result = None) /\
    Forall (consistent_medication (terminology env) (currentMeds req)
                                  (age (patientContext req)))
           (medications result) /\
    (forall m, In m (medications result) ->
       (safety_flag m = RED <-> has_tier 1 (interactions m)) /\
       patient_facing_card m = None).
Proof.
  intros req env st st' result events Hrun Hfresh.
  destruct (process_fresh hashFile _ _ _ _ _ _ Hrun Hfresh) as (h & st1 & evs & Hroute).
  destruct (route_success _ _ _ _ _ _ _ Hroute) as (loop & Hloop & -> & Hne).
  destruct (process_candidates_spec _ _ _ _ _ _ Hloop) as (Hmeds & Hfail & _ & _).
  pose proof (process_candidates_consistent _ _ _ _ _ _ Hloop (List.Forall_nil _)) as Hcons.
  cbn [finalResult_of total_medications medications failedExtractions warnings].
  cbn [loop_start processedMedications failedList app map] in Hmeds, Hfail.
  split; [reflexivity|]. split; [|split; [|split]].
  - unfold carried. rewrite (if_any_carried (failedList loop)), Hfail.
    rewrite <- (length_map extracted_data), Hmeds, !length_map.
    apply filter_split_length.
  - destruct (failedList loop); cbn; split; congruence.
  - exact Hcons.
  - intros m Hin. rewrite List.Forall_forall in Hcons.
    destruct (Hcons m Hin) as (name & _ & _ & Hflag & _ & _ & Hcard).
    split; [|exact Hcard]. rewrite Hflag. apply flag_iff.
Qed.

End ProcessedMedications.

Section WorkedMedications.

Lemma process_result_is_consistent_witness :
  In VisionCall (snd demo_run) /\
  length (medications (result_of (fst (fst demo_run)))) = 2 /\
  length (carried (failedExtractions (result_of (fst (fst demo_run))))) = 1 /\
  length (candidates_of (demo_env [listnopril; metfrmn; unreadable_line] 1000)) = 3 /\
  total_medications (result_of (fst (fst demo_run))) = 2.
Proof.
  assert (Hv : In VisionCall (snd demo_run)) by (vm_compute; tauto).
  destruct (process_result_is_consistent demo_hash _ _ _ _ _ _ demo_run_succeeds Hv)
    as (Ht & _).
  split; [exact Hv|].
  split; [vm_compute; reflexivity|]. split; [vm_compute; reflexivity|].
  split; [reflexivity|]. rewrite Ht. vm_compute. reflexivity.
Defined.

End WorkedMedications.

(** ** The sweep of the memory tier *)

Section Sweep.

Lemma sweep_lookup now st h entry :
  visionCache (cleanExpiredCache now st) !! h = Some entry <->
  visionCache st !! h = Some entry /\ (now <= expiresAt entry)%Z.
Proof.
  cbn [cleanExpiredCache visionCache].
  rewrite map_lookup_filter_Some. cbn. split; intros [H1 H2]; (split; [exact H1|lia]).
Qed.

Lemma sweep_state_eq (a b : State) :
  visionCache a = visionCache b -> scan_sessions a = scan_sessions b -> a = b.
Proof. destruct a, b; cbn; intros -> ->; reflexivity. Qed.

(** X23 (cleanExpiredCache): the sweep deletes from the memory tier
    exactly the entries that expired before the time it reads: an entry
    stays, unchanged, iff it expires at that time or later; the durable
    tier is not touched; sweeping twice at the same time is sweeping
    once, and an earlier sweep changes nothing for a later one. *)
Theorem cleanExpiredCache_removes_exactly_the_expired :
  forall (now : Z) (st : State),
    (forall h entry,
       visionCache (cleanExpiredCache now st) !! h = Some entry <->
       visionCache st !! h = Some entry /\ (now <= expiresAt entry)%Z) /\
    scan_sessions (cleanExpiredCache now st) = scan_sessions st /\
    cleanExpiredCache now (cleanExpiredCache now st) = cleanExpiredCache now st /\
    (forall later, (now <= later)%Z ->
       cleanExpiredCache later (cleanExpiredCache now st) = cleanExpiredCache later st).
Proof.
  intros now st. split; [apply sweep_lookup|]. split; [reflexivity|].
  assert (Hlater : forall later, (now <= later)%Z ->
            cleanExpiredCache later (cleanExpiredCache now st) = cleanExpiredCache later st).
  { intros later Hle. apply sweep_state_eq; [|reflexivity].
    apply map_eq. intros h. apply option_eq. intros entry.
    rewrite !sweep_lookup. intuition lia. }
  split; [apply Hlater; lia|exact Hlater].
Qed.

End Sweep.

Section SweepAndLookup.

Variable hashFile : string -> string.

Lemma route_ignores_state req env imageHash st1 st2 :
  fst (fst (extract_and_process req env imageHash st1)) =
  fst (fst (extract_and_process req env imageHash st2)) /\
  snd (extract_and_process req env imageHash st1) =
  snd (extract_and_process req env imageHash st2).
Proof.
  unfold extract_and_process.
  destruct (run_extraction (extraction env)) as [extracted evs].
  destruct extracted as [visionResult|e]; [|split; reflexivity].
  destruct (truthy (vision_error visionResult)); [split; reflexivity|].
  destruct (vision_medications visionResult) as [[|c cs]|]; try (split; reflexivity).
  destruct (process_candidates _ _ _ (c :: cs) loop_start) as [loop|e];
    [|split; reflexivity].
  destruct (processedMedications loop) as [|m ms]; split; reflexivity.
Qed.

(** X24 (cleanExpiredCache with the cache lookup of the extraction
    route): a sweep that ran no later than the request reads the clock
    never changes what the request answers, nor which tiers and backends
    it uses: what the sweep deletes the lookup would not have served. *)
Theorem sweep_never_changes_the_answer :
  forall (req : ProcessRequest) (env : Env) (st : State) (t : Z),
    (t <= at_memory_check (clock env))%Z ->
    fst (fst (process hashFile req env (cleanExpiredCache t st))) =
      fst (fst (process hashFile req env st)) /\
    snd (process hashFile req env (cleanExpiredCache t st)) =
      snd (process hashFile req env st).
Proof.
  intros req env st t Ht. unfold process.
  destruct (file req) as [image|]; [|split; reflexivity].
  destruct (forceRefresh req); [apply route_ignores_state|].
  unfold lookup_tiers.
  change (scan_sessions (cleanExpiredCache t st)) with (scan_sessions st).
  set (h := hashFile image).
  assert (Hmem :
    match visionCache (cleanExpiredCache t st) !! h with
    | Some cachedResult =>
        if (at_memory_check (clock env) <? expiresAt cachedResult)%Z
        then Some (data cachedResult) else None
    | None => None
    end =
    match visionCache st !! h with
    | Some cachedResult =>
        if (at_memory_check (clock env) <? expiresAt cachedResult)%Z
        then Some (data cachedResult) else None
    | None => None
    end).
  { destruct (visionCache st !! h) as [entry|] eqn:E.
    - destruct (at_memory_check (clock env) <? expiresAt entry)%Z eqn:Hlive.
      + apply Z.ltb_lt in Hlive.
        assert (Hk : visionCache (cleanExpiredCache t st) !! h = Some entry)
          by (apply sweep_lookup; split; [exact E|lia]).
        rewrite Hk. apply Z.ltb_lt in Hlive. rewrite Hlive. reflexivity.
      + destruct (visionCache (cleanExpiredCache t st) !! h) as [entry'|] eqn:E';
          [|reflexivity].
        apply sweep_lookup in E' as [E' _]. rewrite E in E'. injection E' as <-.
        rewrite Hlive. reflexivity.
    - destruct (visionCache (cleanExpiredCache t st) !! h) as [entry'|] eqn:E';
        [|reflexivity].
      apply sweep_lookup in E' as [E' _]. rewrite E in E'. discriminate. }
  rewrite Hmem.
  destruct (match visionCache st !! h with
            | Some cachedResult => _
            | None => None
            end); [split; reflexivity|].
  destruct (select_single _ _ _); [split; reflexivity|].
  destruct (route_ignores_state req env h (cleanExpiredCache t st) st) as [H1 H2].
  destruct (extract_and_process req env h (cleanExpiredCache t st)) as [[r1 s1] e1].
  destruct (extract_and_process req env h st) as [[r2 s2] e2].
  cbn in *. subst. split; reflexivity.
Qed.

(** X25 (POST /api/prescription/process, the durable tier): when the
    memory tier has nothing live for the image and the durable tier has
    exactly one live row for it, the row is the answer, no backend is
    called, and the memory tier is refilled, so that the next request
    for the image within the TTL of the refill is answered from memory
    alone, without a read of the durable tier. *)
Theorem durable_hit_refills_the_memory_tier :
  forall (req req2 : ProcessRequest) (env env2 : Env) (st : State)
         (image : string) (row : ScanSession),
    file req = Some image -> forceRefresh req = false ->
    file req2 = Some image -> forceRefresh req2 = false ->
    (forall entry, visionCache st !! hashFile image = Some entry ->
                   (expiresAt entry <= at_memory_check (clock env))%Z) ->
    select_single (scan_sessions st) (hashFile image) (at_durable_query (clock env))
      = Some row ->
    (at_memory_check (clock env2) < at_memory_refill (clock env) + CACHE_TTL)%Z ->
    let first := process hashFile req env st in
    fst (fst first) = Success (normalized_result row) /\
    snd first = [MemoryRead (hashFile image); DurableRead (hashFile image);
                 MemoryWrite (hashFile image)] /\
    scan_sessions (snd (fst first)) = scan_sessions st /\
    process hashFile req2 env2 (snd (fst first)) =
      (Success (normalized_result row), snd (fst first),
       [MemoryRead (hashFile image)]).
Proof.
  intros req req2 env env2 st image row Hf Hr Hf2 Hr2 Hstale Hrow Hlive first.
  subst first. rewrite (durable_hit hashFile req env st image row Hf Hr Hstale Hrow).
  cbn [fst snd]. split; [reflexivity|]. split; [reflexivity|]. split; [reflexivity|].
  apply (memory_hit hashFile req2 env2 _ image
           {| data := normalized_result row;
              expiresAt := (at_memory_refill (clock env) + CACHE_TTL)%Z |} Hf2 Hr2).
  - cbn. apply lookup_insert_eq.
  - exact Hlive.
Qed.

End SweepAndLookup.

Section WorkedSweep.

Lemma cleanExpiredCache_removes_exactly_the_expired_witness :
  visionCache after_first !! demo_image_hash <> None /\
  visionCache (cleanExpiredCache (1000 + CACHE_TTL)%Z after_first) !! demo_image_hash
    <> None /\
  visionCache (cleanExpiredCache (1001 + CACHE_TTL)%Z after_first) !! demo_image_hash
    = None.
Proof.
  destruct (visionCache after_first !! demo_image_hash) as [entry|] eqn:E;
    [|vm_compute in E; discriminate E].
  assert (Hexp : expiresAt entry = (1000 + CACHE_TTL)%Z).
  { vm_compute in E. injection E as <-. reflexivity. }
  split; [discriminate|]. split.
  - destruct (cleanExpiredCache_removes_exactly_the_expired
                (1000 + CACHE_TTL)%Z after_first) as (Hiff & _).
    rewrite (proj2 (Hiff demo_image_hash entry)); [discriminate|].
    split; [exact E|]. rewrite Hexp. lia.
  - destruct (cleanExpiredCache_removes_exactly_the_expired
                (1001 + CACHE_TTL)%Z after_first) as (Hiff & _).
    destruct (visionCache (cleanExpiredCache (1001 + CACHE_TTL)%Z after_first)
                !! demo_image_hash) as [entry'|] eqn:E'; [|reflexivity].
    apply Hiff in E' as [E1 E2]. rewrite E in E1. injection E1 as <-.
    rewrite Hexp in E2. lia.
Defined.

Lemma sweep_never_changes_the_answer_witness :
  (1500 <= at_memory_check (clock (demo_env [] 2000)))%Z /\
  fst (fst (process demo_hash (demo_request None) (demo_env [] 2000)
                    (cleanExpiredCache 1500 after_first))) =
  Success (result_of (fst (fst demo_run))).
Proof.
  assert (Ht : (1500 <= at_memory_check (clock (demo_env [] 2000)))%Z)
    by (vm_compute; discriminate).
  split; [exact Ht|].
  rewrite (proj1 (sweep_never_changes_the_answer demo_hash (demo_request None)
                    (demo_env [] 2000) after_first 1500 Ht)).
  vm_compute. reflexivity.
Defined.

Lemma durable_hit_refills_the_memory_tier_witness :
  select_single (scan_sessions restarted) demo_image_hash 2000 <> None /\
  fst (fst (process demo_hash (demo_request None) (demo_env [] 2000) restarted)) =
    Success (result_of (fst (fst demo_run))) /\
  snd (process demo_hash (demo_request None) (demo_env [] 3000)
               (snd (fst (process demo_hash (demo_request None) (demo_env [] 2000)
                                  restarted)))) =
    [MemoryRead demo_image_hash].
Proof.
  destruct (select_single (scan_sessions restarted) demo_image_hash 2000)
    as [row|] eqn:Hrow; [|vm_compute in Hrow; discriminate Hrow].
  assert (Hres : normalized_result row = result_of (fst (fst demo_run))).
  { vm_compute in Hrow. injection Hrow as <-. reflexivity. }
  destruct (durable_hit_refills_the_memory_tier demo_hash
              (demo_request None) (demo_request None)
              (demo_env [] 2000) (demo_env [] 3000) restarted
              "prescription.jpg bytes" row eq_refl eq_refl eq_refl eq_refl)
    as (H1 & _ & _ & H4).
  - intros entry Hentry. cbn in Hentry. rewrite lookup_empty in Hentry. discriminate.
  - exact Hrow.
  - vm_compute. reflexivity.
  - split; [discriminate|]. split.
    + rewrite H1, Hres. reflexivity.
    + rewrite H4. reflexivity.
Defined.

End WorkedSweep.

(** ** The nudge route: failures, and what a card carries *)

Section NudgeRouteMore.





Lemma nudge_medication_consistent env context names med m :
  nudge_medication env context names med = Ok (Some m) ->
  consistent_nudge env context names m.
Proof.
  unfold nudge_medication.
  destruct (batch_extracted_data med) as [d|]; [|discriminate].
  destruct (negb (skipValidation med) && _); [discriminate|].
  set (data := if skipValidation med then d else _).
  destruct (drug_name data) as [name|] eqn:Hname;
    cbn [on_name mbind result_bind]; [|discriminate].
  destruct (checkInteractions (terminology env) name _) as [ints|e] eqn:Hi;
    cbn [mbind result_bind]; [|discriminate].
  destruct (getEnhancedSafetyInfo name _ _ _) as [enh|e] eqn:He;
    cbn [mbind result_bind]; [|discriminate].
  intros [= <-]. exists name. cbn. repeat split; assumption.
Qed.

Lemma nudge_all_consistent env context names meds : forall acc out,
  nudge_all env context names meds acc = Ok out ->
  Forall (consistent_nudge env context names) acc ->
  Forall (consistent_nudge env context names) out.
Proof.
  induction meds as [|med meds IH]; intros acc out Hrun Hacc; cbn [nudge_all] in Hrun.
  - injection Hrun as <-. exact Hacc.
  - destruct (nudge_medication env context names med) as [o|e] eqn:Hmed;
      cbn [mbind result_bind] in Hrun; [|discriminate].
    apply (IH _ _ Hrun). destruct o as [m|]; [|exact Hacc].
    apply Forall_app. split; [exact Hacc|].
    apply List.Forall_cons; [|constructor].
    exact (nudge_medication_consistent _ _ _ _ _ Hmed).
Qed.

Lemma enhanced_food name dosage patientAge meds report :
  getEnhancedSafetyInfo name dosage patientAge meds = Ok report ->
  foodInteractions report = checkFoodInteractions name.
Proof.
  unfold getEnhancedSafetyInfo, comprehensiveSafetyCheck.
  destruct (if truthy dosage then _ else _) as [doses|e];
    cbn [mbind result_bind]; [|discriminate].
  intros [= <-]. reflexivity.
Qed.

Lemma with_safety_text_label card text :
  text <> "" \/ warning_label card <> "" ->
  warning_label (with_safety_text card text) <> "".
Proof.
  unfold with_safety_text. intros H.
  destruct (String.eqb text "") eqn:E.
  - apply String.eqb_eq in E. subst text. destruct H as [H|H]; [contradiction|exact H].
  - apply String.eqb_neq in E. cbn [warning_label truthy_strings flat_map truthy or_else].
    destruct (String.eqb (warning_label card) "") eqn:Ew;
      apply String.eqb_neq in E as E'; rewrite E'; cbn [negb app].
    + cbn [join]. exact E.
    + apply join_nonempty. apply String.eqb_neq. exact Ew.
Qed.

(** X27 (POST /api/nudge/generate-batch, what is attached to each
    medication): in a successful reply, what each medication carries is
    computed from the name it is returned under and the other names of
    the request: its flag is RED exactly when its own findings hold a
    tier-1 one; and for a readable name that is not an inherited property
    name, the warning label of its card is not empty whenever the
    medication has an interaction finding or its enhanced report has
    something to warn about: no warning is lost on the way to the
    card. *)
Theorem batch_cards_keep_warnings :
  forall (env : Env) (meds : list BatchMedication) (context : PatientContext)
         (out : list NudgedMedication),
    generate_batch env (Some meds) context = BatchSuccess out ->
    Forall (consistent_nudge env context (allMedicationNames meds)) out /\
    forall m name,
      In m out ->
      drug_name (nudged_extracted_data m) = Some name ->
      (nudged_safety_flag m = RED <-> has_tier 1 (nudged_interactions m)) /\
      (name <> "" -> name <> CLARIFICATION_NEEDED ->
       ~ inherited_name (normalized name) ->
       nudged_interactions m <> [] \/ ~ report_empty (nudged_enhanced_safety m) ->
       warning_label (nudged_card m) <> "").
Proof.
  intros env meds context out. unfold generate_batch.
  destruct (nudge_all env context (allMedicationNames meds) meds []) as [out'|e] eqn:Hrun;
    [|discriminate].
  intros [= <-].
  pose proof (nudge_all_consistent _ _ _ _ _ _ Hrun (List.Forall_nil _)) as Hcons.
  split; [exact Hcons|].
  intros m name Hin Hname. rewrite List.Forall_forall in Hcons.
  destruct (Hcons m Hin) as (name' & Hname' & Hints & Hflag & _ & Henh & Hcard).
  rewrite Hname in Hname'. injection Hname' as <-.
  split; [rewrite Hflag; apply flag_iff|].
  intros Hne Hmark Hplain Hwarn. rewrite Hcard. unfold nudge_card.
  assert (Hnamed : named (nudged_extracted_data m)) by (exists name; auto).
  destruct (generateCard (llm env) (nudged_extracted_data m) context
                         (nudged_interactions m)) as [card|e] eqn:Hgen.
  2:{ exfalso.
      apply (proj1 (generateCard_throws_iff (llm env) (nudged_extracted_data m) context
                      (nudged_interactions m))); eauto. }
  cbn [mbind result_bind].
  destruct (generateSafetyWarningText (nudged_enhanced_safety m)) as [text|e] eqn:Htext.
  2:{ exfalso.
      destruct (proj1 (warning_text_throws_iff (nudged_enhanced_safety m)))
        as [Hhit Havoid]; [eauto|].
      rewrite (enhanced_food _ _ _ _ _ Henh) in Hhit, Havoid.
      rewrite (checkFoodInteractions_plain name Hplain) in Hhit, Havoid.
      destruct (first_contained _ _); discriminate. }
  cbn [mbind result_bind]. apply with_safety_text_label.
  destruct Hwarn as [Hi|Hr].
  - right. exact (generateCard_warning_nonempty _ _ _ _ _ Hi Hgen).
  - left. intros Hempty. apply Hr.
    apply (warning_text_empty_iff _ _ Htext). exact Hempty.
Qed.

Lemma batch_cards_keep_warnings_witness :
  exists out,
    generate_batch (demo_env [] 0) (Some warfarin_batch) no_context = BatchSuccess out /\
    map nudged_safety_flag out = [RED; GREEN] /\
    Forall (fun m => warning_label (nudged_card m) <> "") out.
Proof.
  destruct (generate_batch (demo_env [] 0) (Some warfarin_batch) no_context)
    as [out|status error] eqn:E; [|vm_compute in E; discriminate E].
  exists out. split; [reflexivity|].
  destruct (batch_cards_keep_warnings _ _ _ _ E) as [_ H].
  assert (Hout : map (fun m => drug_name (nudged_extracted_data m)) out =
                 [Some "Warfarin"; Some "Aspirin"] /\
                 map nudged_safety_flag out = [RED; GREEN] /\
                 Forall (fun m => ~ report_empty (nudged_enhanced_safety m)) out).
  { vm_compute in E. injection E as <-. split; [reflexivity|].
    split; [reflexivity|].
    repeat (apply List.Forall_cons; [intros (Hf & _); discriminate Hf|]).
    constructor. }
  destruct Hout as (Hnames & Hflags & Hreports). split; [exact Hflags|].
  destruct out as [|m1 [|m2 [|m3 rest]]]; try discriminate Hnames.
  injection Hnames as Hn1 Hn2.
  inversion Hreports as [|? ? Hr1 Hrest]; subst.
  inversion Hrest as [|? ? Hr2 _]; subst.
  apply List.Forall_cons; [|apply List.Forall_cons; [|constructor]].
  - apply (proj2 (H m1 "Warfarin" (or_introl eq_refl) Hn1));
      [discriminate|discriminate|vm_compute; discriminate|right; exact Hr1].
  - apply (proj2 (H m2 "Aspirin" (or_intror (or_introl eq_refl)) Hn2));
      [discriminate|discriminate|vm_compute; discriminate|right; exact Hr2].
Defined.

End NudgeRouteMore.

(** ** Extraction: the vision backend *)

Section VisionExtraction.

Variable hashFile : string -> string.

Lemma keeps_named med : keeps med = true -> named med.
Proof.
  unfold keeps. destruct (negb (truthy (drug_name med)) || _) eqn:G; [discriminate|].
  intros _. exact (guard_false_named med G).
Qed.

Lemma truthy_or_else o d : d <> "" -> truthy (Some (or_else o d)) = true.
Proof.
  intros Hd. cbn [truthy]. apply negb_true_iff, String.eqb_neq, or_else_nonempty, Hd.
Qed.

Lemma with_defaults_complete med : keeps med = true -> complete_medication (with_defaults med).
Proof.
  intros Hk. destruct (keeps_named med Hk) as (n & Hn & Hne & Hm).
  split; [exists n; auto|].
  cbn [with_defaults dosage frequency duration route].
  repeat split; apply truthy_or_else; discriminate.
Qed.

Lemma extractFromImage_returns_readable_medications_helper :
  forall api : Backend,
    (openai_key api = false -> extractFromImage api = Throw BackendError) /\
    forall result : VisionResult,
      extractFromImage api = Ok result ->
      exists meds,
        vision_medications result = Some meds /\
        (truthy (vision_error result) = true <-> meds = []) /\
        Forall complete_medication meds /\
        (forall raw, vision_json api = Ok (Some raw) ->
           map drug_name meds = map drug_name (List.filter keeps raw)).
Proof.
  intros api. unfold extractFromImage. split; [intros ->; reflexivity|].
  intros result.
  destruct (negb (openai_key api)); [discriminate|].
  destruct (vision_json api) as [[raw|]|e]; cbn [mbind result_bind]; [| |discriminate].
  - assert (Hall : Forall complete_medication (map with_defaults (List.filter keeps raw))).
    { apply List.Forall_forall. intros med Hin.
      apply in_map_iff in Hin as (m & <- & Hin). apply filter_In in Hin as [_ Hk].
      exact (with_defaults_complete m Hk). }
    assert (Hnames : map drug_name (map with_defaults (List.filter keeps raw)) =
                     map drug_name (List.filter keeps raw)).
    { rewrite map_map. reflexivity. }
    destruct (map with_defaults (List.filter keeps raw)) as [|m ms] eqn:E.
    + intros [= <-]. exists []. cbn.
      split; [reflexivity|]. split; [tauto|]. split; [constructor|].
      intros raw' [= <-]. exact Hnames.
    + intros [= <-]. exists (m :: ms). cbn.
      split; [reflexivity|]. split; [split; discriminate|]. split; [exact Hall|].
      intros raw' [= <-]. exact Hnames.
  - intros [= <-]. exists []. cbn.
    split; [reflexivity|]. split; [tauto|]. split; [constructor|].
    intros raw' H. discriminate H.
Qed.


Lemma route_failed_list req env imageHash st resp st' events :
  extract_and_process req env imageHash st = (resp, st', events) ->
  carried (failed_of resp) = [] \/
  exists loop,
    process_candidates (terminology env) (currentMeds req)
      (age (patientContext req)) (candidates_of env) loop_start = Ok loop /\
    carried (failed_of resp) = failedList loop.
Proof.
  unfold extract_and_process, candidates_of.
  destruct (run_extraction (extraction env)) as [extracted evs].
  cbn [fst]. destruct extracted as [visionResult|e]; [|intros [= <- _ _]; left; reflexivity].
  destruct (truthy (vision_error visionResult));
    [intros [= <- _ _]; left; reflexivity|].
  destruct (vision_medications visionResult) as [[|c cs]|];
    try (intros [= <- _ _]; left; reflexivity).
  destruct (process_candidates _ _ _ (c :: cs) loop_start) as [loop|e];
    [|intros [= <- _ _]; left; reflexivity].
  destruct (processedMedications loop) as [|m ms].
  - intros [= <- _ _]. right. exists loop. split; [reflexivity|].
    cbn [failed_of]. apply if_any_carried.
  - cbn. intros [= <- _ _]. right. exists loop. split; [reflexivity|].
    cbn [failed_of finalResult_of failedExtractions]. apply if_any_carried.
Qed.

Lemma named_readable med : named med -> unreadable med = false.
Proof. intros H. exact (named_guard med H). Qed.

(** X29 (POST /api/prescription/process after llmService.extractFromImage):
    when the vision call returns, the OCR route is not taken, every
    candidate the route loops over has a readable name, so that no
    failure of a response is an "unclear_name" one: a medication is
    carried as a failure only because its name failed validation; and
    when the answer of the model holds no readable medication the
    response is the error 400 "Unable to read prescription". *)
Theorem vision_candidates_are_readable :
  forall (req : ProcessRequest) (env : Env) (api : Backend)
         (recognized : Result string) (visionResult : VisionResult)
         (st st' : State) (resp : Response) (events : list Event),
    extraction env = extraction_of api recognized ->
    extractFromImage api = Ok visionResult ->
    process hashFile req env st = (resp, st', events) ->
    In VisionCall events ->
    ~ In OcrCall events /\
    Forall (fun c => unreadable c = false) (candidates_of env) /\
    Forall (fun f => failure_reason f = "invalid_drug") (carried (failed_of resp)) /\
    (vision_medications visionResult = Some [] ->
       exists detail,
         resp = Failure 400 "Unable to read prescription" (Some detail) None None).
Proof.
  intros req env api recognized visionResult st st' resp events Hx Hv Hrun Hfresh.
  assert (Hext : extraction env = VisionReturns visionResult).
  { rewrite Hx. unfold extraction_of. rewrite Hv. reflexivity. }
  destruct (proj2 (extractFromImage_returns_readable_medications_helper api) visionResult Hv)
    as (meds & Hmeds & Herr & Hall & _).
  assert (Hcands : Forall (fun c => unreadable c = false) (candidates_of env)).
  { unfold candidates_of. rewrite Hext. cbn [run_extraction fst].
    destruct (truthy (vision_error visionResult)); [constructor|].
    rewrite Hmeds. eapply List.Forall_impl; [|exact Hall].
    intros c (Hn & _). exact (named_readable c Hn). }
  destruct (process_fresh hashFile _ _ _ _ _ _ Hrun Hfresh) as (h & st1 & evs & Hroute).
  split; [|split; [exact Hcands|split]].
  - assert (Hevs : forall h0 s0 r s e,
                     extract_and_process req env h0 s0 = (r, s, e) -> ~ In OcrCall e).
    { unfold extract_and_process. rewrite Hext. cbn [run_extraction].
      intros h0 s0 r s e.
      destruct (truthy (vision_error visionResult));
        [intros [= _ _ <-] [H|[]]; discriminate|].
      destruct (vision_medications visionResult) as [[|c cs]|];
        try (intros [= _ _ <-] [H|[]]; discriminate).
      destruct (process_candidates _ _ _ (c :: cs) loop_start) as [loop|e'];
        [|intros [= _ _ <-] [H|[]]; discriminate].
      destruct (processedMedications loop) as [|m ms];
        [intros [= _ _ <-] [H|[]]; discriminate|].
      cbn. intros [= _ _ <-] H. cbn in H. intuition discriminate. }
    revert Hrun. unfold process.
    destruct (file req) as [image|]; [|intros [= _ _ <-] []].
    destruct (forceRefresh req); [apply Hevs|].
    unfold lookup_tiers.
    destruct (match visionCache st !! hashFile image with
              | Some cachedResult => _
              | None => None
              end); [intros [= _ _ <-] [H|[]]; discriminate|].
    destruct (select_single _ _ _);
      [intros [= _ _ <-] H; cbn in H; intuition discriminate|].
    destruct (extract_and_process req env (hashFile image) st) as [[r s2] e2] eqn:He.
    intros [= _ _ <-] H. cbn in H.
    destruct H as [H|[H|H]]; [discriminate|discriminate|].
    exact (Hevs _ _ _ _ _ He H).
  - destruct (route_failed_list _ _ _ _ _ _ _ Hroute) as [-> | (loop & Hloop & ->)];
      [constructor|].
    destruct (process_candidates_spec _ _ _ _ _ _ Hloop) as (_ & Hfail & _).
    cbn [loop_start failedList app] in Hfail. rewrite Hfail.
    apply List.Forall_forall. intros f Hin.
    apply in_map_iff in Hin as (c & <- & Hin). apply filter_In in Hin as [Hin _].
    rewrite List.Forall_forall in Hcands. unfold failure_of.
    rewrite (Hcands c Hin). reflexivity.
  - intros Hnone. revert Hroute. unfold extract_and_process.
    rewrite Hext. cbn [run_extraction]. rewrite Hnone.
    destruct (truthy (vision_error visionResult)); intros [= <- _ _]; eauto.
Qed.

End VisionExtraction.

Section WorkedVision.


Lemma vision_candidates_are_readable_witness :
  let run := process demo_hash (demo_request None) (env_of two_lines (Ok "") 1000)
                     empty_state in
  In VisionCall (snd run) /\
  ~ In OcrCall (snd run) /\
  map failure_reason (carried (failed_of (fst (fst run)))) = ["invalid_drug"].
Proof.
  cbv zeta.
  destruct (process demo_hash (demo_request None) (env_of two_lines (Ok "") 1000)
                    empty_state) as [[resp st'] events] eqn:E.
  assert (Hv : In VisionCall events).
  { apply (f_equal snd) in E. cbn [snd] in E. rewrite <- E. vm_compute. tauto. }
  destruct (extractFromImage two_lines) as [result|e] eqn:Ex;
    [|vm_compute in Ex; discriminate Ex].
  destruct (vision_candidates_are_readable demo_hash (demo_request None)
              (env_of two_lines (Ok "") 1000) two_lines (Ok "") result
              _ _ _ _ eq_refl Ex E Hv) as (Hocr & _ & _ & _).
  cbn [fst snd]. split; [exact Hv|]. split; [exact Hocr|].
  apply (f_equal (fun x => fst (fst x))) in E. cbn [fst] in E. rewrite <- E.
  vm_compute. reflexivity.
Defined.

End WorkedVision.

(** ** Extraction: the patterns at work *)

(** Four runs of the pattern extraction: a brand name in capitals with
    its dose, a dose without a known name, the two-word pattern, and the
    message the OCR service returns for an unreadable scan. *)

Example fallback_reads_a_brand_name : extractDrugDataFallback "Tab. Lipitor 20 MG twice a day" =
  {| drug_name := Some "Atorvastatin"; dosage := Some "20 MG"; frequency := Some "Twice Daily";
     dose_timing := None; dosing_source := None; duration := Some "30 days"; route := Some "Oral";
     instructions := None; name_confidence := None |}.
Proof. vm_compute. reflexivity. Qed.

Example fallback_reads_a_dose_without_a_name : extractDrugDataFallback "take 1 tab BID 2.5 ml" =
  {| drug_name := Some "CLARIFICATION_NEEDED"; dosage := Some "2.5ml"; frequency := Some "Twice Daily";
     dose_timing := None; dosing_source := None; duration := Some "30 days"; route := Some "Oral";
     instructions := None; name_confidence := None |}.
Proof. vm_compute. reflexivity. Qed.

Example fallback_reads_a_two_word_name : extractDrugDataFallback "Insulin   Glargine 10 units at night" =
  {| drug_name := Some "Insulin Glargine"; dosage := Some "10units"; frequency := Some "At Bedtime";
     dose_timing := None; dosing_source := None; duration := Some "30 days"; route := Some "Oral";
     instructions := None; name_confidence := None |}.
Proof. vm_compute. reflexivity. Qed.

Example fallback_on_the_unreadable_message : extractDrugDataFallback OcrService.unreadable_message =
  {| drug_name := Some "CLARIFICATION_NEEDED"; dosage := Some "Unknown"; frequency := Some "Once Daily";
     dose_timing := None; dosing_source := None; duration := Some "30 days"; route := Some "Oral";
     instructions := None; name_confidence := None |}.
Proof. vm_compute. reflexivity. Qed.

(** ** Extraction: the recognised text and the patterns *)

Section PatternExtraction.

Lemma strip_prefix_ci_spec : forall p s,
  (exists rest, strip_prefix_ci p s = Some rest) <-> startsWith (toLowerCase s) p = true.
Proof.
  induction p as [|a p IH]; intros s.
  - cbn [strip_prefix_ci]. rewrite startsWith_nil. split; eauto.
  - destruct s as [|b s]; cbn [strip_prefix_ci toLowerCase startsWith].
    + split; [intros (rest & H); discriminate|discriminate].
    + destruct (Ascii.eqb a (lower_char b)); cbn [andb]; [apply IH|].
      split; [intros (rest & H); discriminate|discriminate].
Qed.

Lemma first_alternative_word alts word s :
  In [word] alts -> startsWith (toLowerCase s) word = true ->
  first_alternative alts s <> None.
Proof.
  induction alts as [|words alts IH]; intros Hin Hs; [destruct Hin|].
  cbn [first_alternative].
  destruct (match_words words s) eqn:E; [discriminate|].
  destruct Hin as [->|Hin]; [|exact (IH Hin Hs)].
  cbn [match_words] in E.
  apply strip_prefix_ci_spec in Hs as (rest & Hs). congruence.
Qed.

Lemma search_word alts word : forall s,
  In [word] alts -> includes (toLowerCase s) word = true -> search alts s <> None.
Proof.
  induction s as [|c s IH]; intros Hin Hinc.
  - cbn [toLowerCase includes] in Hinc. rewrite orb_false_r in Hinc.
    cbn [search].
    pose proof (first_alternative_word alts word "" Hin Hinc) as H.
    destruct (first_alternative alts ""); [discriminate|contradiction].
  - cbn [search].
    destruct (first_alternative alts (String c s)) eqn:E; [discriminate|].
    cbn [toLowerCase includes] in Hinc. apply orb_true_iff in Hinc as [Hs|Hi].
    + exfalso. exact (first_alternative_word alts word (String c s) Hin Hs E).
    + exact (IH Hin Hi).
Qed.

Lemma first_pattern_none patterns ocrText :
  first_pattern patterns ocrText = None <->
  forall pattern, In pattern patterns -> search (regex_alternatives pattern) ocrText = None.
Proof.
  induction patterns as [|p ps IH]; cbn [first_pattern].
  - split; [intros _ p []|reflexivity].
  - destruct (search (regex_alternatives p) ocrText) eqn:E.
    + split; [discriminate|]. intros H. rewrite (H p (or_introl eq_refl)) in E.
      discriminate.
    + rewrite IH. split.
      * intros H q [<-|Hq]; [exact E|exact (H q Hq)].
      * intros H q Hq. apply H. right. exact Hq.
Qed.

Lemma first_pattern_some patterns ocrText name group :
  first_pattern patterns ocrText = Some (name, group) ->
  exists pattern, In pattern patterns /\ name = pattern_name pattern /\
                  search (regex_alternatives pattern) ocrText <> None.
Proof.
  induction patterns as [|p ps IH]; cbn [first_pattern]; [discriminate|].
  destruct (search (regex_alternatives p) ocrText) eqn:E.
  - intros [= <- _]. exists p. split; [left; reflexivity|]. split; [reflexivity|].
    congruence.
  - intros H. destruct (IH H) as (q & Hq & Hn & Hs). exists q.
    split; [right; exact Hq|]. split; assumption.
Qed.

Lemma pattern_names_not_marker pattern :
  In pattern drugPatterns -> pattern_name pattern <> CLARIFICATION_NEEDED.
Proof.
  unfold drugPatterns. cbn [In]. intros H.
  repeat (destruct H as [<-|H]; [discriminate|]). destruct H.
Qed.

Lemma fallback_name ocrText :
  drug_name (extractDrugDataFallback ocrText) =
    Some (match first_pattern drugPatterns ocrText with
          | Some (name, _) => name
          | None => CLARIFICATION_NEEDED
          end).
Proof.
  unfold extractDrugDataFallback.
  destruct (first_pattern drugPatterns ocrText) as [[name [group|]]|]; reflexivity.
Qed.

Lemma takeWhile_head p s :
  takeWhile p s <> "" -> exists c t, takeWhile p s = String c t /\ p c = true.
Proof.
  destruct s as [|c s]; cbn [takeWhile]; [contradiction|].
  destruct (p c) eqn:E; [eauto|contradiction].
Qed.

Lemma digit_not_space c : is_digit c = true -> is_space c = false.
Proof.
  intros H. destruct (is_space c) eqn:E; [|reflexivity].
  rewrite (space_not_digit c E) in H. discriminate.
Qed.

Lemma integer_dose_head unit s group :
  integer_dose unit s = Some group ->
  exists c t, group = String c t /\ is_space c = false.
Proof.
  unfold integer_dose.
  destruct (strip_prefix_ci unit _); [|discriminate].
  destruct (String.eqb (takeWhile is_digit s) "") eqn:E; [discriminate|].
  apply String.eqb_neq in E. destruct (takeWhile_head _ _ E) as (c & t & -> & Hc).
  intros [= <-]. rewrite append_cons. exists c. eexists. split; [reflexivity|].
  exact (digit_not_space c Hc).
Qed.

Lemma decimal_number_head s number rest :
  decimal_number s = Some (number, rest) ->
  exists c t, number = String c t /\ is_space c = false.
Proof.
  unfold decimal_number.
  destruct (optional_dot (dropWhile is_digit s)) as [dot s1].
  destruct (String.eqb (takeWhile is_digit s) "") eqn:E; [discriminate|].
  apply String.eqb_neq in E. destruct (takeWhile_head _ _ E) as (c & t & -> & Hc).
  intros [= <- _]. rewrite append_cons. exists c. eexists. split; [reflexivity|].
  exact (digit_not_space c Hc).
Qed.

Lemma second_group_head group after text :
  second_group group after = Some text ->
  exists c t, text = String c t /\ is_space c = false.
Proof.
  unfold second_group. destruct group as [|unit|unit]; [discriminate| |].
  - apply integer_dose_head.
  - unfold decimal_dose.
    destruct (decimal_number _) as [[number s1]|] eqn:E; [|discriminate].
    destruct (decimal_number_head _ _ _ E) as (c & t & -> & Hc).
    destruct (strip_prefix_ci unit _); [|discriminate].
    intros [= <-]. rewrite append_cons. eauto.
Qed.

Lemma dosageMatch_head : forall s number unit,
  dosageMatch s = Some (number, unit) -> number <> "".
Proof.
  induction s as [|c s IH]; intros number unit; cbn [dosageMatch]; [discriminate|].
  destruct (dosage_at (String c s)) as [[n u]|] eqn:E; [|apply IH].
  intros [= <- <-]. unfold dosage_at in E.
  destruct (decimal_number (String c s)) as [[n' s1]|] eqn:En; [|discriminate].
  destruct (decimal_number_head _ _ _ En) as (x & t & -> & _).
  destruct (unit_at _ _); [|discriminate]. injection E as <- _. discriminate.
Qed.

Lemma fallback_dosage ocrText : truthy (dosage (extractDrugDataFallback ocrText)) = true.
Proof.
  unfold extractDrugDataFallback.
  assert (Hgoal : forall d : string, d <> "" ->
            truthy (Some (match dosageMatch ocrText with
                          | Some (number, unit) =>
                              if String.eqb d "Unknown" then number +:+ unit else d
                          | None => d
                          end)) = true).
  { intros d Hd. cbn [truthy]. apply negb_true_iff, String.eqb_neq.
    destruct (dosageMatch ocrText) as [[number unit]|] eqn:E; [|exact Hd].
    destruct (String.eqb d "Unknown"); [|exact Hd].
    pose proof (dosageMatch_head _ _ _ E) as Hn.
    destruct number; [contradiction|]. rewrite append_cons. discriminate. }
  destruct (first_pattern drugPatterns ocrText) as [[name [group|]]|] eqn:E;
    cbn [dosage]; try (apply Hgoal; discriminate).
  apply Hgoal.
  assert (Hhead : exists c t, group = String c t /\ is_space c = false).
  { revert E. generalize drugPatterns. intros ps.
    induction ps as [|q qs IHq]; cbn [first_pattern]; [discriminate|].
    destruct (search (regex_alternatives q) ocrText) as [after|]; [|exact IHq].
    intros [= _ Hg]. exact (second_group_head _ _ _ Hg). }
  destruct Hhead as (c & t & -> & Hc).
  destruct (trim_head c t Hc) as (t' & ->). discriminate.
Qed.

Lemma fallback_frequency ocrText :
  truthy (frequency (extractDrugDataFallback ocrText)) = true.
Proof.
  unfold extractDrugDataFallback.
  destruct (first_pattern drugPatterns ocrText) as [[name [group|]]|];
    cbn [frequency]; unfold frequency_of;
    repeat (match goal with |- context [if ?b then _ else _] => destruct b end);
    reflexivity.
Qed.

Lemma fallback_marker_iff ocrText :
  drug_name (extractDrugDataFallback ocrText) = Some CLARIFICATION_NEEDED
  <-> no_pattern_matches ocrText.
Proof.
  rewrite fallback_name. unfold no_pattern_matches.
  rewrite <- first_pattern_none.
  destruct (first_pattern drugPatterns ocrText) as [[name group]|] eqn:E.
  - split; [|discriminate]. intros [= Hn]. exfalso.
    destruct (first_pattern_some _ _ _ _ E) as (p & Hp & -> & _).
    exact (pattern_names_not_marker p Hp Hn).
  - split; reflexivity.
Qed.

(** X9 (llmService.extractDrugDataFallback and extractDrugData): the
    extraction without a model always names a drug: one of the names of
    the pattern table, or the unreadable marker, the marker exactly when
    no pattern of the table matches anywhere in the text; a text that
    contains a one-word alternative of a pattern in any letter case is
    never unreadable; the dosage and the frequency are never empty, the
    duration is "30 days" and the route "Oral". [extractDrugData] is this
    extraction whenever no key is configured or the model fails. *)
Theorem extractDrugDataFallback_always_names_a_drug :
  forall ocrText : string,
    let data := extractDrugDataFallback ocrText in
    (exists name, drug_name data = Some name /\
       (name = CLARIFICATION_NEEDED \/ In name (map pattern_name drugPatterns))) /\
    (drug_name data = Some CLARIFICATION_NEEDED <-> no_pattern_matches ocrText) /\
    (mentions_known_drug ocrText -> drug_name data <> Some CLARIFICATION_NEEDED) /\
    truthy (dosage data) = true /\ truthy (frequency data) = true /\
    duration data = Some "30 days" /\ route data = Some "Oral" /\
    (forall api : Backend,
       openai_key api = false \/ (exists e, text_json api ocrText = Throw e) ->
       extractDrugData api ocrText = data).
Proof.
  intros ocrText data. subst data.
  pose proof (fallback_marker_iff ocrText) as Hmarker.
  split; [|split; [exact Hmarker|split; [|split; [|split; [|split; [|split]]]]]].
  - rewrite fallback_name.
    destruct (first_pattern drugPatterns ocrText) as [[name group]|] eqn:E.
    + exists name. split; [reflexivity|]. right.
      destruct (first_pattern_some _ _ _ _ E) as (p & Hp & -> & _).
      apply in_map. exact Hp.
    + exists CLARIFICATION_NEEDED. split; [reflexivity|]. left. reflexivity.
  - intros (p & word & Hp & Hw & Hinc) Hm.
    apply Hmarker in Hm. exact (search_word _ _ _ Hw Hinc (Hm p Hp)).
  - apply fallback_dosage.
  - apply fallback_frequency.
  - unfold extractDrugDataFallback.
    destruct (first_pattern drugPatterns ocrText) as [[name [group|]]|]; reflexivity.
  - unfold extractDrugDataFallback.
    destruct (first_pattern drugPatterns ocrText) as [[name [group|]]|]; reflexivity.
  - intros api [Hk|(e & He)]; unfold extractDrugData.
    + rewrite Hk. reflexivity.
    + destruct (negb (openai_key api)); [reflexivity|]. rewrite He. reflexivity.
Qed.

Lemma extractDrugDataFallback_always_names_a_drug_witness :
  mentions_known_drug "Tab. LIPITOR 20 MG twice a day" /\
  drug_name (extractDrugDataFallback "Tab. LIPITOR 20 MG twice a day")
    = Some "Atorvastatin" /\
  drug_name (extractDrugDataFallback "Tab. LIPITOR 20 MG twice a day")
    <> Some CLARIFICATION_NEEDED /\
  extractDrugData no_key "Tab. LIPITOR 20 MG twice a day" =
    extractDrugDataFallback "Tab. LIPITOR 20 MG twice a day".
Proof.
  assert (Hm : mentions_known_drug "Tab. LIPITOR 20 MG twice a day").
  { exists (mkPattern [["atorvastatin"]; ["lipitor"]] (IntegerDose "mg") "Atorvastatin"),
           "lipitor".
    split; [cbn; tauto|]. split; [cbn; tauto|]. vm_compute. reflexivity. }
  destruct (extractDrugDataFallback_always_names_a_drug "Tab. LIPITOR 20 MG twice a day")
    as (_ & _ & Hk & _ & _ & _ & _ & Hx).
  split; [exact Hm|]. split; [vm_compute; reflexivity|]. split; [exact (Hk Hm)|].
  apply Hx. left. reflexivity.
Defined.

End PatternExtraction.

(** ** Extraction: a scan that cannot be read *)

Section UnreadableScan.

Variable hashFile : string -> string.

Lemma unreadable_route req env imageHash st data :
  extraction env = VisionThrows (Ok data) ->
  drug_name data = Some CLARIFICATION_NEEDED ->
  extract_and_process req env imageHash st =
    (Failure 400 "Unable to extract medication information"
       (Some "Could not read any medication names from the prescription.")
       (Some [unclear_name data])
       (Some "The prescription image may be unclear. Please try taking a clearer photo with good lighting."),
     st, [VisionCall; OcrCall]).
Proof.
  intros Hext Hname. unfold extract_and_process. rewrite Hext.
  cbn [run_extraction mbind result_bind vision_error vision_medications truthy].
  cbn [process_candidates]. unfold process_candidate. rewrite Hname.
  reflexivity.
Qed.

(** X30 (POST /api/prescription/process through ocrService.extractText
    and llmService.extractDrugData, no key configured): when the vision
    call is not available and the recognised text is shorter than five
    characters, or names none of the drugs of the pattern table, the
    request ends in the error 400 "Unable to extract medication
    information" carrying a single "unclear_name" failure; the OCR route
    was taken, and the name of the failed medication is the unreadable
    marker. *)
Theorem unreadable_scan_without_a_model :
  forall (req : ProcessRequest) (env : Env) (api : Backend) (raw : string)
         (st st' : State) (resp : Response) (events : list Event),
    openai_key api = false ->
    extraction env = extraction_of api (Ok raw) ->
    String.length (trim raw) < 5 \/ no_pattern_matches (trim raw) ->
    process hashFile req env st = (resp, st', events) ->
    In VisionCall events ->
    In OcrCall events /\
    exists data,
      drug_name data = Some CLARIFICATION_NEEDED /\
      resp = Failure 400 "Unable to extract medication information"
               (Some "Could not read any medication names from the prescription.")
               (Some [unclear_name data])
               (Some "The prescription image may be unclear. Please try taking a clearer photo with good lighting.").
Proof.
  intros req env api raw st st' resp events Hkey Hx Htext Hrun Hfresh.
  assert (Hdata : exists data, extraction env = VisionThrows (Ok data) /\
                               drug_name data = Some CLARIFICATION_NEEDED).
  { rewrite Hx. unfold extraction_of, extractFromImage, extractDrugData, extractText.
    rewrite Hkey. cbn [negb].
    destruct (String.eqb (trim raw) "" || Nat.ltb (String.length (trim raw)) 5) eqn:Hshort;
      cbn [mbind result_bind]; eexists; (split; [reflexivity|]).
    - vm_compute. reflexivity.
    - apply fallback_marker_iff. destruct Htext as [Hlt|Hno]; [|exact Hno].
      apply orb_false_iff in Hshort as [_ Hge]. apply Nat.ltb_ge in Hge. lia. }
  destruct Hdata as (data & Hext & Hname).
  pose proof (fun h s => unreadable_route req env h s data Hext Hname) as Hroute.
  revert Hrun. unfold process.
  destruct (file req) as [image|]; [|intros [= _ _ <-]; destruct Hfresh].
  destruct (forceRefresh req).
  - rewrite Hroute. intros [= <- _ <-]. split; [right; left; reflexivity|eauto].
  - destruct (lookup_tiers (hashFile image) (clock env) st) as [[found st1] reads] eqn:Hl.
    destruct found as [cached|].
    + intros [= _ _ <-]. exfalso.
      eapply lookup_tiers_no_extraction; eauto.
    + rewrite Hroute. intros [= <- _ <-].
      split; [apply in_or_app; right; right; left; reflexivity|eauto].
Qed.

End UnreadableScan.

Section WorkedOcr.

Lemma unreadable_scan_without_a_model_witness :
  let run := process demo_hash (demo_request None)
                     (env_of no_key (Ok "take 1 tab BID") 1000) empty_state in
  no_pattern_matches (trim "take 1 tab BID") /\
  In VisionCall (snd run) /\ In OcrCall (snd run) /\
  status_of (fst (fst run)) = 400%Z /\
  map failure_reason (carried (failed_of (fst (fst run)))) = ["unclear_name"].
Proof.
  cbv zeta.
  assert (Hno : no_pattern_matches (trim "take 1 tab BID")).
  { intros p Hp. unfold drugPatterns in Hp. cbn [In] in Hp.
    repeat (destruct Hp as [<-|Hp]; [vm_compute; reflexivity|]). destruct Hp. }
  destruct (process demo_hash (demo_request None)
                    (env_of no_key (Ok "take 1 tab BID") 1000) empty_state)
    as [[resp st'] events] eqn:E.
  assert (Hv : In VisionCall events).
  { apply (f_equal snd) in E. cbn [snd] in E. rewrite <- E. vm_compute. tauto. }
  destruct (unreadable_scan_without_a_model demo_hash (demo_request None)
              (env_of no_key (Ok "take 1 tab BID") 1000) no_key "take 1 tab BID"
              _ _ _ _ eq_refl eq_refl (or_intror Hno) E Hv)
    as (Hocr & data & Hname & ->).
  cbn [fst snd]. split; [exact Hno|]. split; [exact Hv|]. split; [exact Hocr|].
  split; reflexivity.
Defined.

End WorkedOcr.
